(** * Agentation MCP: the annotation broker, its tool dispatcher and its CLI

    A shallow embedding of [src/cli.ts] (port parsing and the [server]
    command), [src/server/http.ts] (router, REST handlers, SSE handlers) and
    [src/server/mcp.ts] (tool catalog and [handleTool]), followed by the
    properties of the written specification that they decide.

    JavaScript strings are sequences of UTF-16 code units; they are modelled
    as [list N] so that [trim] and [parseInt] see exactly the characters the
    engine sees.  [str] embeds an ASCII literal. *)

From Stdlib Require Import List ZArith NArith Bool Lia String Ascii Sorted.
From Stdlib Require DecimalPos DecimalZ.
Import ListNotations.

Set Implicit Arguments.
Open Scope Z_scope.

(* ------------------------------------------------------------------------- *)
(** ** JavaScript built-ins used by the sources                               *)
(* ------------------------------------------------------------------------- *)

Module Js.

Definition jsstring := list N.

Definition str (s : string) : jsstring :=
  map N_of_ascii (list_ascii_of_string s).

Fixpoint eqb (a b : jsstring) : bool :=
  match a, b with
  | [], [] => true
  | x :: a', y :: b' => N.eqb x y && eqb a' b'
  | _, _ => false
  end.

(** WhiteSpace and LineTerminator code points of ECMAScript (the set both
    [String.prototype.trim] and the prefix skipping of [parseInt] use). *)
Definition isWhiteSpace (c : N) : bool :=
  ((9 <=? c) && (c <=? 13) || (c =? 32) || (c =? 160) || (c =? 5760)
   || (8192 <=? c) && (c <=? 8202) || (c =? 8232) || (c =? 8233)
   || (c =? 8239) || (c =? 8287) || (c =? 12288) || (c =? 65279))%N.

Fixpoint trimStart (s : jsstring) : jsstring :=
  match s with
  | c :: r => if isWhiteSpace c then trimStart r else s
  | [] => []
  end.

Definition trimEnd (s : jsstring) : jsstring := rev (trimStart (rev s)).

(** [String.prototype.trim]. *)
Definition trim (s : jsstring) : jsstring := trimEnd (trimStart s).

Definition digit (c : N) : option Z :=
  if ((48 <=? c) && (c <=? 57))%N then Some (Z.of_N c - 48) else None.

(** The longest prefix of decimal digits, read left to right; [acc] is
    [None] until a first digit has been seen. *)
Fixpoint digits (acc : option Z) (s : jsstring) : option Z :=
  match s with
  | c :: r =>
      match digit c with
      | Some d =>
          digits (Some (10 * match acc with Some a => a | None => 0 end + d)) r
      | None => acc
      end
  | [] => acc
  end.

(** [parseInt(s, 10)]: leading white space is skipped, one sign is read,
    then the longest digit prefix; [None] stands for NaN.  The result is the
    mathematical integer: the engine rounds it to a double, which is exact
    below 2^53 and monotone above, so every comparison the sources make
    (with 1, 65535, 65536 and event sequence numbers) is unaffected. *)
Definition parseInt (s : jsstring) : option Z :=
  match trimStart s with
  | 45%N :: r => option_map Z.opp (digits None r)
  | 43%N :: r => digits None r
  | r => digits None r
  end.

(** Truthiness of a string: the empty string is the only falsy one. *)
Definition truthy (s : jsstring) : bool :=
  match s with [] => false | _ => true end.

Fixpoint startsWith (p s : jsstring) : bool :=
  match p, s with
  | [], _ => true
  | x :: p', y :: s' => N.eqb x y && startsWith p' s'
  | _ :: _, [] => false
  end.

(** [String.prototype.includes]. *)
Fixpoint includes (needle hay : jsstring) : bool :=
  startsWith needle hay
  || match hay with
     | [] => false
     | _ :: hay' => includes needle hay'
     end.

Fixpoint uint_codes (u : Decimal.uint) : jsstring :=
  match u with
  | Decimal.Nil => []
  | Decimal.D0 r => 48%N :: uint_codes r
  | Decimal.D1 r => 49%N :: uint_codes r
  | Decimal.D2 r => 50%N :: uint_codes r
  | Decimal.D3 r => 51%N :: uint_codes r
  | Decimal.D4 r => 52%N :: uint_codes r
  | Decimal.D5 r => 53%N :: uint_codes r
  | Decimal.D6 r => 54%N :: uint_codes r
  | Decimal.D7 r => 55%N :: uint_codes r
  | Decimal.D8 r => 56%N :: uint_codes r
  | Decimal.D9 r => 57%N :: uint_codes r
  end.

(** [String(n)] and [`${n}`] for an integer [n]. *)
Definition ofInt (z : Z) : jsstring :=
  match Z.to_int z with
  | Decimal.Pos u => uint_codes u
  | Decimal.Neg u => 45%N :: uint_codes u
  end.

(** Splitting at every [/] (code unit 47); [cur] is the segment being read,
    reversed. *)
Fixpoint splitSlash (cur : jsstring) (s : jsstring) : list jsstring :=
  match s with
  | [] => [rev cur]
  | c :: r =>
      if (c =? 47)%N then rev cur :: splitSlash [] r
      else splitSlash (c :: cur) r
  end.

End Js.

(* ------------------------------------------------------------------------- *)
(** ** JSON values and what the platform provides                            *)
(* ------------------------------------------------------------------------- *)

Module Json.
Import Js.

(** A value as [JSON.parse] returns it.  Numbers are restricted to the
    integers, and an integer stands for the number the engine holds only
    when a double holds it exactly (size at most 2^53); an object holds one
    binding per key, in key order of the text. *)
#[local] Unset Elimination Schemes.
Inductive json : Type :=
| JNull
| JBool (b : bool)
| JNum (n : Z)
| JStr (s : jsstring)
| JArr (items : list json)
| JObj (fields : list (jsstring * json)).
#[local] Set Elimination Schemes.

(** Reading an own property of an object; [None] is [undefined]. *)
Fixpoint field (k : jsstring) (o : list (jsstring * json)) : option json :=
  match o with
  | [] => None
  | (k', v) :: r => if eqb k' k then Some v else field k r
  end.

(** Truthiness of a property read ([undefined] included). *)
Definition truthy (v : option json) : bool :=
  match v with
  | None | Some JNull | Some (JBool false) | Some (JNum 0) => false
  | Some (JStr s) => Js.truthy s
  | Some _ => true
  end.

(** A property with an absent ([undefined]) value is left out of an object
    literal once it is serialised. *)
Definition prop (k : string) (v : option json) : list (jsstring * json) :=
  match v with
  | Some j => [(str k, j)]
  | None => []
  end.

Definition optStr (v : option jsstring) : option json := option_map JStr v.

End Json.

(** Functions of the runtime and of third-party packages that the sources
    call and that are not part of the repository. *)
Class Platform : Type := {
  (** [new URL(u).host]; [None] when the constructor throws. *)
  urlHost : Js.jsstring -> option Js.jsstring;
  (** [new URL(p, base).pathname] for a request target [p]. *)
  urlPathname : Js.jsstring -> Js.jsstring;
  (** The entries of [new URL(p, base).searchParams]. *)
  urlQuery : Js.jsstring -> list (Js.jsstring * Js.jsstring);
  (** [JSON.stringify(v)]. *)
  stringify : Json.json -> Js.jsstring;
  (** [JSON.stringify(v, null, 2)]. *)
  stringifyPretty : Json.json -> Js.jsstring;
  (** The message of the [TypeError] raised by reading property [k] of
      [null]. *)
  typeErrorMessage : Js.jsstring -> Js.jsstring;
  (** The message of the [ZodError] raised when the arguments of a tool do
      not fit its schema; [None] is [undefined]. *)
  zodMessage : option Json.json -> Js.jsstring
}.

(** Completion of a computation that may raise. *)
Inductive Result (A : Type) : Type :=
| Ok (a : A)
| Throw (msg : Js.jsstring).
Arguments Ok {A} a.
Arguments Throw {A} msg.

Definition rbind {A B} (r : Result A) (k : A -> Result B) : Result B :=
  match r with
  | Ok a => k a
  | Throw m => Throw m
  end.

Declare Scope result_scope.
Delimit Scope result_scope with result.
Notation "'let!' x ':=' r 'in' k" := (rbind r (fun x => k))
  (at level 10, x pattern, r at level 100, k at level 200) : result_scope.

(* ------------------------------------------------------------------------- *)
(** ** Data model                                                            *)
(* ------------------------------------------------------------------------- *)

Module Model.
Import Js Json.

(** Modelled from the spec: the enumerations of [../types.js], which is not
    among the sources (section 3: session status, annotation status, intent,
    severity, resolver and thread role, event type). *)
Inductive SessionStatus := Active | Closed.
Inductive AnnotationStatus := Pending | Acknowledged | Resolved | Dismissed.
Inductive Intent := IntentFix | IntentChange | IntentQuestion | IntentApprove.
Inductive Severity := Blocking | Important | Suggestion.
Inductive Role := Human | Agent.
Inductive EventType :=
| AnnotationCreated | AnnotationUpdated | AnnotationDeleted
| SessionCreated | SessionUpdated | SessionClosed | ThreadMessageAdded.

(** Modelled from the spec: the Session of [../types.js], which is not among
    the sources (section 3: "opaque string id", "origin URL (absolute),
    optional project id, status, creation timestamp").  Timestamps are
    readings of an abstract clock. *)
Record Session := {
  s_id : jsstring;
  s_url : jsstring;
  s_projectId : option jsstring;
  s_status : SessionStatus;
  s_createdAt : Z
}.

(** Modelled from the spec: the Thread Message of [../types.js] (section 3:
    "opaque string id", "parent annotation id, role, content string"). *)
Record ThreadMessage := {
  m_id : jsstring;
  m_annotationId : jsstring;
  m_role : Role;
  m_content : jsstring;
  m_timestamp : Z
}.

(** Modelled from the spec: the Annotation of [../types.js] (section 3:
    "parent session id, free-text comment, element tag name, element path,
    optional URL, optional bounding box, optional intent, optional severity,
    status, optional resolver identity, optional resolution timestamp,
    creation timestamp, update timestamp, plus arbitrary optional context
    strings"; it "owns an ordered sequence of thread messages").  The context
    keeps the value of every other property as it came. *)
Record Annotation := {
  a_id : jsstring;
  a_sessionId : jsstring;
  a_comment : jsstring;
  a_element : jsstring;
  a_elementPath : jsstring;
  a_url : option jsstring;
  a_boundingBox : option (Z * Z * Z * Z);
  a_intent : option Intent;
  a_severity : option Severity;
  a_status : AnnotationStatus;
  a_resolvedBy : option Role;
  a_resolvedAt : option Z;
  a_createdAt : Z;
  a_updatedAt : Z;
  a_context : list (jsstring * json);
  a_thread : list ThreadMessage
}.

(** Modelled from the spec: the payload of an event ("the affected
    annotation/session/thread at the moment of the mutation"). *)
Inductive Payload :=
| OfSession (s : Session)
| OfAnnotation (a : Annotation)
| OfMessage (m : ThreadMessage).

(** Modelled from the spec: the SAFEvent of [../types.js] (section 3:
    "type, ISO timestamp, owning session id, monotonically increasing
    per-process sequence number, embedded payload"). *)
Record SAFEvent := {
  e_type : EventType;
  e_timestamp : Z;
  e_sessionId : jsstring;
  e_sequence : Z;
  e_payload : Payload
}.

Definition status_eqb (a b : AnnotationStatus) : bool :=
  match a, b with
  | Pending, Pending | Acknowledged, Acknowledged
  | Resolved, Resolved | Dismissed, Dismissed => true
  | _, _ => false
  end.

(** *** Wire names

    Modelled from the spec: the strings of the enumerations (section 3) and
    the JSON shape of the entities (sections 3 and 6); [../types.js] is not
    among the sources. *)

Definition sessionStatusName (s : SessionStatus) : jsstring :=
  match s with Active => str "active" | Closed => str "closed" end.

Definition statusName (s : AnnotationStatus) : jsstring :=
  match s with
  | Pending => str "pending"
  | Acknowledged => str "acknowledged"
  | Resolved => str "resolved"
  | Dismissed => str "dismissed"
  end.

Definition intentName (i : Intent) : jsstring :=
  match i with
  | IntentFix => str "fix"
  | IntentChange => str "change"
  | IntentQuestion => str "question"
  | IntentApprove => str "approve"
  end.

Definition severityName (s : Severity) : jsstring :=
  match s with
  | Blocking => str "blocking"
  | Important => str "important"
  | Suggestion => str "suggestion"
  end.

Definition roleName (r : Role) : jsstring :=
  match r with Human => str "human" | Agent => str "agent" end.

Definition eventTypeName (t : EventType) : jsstring :=
  match t with
  | AnnotationCreated => str "annotation.created"
  | AnnotationUpdated => str "annotation.updated"
  | AnnotationDeleted => str "annotation.deleted"
  | SessionCreated => str "session.created"
  | SessionUpdated => str "session.updated"
  | SessionClosed => str "session.closed"
  | ThreadMessageAdded => str "thread.message"
  end.

(** The first member of [all] whose wire name is [s]. *)
Definition ofName {A} (name : A -> jsstring) (all : list A) (s : jsstring)
  : option A :=
  find (fun a => eqb (name a) s) all.

Definition statusOfName :=
  ofName statusName [Pending; Acknowledged; Resolved; Dismissed].
Definition intentOfName :=
  ofName intentName [IntentFix; IntentChange; IntentQuestion; IntentApprove].
Definition severityOfName :=
  ofName severityName [Blocking; Important; Suggestion].
Definition roleOfName := ofName roleName [Human; Agent].

(** *** Serialised shapes *)

Definition sessionJson (s : Session) : json :=
  JObj ([(str "id", JStr (s_id s)); (str "url", JStr (s_url s))]
        ++ prop "projectId" (optStr (s_projectId s))
        ++ [(str "status", JStr (sessionStatusName (s_status s)));
            (str "createdAt", JNum (s_createdAt s))]).

Definition messageJson (m : ThreadMessage) : json :=
  JObj [(str "id", JStr (m_id m));
        (str "annotationId", JStr (m_annotationId m));
        (str "role", JStr (roleName (m_role m)));
        (str "content", JStr (m_content m));
        (str "timestamp", JNum (m_timestamp m))].

Definition boxJson (b : Z * Z * Z * Z) : json :=
  let '(x, y, w, h) := b in
  JObj [(str "x", JNum x); (str "y", JNum y);
        (str "width", JNum w); (str "height", JNum h)].

Definition annotationFields (a : Annotation) : list (jsstring * json) :=
  [(str "id", JStr (a_id a)); (str "sessionId", JStr (a_sessionId a));
   (str "comment", JStr (a_comment a)); (str "element", JStr (a_element a));
   (str "elementPath", JStr (a_elementPath a))]
  ++ prop "url" (optStr (a_url a))
  ++ prop "boundingBox" (option_map boxJson (a_boundingBox a))
  ++ prop "intent" (optStr (option_map intentName (a_intent a)))
  ++ prop "severity" (optStr (option_map severityName (a_severity a)))
  ++ [(str "status", JStr (statusName (a_status a)))]
  ++ prop "resolvedBy" (optStr (option_map roleName (a_resolvedBy a)))
  ++ prop "resolvedAt" (option_map JNum (a_resolvedAt a))
  ++ [(str "createdAt", JNum (a_createdAt a));
      (str "updatedAt", JNum (a_updatedAt a));
      (str "thread", JArr (map messageJson (a_thread a)))]
  ++ a_context a.

Definition annotationJson (a : Annotation) : json := JObj (annotationFields a).

Definition payloadJson (p : Payload) : json :=
  match p with
  | OfSession s => sessionJson s
  | OfAnnotation a => annotationJson a
  | OfMessage m => messageJson m
  end.

(** The envelope [{type, timestamp, sessionId, sequence, payload}]. *)
Definition eventJson (e : SAFEvent) : json :=
  JObj [(str "type", JStr (eventTypeName (e_type e)));
        (str "timestamp", JNum (e_timestamp e));
        (str "sessionId", JStr (e_sessionId e));
        (str "sequence", JNum (e_sequence e));
        (str "payload", payloadJson (e_payload e))].

(** *** The process state *)

(** The identity of one response object ([res]). *)
Definition ConnId := nat.

(** What a handler writes to a response that stays open. *)
Inductive Chunk :=
| Comment (text : jsstring)
| Frame (e : SAFEvent).

(** The callbacks [http.ts] registers with the event bus, as data: the
    response they close over, and for the site-level stream the domain. *)
Inductive Sink :=
| ToSession (c : ConnId)
| ToDomain (c : ConnId) (domain : jsstring).

(** A subscription: [scope] is [Some sid] for [subscribeToSession] and
    [None] for [subscribe]. *)
Record Subscriber := {
  sub_scope : option jsstring;
  sub_sink : Sink
}.

(** The response a callback writes to. *)
Definition sinkConn (k : Sink) : ConnId :=
  match k with ToSession c => c | ToDomain c _ => c end.

(** Everything the process holds: the maps and the event log of the store,
    the counter and the subscriber list of the event bus, the set
    [sseConnections] of [http.ts], and what has been written to the open
    responses, oldest first. *)
Record World := {
  sessions : list Session;
  annotations : list Annotation;
  eventLog : list SAFEvent;
  sequence : Z;
  subscribers : list Subscriber;
  sseConnections : list ConnId;
  wire : list (ConnId * Chunk);
  (** Every event the bus has issued since the process started, oldest
      first.  The code keeps no such list (retention edits [eventLog]);
      it is the history the properties below speak about. *)
  emitted : list SAFEvent
}.

(** The state of a process that has just started. *)
Definition initial : World :=
  {| sessions := []; annotations := []; eventLog := []; sequence := 0;
     subscribers := []; sseConnections := []; wire := []; emitted := [] |}.

(** What the clock and the id generator hand to one request. *)
Record Env := { now : Z; newId : jsstring }.

End Model.

(* ------------------------------------------------------------------------- *)
(** ** Store reads, the SSE writer and the event bus                          *)
(* ------------------------------------------------------------------------- *)

Module StoreRead.
Import Js Json Model.

(** Modelled from the spec: [getSession] of [./store.js], which is not among
    the sources ("getSession(id) -> Session | NotFound"). *)
Definition getSession (id : jsstring) (w : World) : option Session :=
  find (fun s => eqb (s_id s) id) (sessions w).

(** Modelled from the spec: [getAnnotation] of [./store.js]
    ("getAnnotation(id) -> Annotation | NotFound"). *)
Definition getAnnotation (id : jsstring) (w : World) : option Annotation :=
  find (fun a => eqb (a_id a) id) (annotations w).

(** Modelled from the spec: [listSessions] of [./store.js] ("returns all
    sessions in creation-time order"); sessions are kept in the order of
    their creation. *)
Definition listSessions (w : World) : list Session := sessions w.

(** Modelled from the spec: [getPendingAnnotations] of [./store.js]
    ("annotations with status pending, insertion order"). *)
Definition getPendingAnnotations (sid : jsstring) (w : World)
  : list Annotation :=
  filter (fun a => eqb (a_sessionId a) sid && status_eqb (a_status a) Pending)
         (annotations w).

(** Modelled from the spec: [getSessionWithAnnotations] of [./store.js]
    ("embeds annotations in insertion order"). *)
Definition getSessionWithAnnotations (id : jsstring) (w : World)
  : option (Session * list Annotation) :=
  match getSession id w with
  | Some s =>
      Some (s, filter (fun a => eqb (a_sessionId a) id) (annotations w))
  | None => None
  end.

(** Modelled from the spec: the first [n] members, for the [limit] of
    [getEventsSince]. *)
Fixpoint take {A} (n : nat) (l : list A) : list A :=
  match n, l with
  | S n', x :: r => x :: take n' r
  | _, _ => []
  end.

(** Modelled from the spec: [getEventsSince] of [./store.js]
    ("getEventsSince(sessionId, lastSequence, limit) -> [Event]": the
    logged events of the session whose sequence is strictly greater than
    [lastSequence], in log order, at most [limit] of them when a limit is
    given). *)
Definition getEventsSince (sid : jsstring) (lastSequence : Z)
           (limit : option nat) (w : World) : list SAFEvent :=
  let hits :=
    filter (fun e => eqb (e_sessionId e) sid && (lastSequence <? e_sequence e))
           (eventLog w) in
  match limit with
  | Some n => take n hits
  | None => hits
  end.

End StoreRead.

Module Sse.
Import Js Json Model StoreRead.

Definition write (c : ConnId) (k : Chunk) (w : World) : World :=
  {| sessions := sessions w; annotations := annotations w;
     eventLog := eventLog w; sequence := sequence w;
     subscribers := subscribers w; sseConnections := sseConnections w;
     wire := wire w ++ [(c, k)]; emitted := emitted w |}.

(** [sendSSEEvent(res, event)]: the three writes of one frame. *)
Definition sendSSEEvent (c : ConnId) (e : SAFEvent) (w : World) : World :=
  write c (Frame e) w.

(** The bytes a chunk stands for. *)
Definition render {P : Platform} (k : Chunk) : jsstring :=
  match k with
  | Comment text => str ": " ++ text ++ [10; 10]%N
  | Frame e =>
      str "event: " ++ eventTypeName (e_type e) ++ [10%N]
      ++ str "id: " ++ ofInt (e_sequence e) ++ [10%N]
      ++ str "data: " ++ stringify (eventJson e) ++ [10; 10]%N
  end.

(** The body of the callback a handler subscribed: [sseHandler] passes
    the event on; [globalSseHandler] looks the owning session up and passes
    the event on when the host of its URL is the domain, and skips it when
    the session is unknown or its URL does not parse. *)
Definition runSink {P : Platform} (k : Sink) (e : SAFEvent) (w : World)
  : World :=
  match k with
  | ToSession c => sendSSEEvent c e w
  | ToDomain c domain =>
      match getSession (e_sessionId e) w with
      | Some session =>
          match urlHost (s_url session) with
          | Some sessionHost =>
              if eqb sessionHost domain then sendSSEEvent c e w else w
          | None => w
          end
      | None => w
      end
  end.

End Sse.

Module EventBus.
Import Js Json Model.

Section Bus.
Context {P : Platform}.

(** Modelled from the spec: the filter of a subscription
    ("subscribeToSession: only events whose session id matches; subscribe:
    all events"). *)
Definition inScope (s : Subscriber) (e : SAFEvent) : bool :=
  match sub_scope s with
  | Some sid => eqb sid (e_sessionId e)
  | None => true
  end.

(** Modelled from the spec: the fan-out of [./events.js] ("sinks are invoked
    in sequence order"): the sinks are called one after the other, in
    subscription order. *)
Fixpoint deliver (e : SAFEvent) (subs : list Subscriber) (w : World)
  : World :=
  match subs with
  | [] => w
  | s :: rest =>
      deliver e rest (if inScope s e then Sse.runSink (sub_sink s) e w else w)
  end.

(** Modelled from the spec: the bookkeeping of an emission (the counter
    moves to the sequence of the event, the event is appended to the log). *)
Definition record (e : SAFEvent) (w : World) : World :=
  {| sessions := sessions w; annotations := annotations w;
     eventLog := eventLog w ++ [e]; sequence := e_sequence e;
     subscribers := subscribers w; sseConnections := sseConnections w;
     wire := wire w; emitted := emitted w ++ [e] |}.

(** Modelled from the spec: [eventBus.emit] of [./events.js], which is
    not among the sources ("a single internal counter issues sequence
    numbers; the first event is 1"; the bus assigns the sequence,
    appends the event to the log and fans it out to the live
    subscribers). *)
Definition emit (ty : EventType) (sid : jsstring) (p : Payload) (t : Z)
           (w : World) : World :=
  let e := {| e_type := ty; e_timestamp := t; e_sessionId := sid;
              e_sequence := sequence w + 1; e_payload := p |} in
  deliver e (subscribers w) (record e w).

(** The state with another subscriber list and another set of open
    responses. *)
Definition setSubscribers (subs : list Subscriber) (conns : list ConnId)
           (w : World) : World :=
  {| sessions := sessions w; annotations := annotations w;
     eventLog := eventLog w; sequence := sequence w;
     subscribers := subs; sseConnections := conns;
     wire := wire w; emitted := emitted w |}.

(** Modelled from the spec: [eventBus.subscribeToSession] and
    [eventBus.subscribe] of [./events.js] ("subscribeToSession(sessionId,
    sink) (only events whose session id matches) and subscribe(sink) (all
    events)"). *)
Definition subscribe (scope : option jsstring) (k : Sink) (w : World)
  : World :=
  setSubscribers
    (subscribers w ++ [{| sub_scope := scope; sub_sink := k |}])
    (sseConnections w) w.

(** Modelled from the spec: the cancel handle a subscription returns; the
    handle of the subscription made for response [c] removes it. *)
Definition unsubscribe (c : ConnId) (w : World) : World :=
  setSubscribers
    (filter (fun s => negb (Nat.eqb (sinkConn (sub_sink s)) c))
            (subscribers w))
    (sseConnections w) w.

(** Modelled from the spec: the retention sweeper ("events older than the
    configured retention window are eligible for deletion. Sequence
    numbers are never reused after retention deletion"): the log keeps
    the events stamped at or after [cutoff]; the counter is left
    alone. *)
Definition sweep (cutoff : Z) (w : World) : World :=
  {| sessions := sessions w; annotations := annotations w;
     eventLog := filter (fun e => cutoff <=? e_timestamp e) (eventLog w);
     sequence := sequence w;
     subscribers := subscribers w; sseConnections := sseConnections w;
     wire := wire w; emitted := emitted w |}.

End Bus.
End EventBus.

(* ------------------------------------------------------------------------- *)
(** ** Store mutations                                                       *)
(* ------------------------------------------------------------------------- *)

Module Store.
Import Js Json Model StoreRead.
Local Open Scope result_scope.

(** *** Validation of request fields *)

(** Modelled from the spec: a validation failure of [./store.js], which is
    not among the sources ("Validation: malformed body, missing required
    field, illegal status transition, bad enum value"); the text is what the
    handler puts in [{error: <reason>}]. *)
Definition invalid {A} (k : string) : Result A :=
  Throw (str "Invalid value for " ++ str k).

(** Modelled from the spec: an optional string attribute of a payload. *)
Definition optString (k : string) (o : list (jsstring * json))
  : Result (option jsstring) :=
  match field (str k) o with
  | None => Ok None
  | Some (JStr s) => Ok (Some s)
  | Some _ => invalid k
  end.

(** Modelled from the spec: a required string attribute of a payload. *)
Definition reqString (k : string) (o : list (jsstring * json))
  : Result jsstring :=
  match field (str k) o with
  | Some (JStr s) => Ok s
  | _ => invalid k
  end.

(** Modelled from the spec: an optional attribute with an enumerated value
    ("bad enum value" is a validation failure). *)
Definition optEnum {A} (ofName : jsstring -> option A) (k : string)
           (o : list (jsstring * json)) : Result (option A) :=
  match field (str k) o with
  | None => Ok None
  | Some (JStr s) =>
      match ofName s with
      | Some a => Ok (Some a)
      | None => invalid k
      end
  | Some _ => invalid k
  end.

(** Modelled from the spec: the optional bounding box "(x, y, width,
    height)". *)
Definition optBox (o : list (jsstring * json))
  : Result (option (Z * Z * Z * Z)) :=
  match field (str "boundingBox") o with
  | None => Ok None
  | Some (JObj b) =>
      match field (str "x") b, field (str "y") b,
            field (str "width") b, field (str "height") b with
      | Some (JNum x), Some (JNum y), Some (JNum w), Some (JNum h) =>
          Ok (Some (x, y, w, h))
      | _, _, _, _ => invalid "boundingBox"
      end
  | Some _ => invalid "boundingBox"
  end.

(** Modelled from the spec: the attributes of an annotation that have a field
    of their own; every other property of a payload is context ("arbitrary
    optional context strings ... stored verbatim"). *)
Definition recognized : list jsstring :=
  map str ["id"; "sessionId"; "comment"; "element"; "elementPath"; "url";
           "boundingBox"; "intent"; "severity"; "status"; "resolvedBy";
           "resolvedAt"; "createdAt"; "updatedAt"; "thread"]%string.

(** Modelled from the spec: a property that is context. *)
Definition isContext (kv : jsstring * json) : bool :=
  negb (existsb (eqb (fst kv)) recognized).

(** Modelled from the spec: the context a payload brings. *)
Definition contextOf (o : list (jsstring * json)) : list (jsstring * json) :=
  filter isContext o.

(** Modelled from the spec: the context after a patch ("fields present
    overwrite, fields absent are preserved"). *)
Definition mergeContext (old patch : list (jsstring * json))
  : list (jsstring * json) :=
  filter (fun kv => negb (existsb (fun kv' => eqb (fst kv') (fst kv)) patch))
         old
  ++ patch.

(** Modelled from the spec: "fields present overwrite, fields absent are
    preserved", for a field that always has a value. *)
Definition orKeep {A} (patch : option A) (old : A) : A :=
  match patch with Some v => v | None => old end.

(** Modelled from the spec: the same for an optional field. *)
Definition orKeepOpt {A} (patch old : option A) : option A :=
  match patch with Some v => Some v | None => old end.

(** *** The transition lattice *)

(** Modelled from the spec: the legal status transitions ("pending ->
    acknowledged, pending -> dismissed, acknowledged -> resolved,
    acknowledged -> dismissed, resolved -> pending (reopen), dismissed ->
    pending (reopen). Any other transition fails with a validation
    error"). *)
Definition legalTransition (from to : AnnotationStatus) : bool :=
  match from, to with
  | Pending, Acknowledged
  | Pending, Dismissed
  | Acknowledged, Resolved
  | Acknowledged, Dismissed
  | Resolved, Pending
  | Dismissed, Pending => true
  | _, _ => false
  end.

(** Modelled from the spec: the status a patch leaves ("PATCH with the
    current status value is a no-op on the status field"; a change is
    checked against the lattice). *)
Definition nextStatus (cur : AnnotationStatus)
           (requested : option AnnotationStatus) : Result AnnotationStatus :=
  match requested with
  | None => Ok cur
  | Some s =>
      if status_eqb cur s then Ok cur
      else if legalTransition cur s then Ok s
      else Throw (str "Illegal status transition: " ++ statusName cur
                  ++ str " -> " ++ statusName s)
  end.

(** Modelled from the spec: the statuses that carry a resolver and a
    resolution time ("resolvedAt and resolvedBy are set if and only if status
    is resolved or dismissed"). *)
Definition settled (s : AnnotationStatus) : bool :=
  match s with Resolved | Dismissed => true | _ => false end.

(** *** Writes to the maps *)

(** Modelled from the spec: the two maps of the volatile store ("in-memory
    maps"), replaced together. *)
Definition setStore (ss : list Session) (aa : list Annotation) (w : World)
  : World :=
  {| sessions := ss; annotations := aa;
     eventLog := eventLog w; sequence := sequence w;
     subscribers := subscribers w; sseConnections := sseConnections w;
     wire := wire w; emitted := emitted w |}.

(** Modelled from the spec: a write to a map indexed by id; an existing key
    keeps its place, a new one goes last (insertion order). *)
Fixpoint put {A} (key : A -> jsstring) (v : A) (l : list A) : list A :=
  match l with
  | [] => [v]
  | x :: r => if eqb (key x) (key v) then v :: r else x :: put key v r
  end.

(** Modelled from the spec: the removal of a key from a map indexed by
    id. *)
Definition remove {A} (key : A -> jsstring) (id : jsstring) (l : list A)
  : list A :=
  filter (fun x => negb (eqb (key x) id)) l.

Section Mutations.
Context {P : Platform}.

(** Modelled from the spec: [createSession] of [./store.js], which is not
    among the sources ("assigns a fresh id, status active, creation
    timestamp = now"; the mutation produces its event in the same
    operation). *)
Definition createSession (url projectId : option json) (env : Env)
           (w : World) : Result (Session * World) :=
  let o := prop "url" url ++ prop "projectId" projectId in
  let! u := reqString "url" o in
  let! p := optString "projectId" o in
  let s := {| s_id := newId env; s_url := u; s_projectId := p;
              s_status := Active; s_createdAt := now env |} in
  let w1 := setStore (put s_id s (sessions w)) (annotations w) w in
  Ok (s, EventBus.emit SessionCreated (s_id s) (OfSession s) (now env) w1).

(** Modelled from the spec: [addAnnotation] of [./store.js] ("rejects if
    the session does not exist. Assigns a fresh id, status pending,
    creation and update timestamps = now. Stores every recognized
    optional field verbatim"). *)
Definition addAnnotation (sid : jsstring) (body : json) (env : Env)
           (w : World) : Result (option Annotation * World) :=
  match getSession sid w with
  | None => Ok (None, w)
  | Some _ =>
      match body with
      | JObj o =>
          let! comment := reqString "comment" o in
          let! element := reqString "element" o in
          let! elementPath := reqString "elementPath" o in
          let! url := optString "url" o in
          let! box := optBox o in
          let! intent := optEnum intentOfName "intent" o in
          let! severity := optEnum severityOfName "severity" o in
          let a := {| a_id := newId env; a_sessionId := sid;
                      a_comment := comment; a_element := element;
                      a_elementPath := elementPath; a_url := url;
                      a_boundingBox := box; a_intent := intent;
                      a_severity := severity; a_status := Pending;
                      a_resolvedBy := None; a_resolvedAt := None;
                      a_createdAt := now env; a_updatedAt := now env;
                      a_context := contextOf o; a_thread := [] |} in
          let w1 := setStore (sessions w) (put a_id a (annotations w)) w in
          Ok (Some a,
              EventBus.emit AnnotationCreated sid (OfAnnotation a)
                            (now env) w1)
      | _ => invalid "body"
      end
  end.

(** Modelled from the spec: the record a patch leaves ("patch is a
    partial record; fields present overwrite, fields absent are
    preserved. Status changes are checked against the transition
    lattice; illegal transitions fail with a validation error. Any patch
    bumps the update timestamp"; "resolvedAt and resolvedBy are set if
    and only if status is resolved or dismissed").  A resolution that
    names no resolver is attributed to the human. *)
Definition applyPatch (a : Annotation) (o : list (jsstring * json))
           (t : Z) : Result Annotation :=
  let! comment := optString "comment" o in
  let! element := optString "element" o in
  let! elementPath := optString "elementPath" o in
  let! url := optString "url" o in
  let! box := optBox o in
  let! intent := optEnum intentOfName "intent" o in
  let! severity := optEnum severityOfName "severity" o in
  let! requested := optEnum statusOfName "status" o in
  let! resolver := optEnum roleOfName "resolvedBy" o in
  let! status := nextStatus (a_status a) requested in
  Ok {| a_id := a_id a; a_sessionId := a_sessionId a;
        a_comment := orKeep comment (a_comment a);
        a_element := orKeep element (a_element a);
        a_elementPath := orKeep elementPath (a_elementPath a);
        a_url := orKeepOpt url (a_url a);
        a_boundingBox := orKeepOpt box (a_boundingBox a);
        a_intent := orKeepOpt intent (a_intent a);
        a_severity := orKeepOpt severity (a_severity a);
        a_status := status;
        a_resolvedBy :=
          if settled status
          then Some (orKeep (orKeepOpt resolver (a_resolvedBy a)) Human)
          else None;
        a_resolvedAt :=
          if settled status
          then Some (if status_eqb status (a_status a)
                     then orKeep (a_resolvedAt a) t else t)
          else None;
        a_createdAt := a_createdAt a; a_updatedAt := t;
        a_context := mergeContext (a_context a) (contextOf o);
        a_thread := a_thread a |}.

(** Modelled from the spec: [updateAnnotation] of [./store.js]
    ("updateAnnotation(id, patch) -> Annotation | NotFound"). *)
Definition updateAnnotation (id : jsstring) (body : json) (env : Env)
           (w : World) : Result (option Annotation * World) :=
  match getAnnotation id w with
  | None => Ok (None, w)
  | Some a =>
      match body with
      | JObj o =>
          let! a' := applyPatch a o (now env) in
          let w1 := setStore (sessions w) (put a_id a' (annotations w)) w in
          Ok (Some a',
              EventBus.emit AnnotationUpdated (a_sessionId a')
                            (OfAnnotation a') (now env) w1)
      | _ => invalid "body"
      end
  end.

(** Modelled from the spec: [deleteAnnotation] of [./store.js]
    ("cascades thread messages; returns the pre-delete snapshot"; the
    event of a delete carries the pre-delete snapshot). *)
Definition deleteAnnotation (id : jsstring) (env : Env) (w : World)
  : option Annotation * World :=
  match getAnnotation id w with
  | None => (None, w)
  | Some a =>
      let w1 := setStore (sessions w) (remove a_id id (annotations w)) w in
      (Some a,
       EventBus.emit AnnotationDeleted (a_sessionId a) (OfAnnotation a)
                     (now env) w1)
  end.

(** Modelled from the spec: [addThreadMessage] of [./store.js] ("appends
    to the annotation's thread, bumps the annotation's update timestamp,
    returns the whole annotation"). *)
Definition addThreadMessage (id : jsstring) (role content : option json)
           (env : Env) (w : World) : Result (option Annotation * World) :=
  match getAnnotation id w with
  | None => Ok (None, w)
  | Some a =>
      let o := prop "role" role ++ prop "content" content in
      let! r := optEnum roleOfName "role" o in
      let! text := reqString "content" o in
      match r with
      | None => invalid "role"
      | Some r =>
          let m := {| m_id := newId env; m_annotationId := id;
                      m_role := r; m_content := text;
                      m_timestamp := now env |} in
          let a' := {| a_id := a_id a; a_sessionId := a_sessionId a;
                       a_comment := a_comment a; a_element := a_element a;
                       a_elementPath := a_elementPath a; a_url := a_url a;
                       a_boundingBox := a_boundingBox a;
                       a_intent := a_intent a; a_severity := a_severity a;
                       a_status := a_status a;
                       a_resolvedBy := a_resolvedBy a;
                       a_resolvedAt := a_resolvedAt a;
                       a_createdAt := a_createdAt a;
                       a_updatedAt := now env;
                       a_context := a_context a;
                       a_thread := a_thread a ++ [m] |} in
          let w1 := setStore (sessions w) (put a_id a' (annotations w)) w in
          Ok (Some a',
              EventBus.emit ThreadMessageAdded (a_sessionId a')
                            (OfMessage m) (now env) w1)
      end
  end.

End Mutations.
End Store.

(* ------------------------------------------------------------------------- *)
(** ** The HTTP server ([src/server/http.ts])                                *)
(* ------------------------------------------------------------------------- *)

Module Http.
Import Js Json Model StoreRead.

(** The body of a request as [parseBody] meets it: nothing, a text that
    [JSON.parse] rejects, or a text that parses to [j]. *)
Inductive BodyInput :=
| NoBody
| Unparsable
| Parsed (j : json).

(** A request after [new URL(req.url, base)]: the path and the query
    parameters of the target, the headers (names in lower case, as Node
    gives them) and the body. *)
Record Request := {
  method : jsstring;
  pathname : jsstring;
  query : list (jsstring * jsstring);
  headers : list (jsstring * jsstring);
  body : BodyInput
}.

(** The first value bound to [k]; [None] is [null] or [undefined]. *)
Fixpoint lookup (k : jsstring) (l : list (jsstring * jsstring))
  : option jsstring :=
  match l with
  | [] => None
  | (k', v) :: r => if eqb k' k then Some v else lookup k r
  end.

(** [url.searchParams.get("domain")]. *)
Definition domain (req : Request) : option jsstring :=
  lookup (str "domain") (query req).

(** [req.headers["last-event-id"]]. *)
Definition lastEventId (req : Request) : option jsstring :=
  lookup (str "last-event-id") (headers req).

Inductive Response :=
| Json (status : Z) (data : json)   (* sendJson: writeHead, end *)
| Preflight                         (* handleCors: 204, no body *)
| EventStream.                      (* writeHead 200, left open *)

Definition statusOf (r : Response) : Z :=
  match r with
  | Json status _ => status
  | Preflight => 204
  | EventStream => 200
  end.

Definition parseBody (req : Request) : Result json :=
  match body req with
  | NoBody => Ok (JObj [])
  | Unparsable => Throw (str "Invalid JSON")
  | Parsed j => Ok j
  end.

Definition sendJson (status : Z) (data : json) : Response := Json status data.

Definition sendError (status : Z) (message : jsstring) : Response :=
  sendJson status (JObj [(str "error", JStr message)]).

Definition handleCors : Response := Preflight.

Definition pendingJson (l : list Annotation) : json :=
  JObj [(str "count", JNum (Z.of_nat (List.length l)));
        (str "annotations", JArr (map annotationJson l))].

Definition sessionDetailJson (d : Session * list Annotation) : json :=
  match sessionJson (fst d) with
  | JObj o => JObj (o ++ [(str "annotations", JArr (map annotationJson (snd d)))])
  | j => j
  end.

Definition trackConnection (c : ConnId) (w : World) : World :=
  EventBus.setSubscribers (subscribers w) (sseConnections w ++ [c]) w.

Definition forgetConnection (c : ConnId) (w : World) : World :=
  EventBus.setSubscribers (subscribers w)
    (filter (fun c' => negb (Nat.eqb c' c)) (sseConnections w)) w.

Section Handlers.
Context {P : Platform}.
Local Open Scope result_scope.

(** Reading property [k] of a parsed body. *)
Definition get (b : json) (k : string) : Result (option json) :=
  match b with
  | JNull => Throw (typeErrorMessage (str k))
  | JObj o => Ok (field (str k) o)
  | _ => Ok None
  end.

(** [try { ... } catch (err) { sendError(res, 400, err.message) }]. *)
Definition catch400 (w : World) (r : Result (Response * World))
  : Response * World :=
  match r with
  | Ok x => x
  | Throw m => (sendError 400 m, w)
  end.

(** POST /sessions *)
Definition createSessionHandler (env : Env) (req : Request) (w : World)
  : Response * World :=
  catch400 w
    (let! b := parseBody req in
     let! url := get b "url" in
     if negb (truthy url) then Ok (sendError 400 (str "url is required"), w)
     else
       let! projectId := get b "projectId" in
       let! (session, w') := Store.createSession url projectId env w in
       Ok (sendJson 201 (sessionJson session), w')).

(** GET /sessions *)
Definition listSessionsHandler (w : World) : Response * World :=
  (sendJson 200 (JArr (map sessionJson (listSessions w))), w).

(** GET /sessions/:id *)
Definition getSessionHandler (id : jsstring) (w : World)
  : Response * World :=
  match getSessionWithAnnotations id w with
  | None => (sendError 404 (str "Session not found"), w)
  | Some session => (sendJson 200 (sessionDetailJson session), w)
  end.

(** POST /sessions/:id/annotations *)
Definition addAnnotationHandler (id : jsstring) (env : Env) (req : Request)
           (w : World) : Response * World :=
  catch400 w
    (let! b := parseBody req in
     let! comment := get b "comment" in
     let! element := get b "element" in
     let! elementPath := get b "elementPath" in
     if negb (truthy comment) || negb (truthy element)
        || negb (truthy elementPath)
     then Ok (sendError 400
                (str "comment, element, and elementPath are required"), w)
     else
       let! (annotation, w') := Store.addAnnotation id b env w in
       match annotation with
       | None => Ok (sendError 404 (str "Session not found"), w')
       | Some a => Ok (sendJson 201 (annotationJson a), w')
       end).

(** PATCH /annotations/:id *)
Definition updateAnnotationHandler (id : jsstring) (env : Env)
           (req : Request) (w : World) : Response * World :=
  catch400 w
    (let! b := parseBody req in
     match getAnnotation id w with
     | None => Ok (sendError 404 (str "Annotation not found"), w)
     | Some _ =>
         let! (annotation, w') := Store.updateAnnotation id b env w in
         Ok (sendJson 200 (match annotation with
                           | Some a => annotationJson a
                           | None => JNull
                           end), w')
     end).

(** GET /annotations/:id *)
Definition getAnnotationHandler (id : jsstring) (w : World)
  : Response * World :=
  match getAnnotation id w with
  | None => (sendError 404 (str "Annotation not found"), w)
  | Some a => (sendJson 200 (annotationJson a), w)
  end.

(** DELETE /annotations/:id *)
Definition deleteAnnotationHandler (id : jsstring) (env : Env) (w : World)
  : Response * World :=
  match Store.deleteAnnotation id env w with
  | (None, w') => (sendError 404 (str "Annotation not found"), w')
  | (Some _, w') =>
      (sendJson 200 (JObj [(str "deleted", JBool true);
                           (str "annotationId", JStr id)]), w')
  end.

(** GET /sessions/:id/pending *)
Definition getPendingHandler (id : jsstring) (w : World)
  : Response * World :=
  (sendJson 200 (pendingJson (getPendingAnnotations id w)), w).

(** GET /pending *)
Definition getAllPendingHandler (w : World) : Response * World :=
  let allPending :=
    flat_map (fun session => getPendingAnnotations (s_id session) w)
             (listSessions w) in
  (sendJson 200 (pendingJson allPending), w).

(** POST /annotations/:id/thread *)
Definition addThreadHandler (id : jsstring) (env : Env) (req : Request)
           (w : World) : Response * World :=
  catch400 w
    (let! b := parseBody req in
     let! role := get b "role" in
     let! content := get b "content" in
     if negb (truthy role) || negb (truthy content)
     then Ok (sendError 400 (str "role and content are required"), w)
     else
       let! (annotation, w') := Store.addThreadMessage id role content env w in
       match annotation with
       | None => Ok (sendError 404 (str "Annotation not found"), w')
       | Some a => Ok (sendJson 201 (annotationJson a), w')
       end).

Fixpoint sendAll (c : ConnId) (events : list SAFEvent) (w : World) : World :=
  match events with
  | [] => w
  | e :: rest => sendAll c rest (Sse.sendSSEEvent c e w)
  end.

(** The replay step of [sseHandler]: a truthy header whose [parseInt] is
    a number replays the missed events. *)
Definition replay (c : ConnId) (sessionId : jsstring) (req : Request)
           (w : World) : World :=
  match lastEventId req with
  | Some h =>
      if Js.truthy h then
        match parseInt h with
        | Some lastSequence =>
            sendAll c (getEventsSince sessionId lastSequence None w) w
        | None => w
        end
      else w
  | None => w
  end.

(** GET /sessions/:id/events *)
Definition sseHandler (c : ConnId) (sessionId : jsstring) (req : Request)
           (w : World) : Response * World :=
  match getSessionWithAnnotations sessionId w with
  | None => (sendError 404 (str "Session not found"), w)
  | Some _ =>
      let w1 := trackConnection c w in
      let w2 := Sse.write c (Comment (str "connected")) w1 in
      let w3 := replay c sessionId req w2 in
      (EventStream, EventBus.subscribe (Some sessionId) (ToSession c) w3)
  end.

(** GET /events?domain=... *)
Definition globalSseHandler (c : ConnId) (req : Request) (w : World)
  : Response * World :=
  match domain req with
  | Some d =>
      if Js.truthy d then
        let w1 := trackConnection c w in
        let w2 := Sse.write c (Comment (str "connected to domain " ++ d)) w1 in
        (EventStream, EventBus.subscribe None (ToDomain c d) w2)
      else (sendError 400 (str "domain query parameter required"), w)
  | None => (sendError 400 (str "domain query parameter required"), w)
  end.

End Handlers.
End Http.

Module Router.
Import Js Json Model StoreRead Http.

Inductive Handler :=
| GlobalSse | GetAllPending | ListSessions | CreateSession | GetSession
| SessionSse | GetPending | AddAnnotation | UpdateAnnotation
| GetAnnotation | DeleteAnnotation | AddThread.

(** One piece of a route pattern between two slashes: a literal, or the
    group [([^/]+)]. *)
Inductive Piece :=
| Lit (s : string)
| Capture.

(** A route; [pattern] lists the pieces that follow the leading slash of
    the anchored regular expression. *)
Record Route := {
  r_method : jsstring;
  r_pattern : list Piece;
  r_handler : Handler;
  r_paramNames : list jsstring
}.

Definition route (m : string) (p : list Piece) (h : Handler)
           (names : list string) : Route :=
  {| r_method := str m; r_pattern := p; r_handler := h;
     r_paramNames := map str names |}.

Definition routes : list Route :=
  [ route "GET" [Lit "events"] GlobalSse [];
    route "GET" [Lit "pending"] GetAllPending [];
    route "GET" [Lit "sessions"] ListSessions [];
    route "POST" [Lit "sessions"] CreateSession [];
    route "GET" [Lit "sessions"; Capture] GetSession ["id"%string];
    route "GET" [Lit "sessions"; Capture; Lit "events"] SessionSse
          ["id"%string];
    route "GET" [Lit "sessions"; Capture; Lit "pending"] GetPending
          ["id"%string];
    route "POST" [Lit "sessions"; Capture; Lit "annotations"] AddAnnotation
          ["id"%string];
    route "PATCH" [Lit "annotations"; Capture] UpdateAnnotation ["id"%string];
    route "GET" [Lit "annotations"; Capture] GetAnnotation ["id"%string];
    route "DELETE" [Lit "annotations"; Capture] DeleteAnnotation
          ["id"%string];
    route "POST" [Lit "annotations"; Capture; Lit "thread"] AddThread
          ["id"%string] ].

(** Matching the pieces against the segments of a path; the result lists
    the captured groups. *)
Fixpoint matchPieces (p : list Piece) (segs : list jsstring)
  : option (list jsstring) :=
  match p, segs with
  | [], [] => Some []
  | Lit s :: p', seg :: segs' =>
      if eqb seg (str s) then matchPieces p' segs' else None
  | Capture :: p', seg :: segs' =>
      if Js.truthy seg
      then option_map (cons seg) (matchPieces p' segs')
      else None
  | _, _ => None
  end.

(** [pathname.match(route.pattern)]. *)
Definition matchPattern (p : list Piece) (path : jsstring)
  : option (list jsstring) :=
  match splitSlash [] path with
  | [] :: segs => matchPieces p segs
  | _ => None
  end.

Definition Params := list (jsstring * jsstring).

Fixpoint matchIn (rs : list Route) (m path : jsstring)
  : option (Handler * Params) :=
  match rs with
  | [] => None
  | r :: rest =>
      if negb (eqb (r_method r) m) then matchIn rest m path
      else
        match matchPattern (r_pattern r) path with
        | Some groups => Some (r_handler r, combine (r_paramNames r) groups)
        | None => matchIn rest m path
        end
  end.

Definition matchRoute (m path : jsstring) : option (Handler * Params) :=
  matchIn routes m path.

(** [params.id]. *)
Definition paramId (params : Params) : jsstring :=
  match find (fun kv => eqb (fst kv) (str "id")) params with
  | Some kv => snd kv
  | None => []
  end.

Section Server.
Context {P : Platform}.

(** [await match.handler(req, res, match.params)]: what the handler does, or
    the error it lets escape.  The handlers of the model catch what the store
    raises, or call store operations that raise nothing, so none escapes. *)
Definition runHandler (h : Handler) (c : ConnId) (env : Env)
           (req : Request) (params : Params) (w : World)
  : Result (Response * World) :=
  Ok match h with
     | GlobalSse => globalSseHandler c req w
     | GetAllPending => getAllPendingHandler w
     | ListSessions => listSessionsHandler w
     | CreateSession => createSessionHandler env req w
     | GetSession => getSessionHandler (paramId params) w
     | SessionSse => sseHandler c (paramId params) req w
     | GetPending => getPendingHandler (paramId params) w
     | AddAnnotation => addAnnotationHandler (paramId params) env req w
     | UpdateAnnotation => updateAnnotationHandler (paramId params) env req w
     | GetAnnotation => getAnnotationHandler (paramId params) w
     | DeleteAnnotation => deleteAnnotationHandler (paramId params) env w
     | AddThread => addThreadHandler (paramId params) env req w
     end.

(** The request listener of [startHttpServer]. *)
Definition handleRequest (c : ConnId) (env : Env) (req : Request)
           (w : World) : Response * World :=
  let m := if Js.truthy (method req) then method req else str "GET" in
  if eqb m (str "OPTIONS") then (handleCors, w)
  else if eqb (pathname req) (str "/health") && eqb m (str "GET")
  then (sendJson 200 (JObj [(str "status", JStr (str "ok"))]), w)
  else
    match matchRoute m (pathname req) with
    | None => (sendError 404 (str "Not found"), w)
    | Some (h, params) =>
        match runHandler h c env req params w with
        | Ok done => done
        | Throw _ => (sendError 500 (str "Internal server error"), w)
        end
    end.

Record Server := {
  listenPort : Z;
  listener : ConnId -> Env -> Request -> World -> Response * World
}.

(** [startHttpServer(port)]: the function declares the port and nothing
    else. *)
Definition startHttpServer (port : Z) : Server :=
  {| listenPort := port; listener := handleRequest |}.

(** What Node hands to the listener.  The listener's first statement,
    [new URL(req.url || "/", ...)], stands outside its [try]: for a target
    the constructor rejects ([//] is one) the listener throws before it
    writes anything, and the request gets no answer. *)
Inductive Arrival :=
| BadTarget                  (* [new URL] throws *)
| Arrived (req : Request).   (* the target parsed; [req] is what is read *)

Inductive Served :=
| NoAnswer                   (* the listener threw; nothing was written *)
| Answered (r : Response).

(** The listener of [srv] from its first statement on. *)
Definition serve (srv : Server) (c : ConnId) (env : Env) (a : Arrival)
           (w : World) : Served * World :=
  match a with
  | BadTarget => (NoAnswer, w)
  | Arrived req => (Answered (fst (listener srv c env req w)),
                    snd (listener srv c env req w))
  end.

(** What happens to the process, one turn of the event loop at a time. *)
Inductive Action :=
| Incoming (c : ConnId) (env : Env) (req : Request)
| KeepAlive (c : ConnId)       (* the 30 s timer of an open stream *)
| Disconnect (c : ConnId)      (* "close" on the request *)
| Retention (cutoff : Z).      (* the sweeper of the event log *)

Definition isOpen (c : ConnId) (w : World) : bool :=
  existsb (Nat.eqb c) (sseConnections w).

Definition step (a : Action) (w : World) : World :=
  match a with
  | Incoming c env req => snd (handleRequest c env req w)
  | KeepAlive c =>
      if isOpen c w then Sse.write c (Comment (str "ping")) w else w
  | Disconnect c =>
      if isOpen c w
      then forgetConnection c (EventBus.unsubscribe c w)
      else w
  | Retention cutoff => EventBus.sweep cutoff w
  end.

Fixpoint run (acts : list Action) (w : World) : World :=
  match acts with
  | [] => w
  | a :: rest => run rest (step a w)
  end.

End Server.

(** The event frames written to response [c], oldest first. *)
Definition framesOf (c : ConnId) (w : World) : list SAFEvent :=
  flat_map (fun ck => match ck with
                      | (c', Frame e) => if Nat.eqb c' c then [e] else []
                      | _ => []
                      end) (wire w).

End Router.

(* ------------------------------------------------------------------------- *)
(** ** The tool dispatcher ([src/server/mcp.ts])                             *)
(* ------------------------------------------------------------------------- *)

Module Mcp.
Import Js Json Model.

(** *** The HTTP client *)

Record HttpCall := {
  c_method : jsstring;
  c_path : jsstring;
  c_body : option json
}.

(** What [fetch] resolves to: a response with a JSON body, a response
    without a body, or a response whose body never ends. *)
Inductive HttpReply :=
| Replied (status : Z) (data : json)
| RepliedEmpty (status : Z)
| Streaming.

(** Completion of an asynchronous computation. *)
Inductive Outcome (A : Type) : Type :=
| Returned (a : A)
| Threw (msg : jsstring)
| Hung.
Arguments Returned {A} a.
Arguments Threw {A} msg.
Arguments Hung {A}.

Record ToolResult := {
  text : jsstring;
  isError : bool
}.

Record Tool := {
  t_name : jsstring;
  t_properties : list jsstring;
  t_required : list jsstring
}.

Definition tool (name : string) (props required : list string) : Tool :=
  {| t_name := str name; t_properties := map str props;
     t_required := map str required |}.

Definition TOOLS : list Tool :=
  [ tool "agentation_list_sessions" [] [];
    tool "agentation_get_session" ["sessionId"] ["sessionId"];
    tool "agentation_get_pending" ["sessionId"] ["sessionId"];
    tool "agentation_get_all_pending" [] [];
    tool "agentation_acknowledge" ["annotationId"] ["annotationId"];
    tool "agentation_resolve" ["annotationId"; "summary"] ["annotationId"];
    tool "agentation_dismiss" ["annotationId"; "reason"]
         ["annotationId"; "reason"];
    tool "agentation_reply" ["annotationId"; "message"]
         ["annotationId"; "message"] ]%string.

Definition isOk (status : Z) : bool := (200 <=? status) && (status <=? 299).

Section Dispatcher.
Context {P : Platform}.

(** The HTTP surface the dispatcher talks to: any state [B] and any
    function answering one call. *)
Variable B : Type.
Variable fetch : HttpCall -> B -> HttpReply * B.

Definition M (A : Type) : Type := B -> Outcome A * B.

Definition ret {A} (a : A) : M A := fun b => (Returned a, b).
Definition throw {A} (msg : jsstring) : M A := fun b => (Threw msg, b).

Definition bind {A C} (m : M A) (k : A -> M C) : M C :=
  fun b =>
    match m b with
    | (Returned a, b') => k a b'
    | (Threw msg, b') => (Threw msg, b')
    | (Hung, b') => (Hung, b')
    end.

Definition catch {A} (m : M A) (h : jsstring -> M A) : M A :=
  fun b =>
    match m b with
    | (Threw msg, b') => h msg b'
    | r => r
    end.

Definition lift {A} (r : Result A) : M A :=
  match r with
  | Ok a => ret a
  | Throw msg => throw msg
  end.

Notation "'await' x ':=' m 'in' k" := (bind m (fun x => k))
  (at level 10, x pattern, m at level 100, k at level 200).

(** [`HTTP ${res.status}: ${body}`]. *)
Definition httpError (status : Z) (bodyText : jsstring) : jsstring :=
  str "HTTP " ++ ofInt status ++ str ": " ++ bodyText.

(** The common body of [httpGet], [httpPatch] and [httpPost]. *)
Definition request (call : HttpCall) : M json :=
  fun b =>
    match fetch call b with
    | (Replied status data, b') =>
        if isOk status then (Returned data, b')
        else (Threw (httpError status (stringify data)), b')
    | (RepliedEmpty status, b') =>
        if isOk status
        then (Threw (str "Unexpected end of JSON input"), b')
        else (Threw (httpError status []), b')
    | (Streaming, b') => (Hung, b')
    end.

Definition httpGet (path : jsstring) : M json :=
  request {| c_method := str "GET"; c_path := path; c_body := None |}.

Definition httpPatch (path : jsstring) (body : json) : M json :=
  request {| c_method := str "PATCH"; c_path := path; c_body := Some body |}.

Definition httpPost (path : jsstring) (body : json) : M json :=
  request {| c_method := str "POST"; c_path := path; c_body := Some body |}.

(** *** Tool schemas *)

(** [z.object({...}).parse(args)] for string properties: [required] must
    be strings, [optional] may be absent. *)
Definition schemaString (args : option json) (k : string) : Result jsstring :=
  match args with
  | Some (JObj o) =>
      match field (str k) o with
      | Some (JStr s) => Ok s
      | _ => Throw (zodMessage args)
      end
  | _ => Throw (zodMessage args)
  end.

Definition schemaOptString (args : option json) (k : string)
  : Result (option jsstring) :=
  match args with
  | Some (JObj o) =>
      match field (str k) o with
      | None => Ok None
      | Some (JStr s) => Ok (Some s)
      | Some _ => Throw (zodMessage args)
      end
  | _ => Throw (zodMessage args)
  end.

(** *** Results *)

Definition success (data : json) : ToolResult :=
  {| text := stringifyPretty data; isError := false |}.

Definition error (message : jsstring) : ToolResult :=
  {| text := message; isError := true |}.

(** An object literal built from properties of [j]; a property that [j]
    lacks is [undefined] and is left out of the text. *)
Definition pick (names : list string) (j : json) : Result json :=
  match j with
  | JObj o => Ok (JObj (flat_map (fun k => prop k (field (str k) o)) names))
  | JNull => Throw (typeErrorMessage (str (hd ""%string names)))
  | _ => Ok (JObj [])
  end.

Fixpoint traverse (f : json -> Result json) (l : list json)
  : Result (list json) :=
  match l with
  | [] => Ok []
  | x :: r =>
      rbind (f x) (fun y => rbind (traverse f r) (fun ys => Ok (y :: ys)))
  end.

(** [value.map(f)] on what should be an array. *)
Definition mapArray (f : json -> Result json) (value : option json)
  : Result json :=
  match value with
  | Some (JArr l) => rbind (traverse f l) (fun ys => Ok (JArr ys))
  | _ => Throw (typeErrorMessage (str "map"))
  end.

Definition annotationSummary : json -> Result json :=
  pick ["id"; "comment"; "element"; "elementPath"; "url"; "intent";
        "severity"; "timestamp"; "nearbyText"; "reactComponents"]%string.

(** The success value of the two pending tools. *)
Definition pendingResult (response : json) : Result ToolResult :=
  match response with
  | JObj o =>
      rbind (mapArray annotationSummary (field (str "annotations") o))
            (fun l => Ok (success (JObj (prop "count" (field (str "count") o)
                                         ++ [(str "annotations", l)]))))
  | JNull => Throw (typeErrorMessage (str "count"))
  | _ => Throw (typeErrorMessage (str "map"))
  end.

(** [if ((err as Error).message.includes("404")) return error(...);
    throw err]. *)
Definition notFoundOr (kind : string) (id : jsstring) (msg : jsstring)
  : M ToolResult :=
  if includes (str "404") msg
  then ret (error (str kind ++ str " not found: " ++ id))
  else throw msg.

Definition annotationPath (id : jsstring) : jsstring :=
  str "/annotations/" ++ id.

Definition threadPath (id : jsstring) : jsstring :=
  str "/annotations/" ++ id ++ str "/thread".

Definition agentMessage (content : jsstring) : json :=
  JObj [(str "role", JStr (str "agent")); (str "content", JStr content)].

Definition statusPatch (status : string) : json :=
  JObj [(str "status", JStr (str status));
        (str "resolvedBy", JStr (str "agent"))].

Definition named (name : jsstring) (s : string) : bool := eqb name (str s).

Definition handleTool (name : jsstring) (args : option json) : M ToolResult :=
  if named name "agentation_list_sessions" then
    await sessions := httpGet (str "/sessions") in
    await l := lift (mapArray (pick ["id"; "url"; "status"; "createdAt"]%string)
                              (Some sessions)) in
    ret (success (JObj [(str "sessions", l)]))
  else if named name "agentation_get_session" then
    await sessionId := lift (schemaString args "sessionId") in
    catch (await session := httpGet (str "/sessions/" ++ sessionId) in
           ret (success session))
          (notFoundOr "Session" sessionId)
  else if named name "agentation_get_pending" then
    await sessionId := lift (schemaString args "sessionId") in
    await response := httpGet (str "/sessions/" ++ sessionId
                               ++ str "/pending") in
    lift (pendingResult response)
  else if named name "agentation_get_all_pending" then
    await response := httpGet (str "/pending") in
    lift (pendingResult response)
  else if named name "agentation_acknowledge" then
    await annotationId := lift (schemaString args "annotationId") in
    catch (await _ := httpPatch (annotationPath annotationId)
                        (JObj [(str "status", JStr (str "acknowledged"))]) in
           ret (success (JObj [(str "acknowledged", JBool true);
                               (str "annotationId", JStr annotationId)])))
          (notFoundOr "Annotation" annotationId)
  else if named name "agentation_resolve" then
    await annotationId := lift (schemaString args "annotationId") in
    await summary := lift (schemaOptString args "summary") in
    catch (await _ := httpPatch (annotationPath annotationId)
                        (statusPatch "resolved") in
           await _ :=
             match summary with
             | Some s =>
                 if Js.truthy s
                 then httpPost (threadPath annotationId)
                        (agentMessage (str "Resolved: " ++ s))
                 else ret JNull
             | None => ret JNull
             end in
           ret (success (JObj ([(str "resolved", JBool true);
                                (str "annotationId", JStr annotationId)]
                               ++ prop "summary" (optStr summary)))))
          (notFoundOr "Annotation" annotationId)
  else if named name "agentation_dismiss" then
    await annotationId := lift (schemaString args "annotationId") in
    await reason := lift (schemaString args "reason") in
    catch (await _ := httpPatch (annotationPath annotationId)
                        (statusPatch "dismissed") in
           await _ := httpPost (threadPath annotationId)
                        (agentMessage (str "Dismissed: " ++ reason)) in
           ret (success (JObj [(str "dismissed", JBool true);
                               (str "annotationId", JStr annotationId);
                               (str "reason", JStr reason)])))
          (notFoundOr "Annotation" annotationId)
  else if named name "agentation_reply" then
    await annotationId := lift (schemaString args "annotationId") in
    await message := lift (schemaString args "message") in
    catch (await _ := httpPost (threadPath annotationId)
                        (agentMessage message) in
           ret (success (JObj [(str "replied", JBool true);
                               (str "annotationId", JStr annotationId);
                               (str "message", JStr message)])))
          (notFoundOr "Annotation" annotationId)
  else ret (error (str "Unknown tool: " ++ name)).

(** The handler of [CallToolRequestSchema]: a raised error becomes an
    error result. *)
Definition callTool (name : jsstring) (args : option json) : M ToolResult :=
  catch (handleTool name args) (fun message => ret (error message)).

(** The handler of [ListToolsRequestSchema]. *)
Definition listTools : list Tool := TOOLS.

End Dispatcher.
End Mcp.

(* ------------------------------------------------------------------------- *)
(** ** The dispatcher in front of the HTTP server                            *)
(* ------------------------------------------------------------------------- *)

Module Broker.
Import Js Json Model Http Router Mcp.

Section Loopback.
Context {P : Platform}.

(** The connection and the clock/id readings the server gives to the next
    request, as a function of the state it arrives in. *)
Variable supply : World -> ConnId * Env.

(** The request the server sees for a call of the dispatcher: [fetch]
    sends the JSON text of the body with its content type. *)
Definition toRequest (call : HttpCall) : Request :=
  {| method := c_method call;
     pathname := urlPathname (c_path call);
     query := urlQuery (c_path call);
     headers := match c_body call with
                | Some _ => [(str "content-type", str "application/json")]
                | None => []
                end;
     body := match c_body call with
             | Some j => Parsed j
             | None => NoBody
             end |}.

Definition toReply (r : Response) : HttpReply :=
  match r with
  | Json status data => Replied status data
  | Preflight => RepliedEmpty 204
  | EventStream => Streaming
  end.

(** [fetch] against the co-hosted server. *)
Definition loopback (call : HttpCall) (w : World) : HttpReply * World :=
  let '(c, env) := supply w in
  let '(r, w') := handleRequest c env (toRequest call) w in
  (toReply r, w').

Definition callTool (name : jsstring) (args : option json)
  : World -> Outcome ToolResult * World :=
  Mcp.callTool loopback name args.

End Loopback.
End Broker.

(* ------------------------------------------------------------------------- *)
(** ** The command line ([src/cli.ts])                                       *)
(* ------------------------------------------------------------------------- *)

Module Cli.
Import Js Json.

Definition DEFAULT_PORT : Z := 4747.

Definition parsePortInput (input : jsstring) : Z :=
  let trimmed := trim input in
  match parseInt trimmed with
  | Some parsed =>
      if negb (Js.truthy trimmed) || (parsed <? 1) || (65535 <? parsed)
      then DEFAULT_PORT
      else parsed
  | None => DEFAULT_PORT
  end.

(** [args[i] === "--port" && typeof args[i + 1] === "string"], then the
    parse and the range test; [Some parsed] when the loop returns at [i]. *)
Definition portAt (args : list json) (i : nat) : option Z :=
  match nth_error args i, nth_error args (i + 1) with
  | Some (JStr flag), Some (JStr value) =>
      if eqb flag (str "--port") then
        match parseInt value with
        | Some parsed =>
            if (0 <? parsed) && (parsed <? 65536) then Some parsed else None
        | None => None
        end
      else None
  | _, _ => None
  end.

(** The [for] loop from index [i], with [n] iterations left. *)
Fixpoint portLoop (args : list json) (i n : nat) : Z :=
  match n with
  | O => DEFAULT_PORT
  | S n' =>
      match portAt args i with
      | Some parsed => parsed
      | None => portLoop args (S i) n'
      end
  end.

(** [args] is [unknown]: [None] is [undefined]. *)
Definition parsePortFromArgArray (args : option json) : Z :=
  match args with
  | Some (JArr l) => portLoop l 0 (List.length l)
  | _ => DEFAULT_PORT
  end.

(** *** The [server] command *)

Record Options := {
  port : Z;
  mcpOnly : bool;
  httpUrl : jsstring;
  apiKeyArg : option jsstring
}.

Definition argIs (args : list jsstring) (i : nat) (flag : string) : bool :=
  match nth_error args i with
  | Some a => eqb a (str flag)
  | None => false
  end.

(** [args[i + 1]] when it is truthy. *)
Definition valueAfter (args : list jsstring) (i : nat) : option jsstring :=
  match nth_error args (i + 1) with
  | Some v => if Js.truthy v then Some v else None
  | None => None
  end.

(** One turn of the option loop at index [i]; the result is the index the
    turn ends with (before the loop's own [i++]) and the options. *)
Definition optionTurn (args : list jsstring) (i : nat) (o : Options)
  : nat * Options :=
  let '(i, o) :=
    match argIs args i "--port", valueAfter args i with
    | true, Some v =>
        (S i,
         match parseInt v with
         | Some parsed =>
             if (0 <? parsed) && (parsed <? 65536) then
               {| port := parsed; mcpOnly := mcpOnly o;
                  httpUrl :=
                    if existsb (fun a => eqb a (str "--http-url")) args
                    then httpUrl o
                    else str "http://localhost:" ++ ofInt parsed;
                  apiKeyArg := apiKeyArg o |}
             else o
         | None => o
         end)
    | _, _ => (i, o)
    end in
  let o :=
    if argIs args i "--mcp-only"
    then {| port := port o; mcpOnly := true; httpUrl := httpUrl o;
            apiKeyArg := apiKeyArg o |}
    else o in
  let '(i, o) :=
    match argIs args i "--http-url", valueAfter args i with
    | true, Some v =>
        (S i, {| port := port o; mcpOnly := mcpOnly o; httpUrl := v;
                 apiKeyArg := apiKeyArg o |})
    | _, _ => (i, o)
    end in
  match argIs args i "--api-key", valueAfter args i with
  | true, Some v =>
      (S i, {| port := port o; mcpOnly := mcpOnly o; httpUrl := httpUrl o;
               apiKeyArg := Some v |})
  | _, _ => (i, o)
  end.

Fixpoint optionLoop (args : list jsstring) (i n : nat) (o : Options)
  : Options :=
  match n with
  | O => o
  | S n' =>
      if (i <? List.length args)%nat then
        let '(i', o') := optionTurn args i o in
        optionLoop args (S i') n' o'
      else o
  end.

Definition parseOptions (args : list jsstring) : Options :=
  optionLoop args 0 (List.length args)
    {| port := 4747; mcpOnly := false;
       httpUrl := str "http://localhost:4747"; apiKeyArg := None |}.

(** [apiKeyArg || process.env.AGENTATION_API_KEY], kept when truthy. *)
Definition apiKeyOf (o : Options) (envKey : option jsstring)
  : option jsstring :=
  match apiKeyArg o with
  | Some k => Some k
  | None =>
      match envKey with
      | Some k => if Js.truthy k then Some k else None
      | None => None
      end
  end.

(** What the command starts. *)
Record Started {P : Platform} := {
  (** the argument of [setApiKey] of [./server/index.js], when called *)
  storageKey : option jsstring;
  (** the server [startHttpServer] returns, unless [--mcp-only] *)
  http : option Router.Server;
  (** the argument of [startMcpServer] *)
  mcpBaseUrl : jsstring
}.

(** The [server] branch of the command router.  [startHttpServer] is
    called with the port and the key; the function declares the port
    alone, so the call passes the port on. *)
Definition serverCommand {P : Platform} (args : list jsstring)
           (envKey : option jsstring) : Started :=
  let o := parseOptions args in
  let apiKey := apiKeyOf o envKey in
  {| storageKey := apiKey;
     http := if mcpOnly o then None
             else Some (Router.startHttpServer (port o));
     mcpBaseUrl := httpUrl o |}.

End Cli.

(* ------------------------------------------------------------------------- *)
(** ** Vocabulary of the properties                                          *)
(* ------------------------------------------------------------------------- *)

Module Spec.
Import Js Json Model.

(** An input from which [parsePortInput] gets no port: empty once trimmed,
    without a number for [parseInt], or with a number out of range. *)
Definition Unusable (trimmed : jsstring) : Prop :=
  trimmed = []
  \/ parseInt trimmed = None
  \/ exists p, parseInt trimmed = Some p /\ (p < 1 \/ 65535 < p).

(** Element [i] of the array is the string ["--port"] and element [i + 1]
    is a string that parses to the integer [p] of [1, 65535]. *)
Definition PortFlagAt (l : list json) (i : nat) (p : Z) : Prop :=
  nth_error l i = Some (JStr (str "--port"))
  /\ exists v, nth_error l (S i) = Some (JStr v)
               /\ parseInt v = Some p /\ 1 <= p <= 65535.

(** An id that fills one path segment: not empty, no slash. *)
Definition isSegment (id : jsstring) : bool :=
  Js.truthy id && forallb (fun c => negb (c =? 47)%N) id.

Import Http Router.

Definition delete (path : jsstring) : Request :=
  {| method := str "DELETE"; pathname := path; query := [];
     headers := []; body := NoBody |}.

(** The two requests agree on everything the server reads: method, path,
    body, the [domain] parameter and the [Last-Event-ID] header.  They may
    differ in every other header and query parameter. *)
Definition sameButCredentials (req req' : Request) : Prop :=
  method req = method req' /\ pathname req = pathname req'
  /\ body req = body req' /\ domain req = domain req'
  /\ lastEventId req = lastEventId req'.

Definition errorBody (message : string) : json :=
  JObj [(str "error", JStr (str message))].

(** The subscriptions whose callback writes to response [c]. *)
Definition subsOf (c : ConnId) (w : World) : list Subscriber :=
  filter (fun s => Nat.eqb (sinkConn (sub_sink s)) c) (subscribers w).

(** Response [c] has not been used: nothing subscribed for it, nothing
    written to it. *)
Definition unused (c : ConnId) (w : World) : Prop :=
  subsOf c w = [] /\ framesOf c w = [].

(** The action is a request answered on [c] or the end of [c]. *)
Definition touches (c : ConnId) (a : Action) : bool :=
  match a with
  | Incoming c' _ _ | Disconnect c' => Nat.eqb c' c
  | KeepAlive _ | Retention _ => false
  end.

Definition untouched (c : ConnId) (acts : list Action) : Prop :=
  forallb (fun a => negb (touches c a)) acts = true.

(** The events issued between state [w] and the later state [w']. *)
Definition since (w w' : World) : list SAFEvent :=
  skipn (List.length (emitted w)) (emitted w').

(** The owning session of [e] is known in [w] and the host of its origin
    URL is [d]. *)
Definition ownerHostIs {P : Platform} (d : jsstring) (w : World)
           (e : SAFEvent) : bool :=
  match StoreRead.getSession (e_sessionId e) w with
  | Some s =>
      match urlHost (s_url s) with
      | Some h => eqb h d
      | None => false
      end
  | None => false
  end.

(** The events of a run that belong to domain [d], each judged in the state
    its mutation left. *)
Fixpoint ofDomain {P : Platform} (d : jsstring) (acts : list Action)
         (w : World) : list SAFEvent :=
  match acts with
  | [] => []
  | a :: rest =>
      filter (ownerHostIs d (step a w)) (since w (step a w))
      ++ ofDomain d rest (step a w)
  end.

(** The frames one sink sends to [c] for [e]. *)
Definition sinkFrames {P : Platform} (c : ConnId) (e : SAFEvent)
           (w : World) (s : Subscriber) : list SAFEvent :=
  if Nat.eqb (sinkConn (sub_sink s)) c && EventBus.inScope s e
     && match sub_sink s with
        | ToSession _ => true
        | ToDomain _ d => ownerHostIs d w e
        end
  then [e] else [].

(** A sink changes the wire and nothing else. *)
Definition sameButWire (w w' : World) : Prop :=
  sessions w' = sessions w /\ annotations w' = annotations w
  /\ eventLog w' = eventLog w /\ sequence w' = sequence w
  /\ subscribers w' = subscribers w
  /\ sseConnections w' = sseConnections w /\ emitted w' = emitted w.

(** What answering one request on [c] can do to the state: nothing; one
    write to the maps followed by its event; or the opening of one of the
    two streams. *)
Inductive Effect {P : Platform} (c : ConnId) (env : Env) (w : World)
  : World -> Prop :=
| eff_none : Effect c env w w
| eff_mutation ty sid p ss aa :
    (forall x, In x (map a_id aa) ->
               x = newId env \/ In x (map a_id (annotations w))) ->
    Effect c env w
           (EventBus.emit ty sid p (now env) (Store.setStore ss aa w))
| eff_session_stream sid req :
    Effect c env w
           (EventBus.subscribe (Some sid) (ToSession c)
              (replay c sid req
                 (Sse.write c (Comment (str "connected"))
                    (trackConnection c w))))
| eff_domain_stream d :
    Effect c env w
           (EventBus.subscribe None (ToDomain c d)
              (Sse.write c (Comment (str "connected to domain " ++ d))
                 (trackConnection c w))).

Definition ofSession (sid : jsstring) (e : SAFEvent) : bool :=
  eqb (e_sessionId e) sid.

(** The integers [from], [from + 1], ... ([n] of them). *)
Fixpoint upFrom (from : Z) (n : nat) : list Z :=
  match n with
  | O => []
  | S n' => from :: upFrom (from + 1) n'
  end.

(** [l] is [l'] with some members left out. *)
Inductive Within {A} : list A -> list A -> Prop :=
| within_nil : Within [] []
| within_skip x l l' : Within l l' -> Within l (x :: l')
| within_keep x l l' : Within l l' -> Within (x :: l) (x :: l').

(** No request of the run brings [id] as its fresh id. *)
Definition neverIssues (id : jsstring) (acts : list Action) : Prop :=
  forallb (fun a => match a with
                    | Incoming _ env _ => negb (eqb (newId env) id)
                    | _ => true
                    end) acts = true.

(** A backend that also keeps the calls it received, oldest first. *)
Definition logged {B} (fetch : Mcp.HttpCall -> B -> Mcp.HttpReply * B)
           (call : Mcp.HttpCall) (b : B * list Mcp.HttpCall)
  : Mcp.HttpReply * (B * list Mcp.HttpCall) :=
  let '(r, b') := fetch call (fst b) in
  (r, (b', snd b ++ [call])).

Definition replyOk (r : Mcp.HttpReply) : bool :=
  match r with
  | Mcp.Replied status _ => Mcp.isOk status
  | _ => false
  end.

End Spec.

(* ------------------------------------------------------------------------- *)
(** ** Concrete inputs                                                       *)
(* ------------------------------------------------------------------------- *)

Module Sample.
Import Js Json Model Http Router.

Fixpoint upToSlash (s : jsstring) : jsstring :=
  match s with
  | [] => []
  | c :: r => if (c =? 47)%N then [] else c :: upToSlash r
  end.

(** The host of an [http://host/path] URL; anything else does not parse. *)
Definition hostOf (u : jsstring) : option jsstring :=
  if startsWith (str "http://") u
  then match upToSlash (skipn 7 u) with
       | [] => None
       | h => Some h
       end
  else None.

(** Compact JSON text, strings written between quotes without escapes. *)
Fixpoint show (j : json) : jsstring :=
  match j with
  | JNull => str "null"
  | JBool true => str "true"
  | JBool false => str "false"
  | JNum n => ofInt n
  | JStr s => 34%N :: s ++ [34%N]
  | JArr l =>
      91%N :: (fix items (l : list json) : jsstring :=
                 match l with
                 | [] => []
                 | x :: r =>
                     show x ++ match r with
                               | [] => []
                               | _ => 44%N :: items r
                               end
                 end) l ++ [93%N]
  | JObj o =>
      123%N :: (fix members (o : list (jsstring * json)) : jsstring :=
                  match o with
                  | [] => []
                  | (k, v) :: r =>
                      34%N :: k ++ [34%N; 58%N] ++ show v
                      ++ match r with
                         | [] => []
                         | _ => 44%N :: members r
                         end
                  end) o ++ [125%N]
  end.

Definition plain : Platform :=
  {| urlHost := hostOf;
     urlPathname := fun p => p;
     urlQuery := fun _ => [];
     stringify := show;
     stringifyPretty := show;
     typeErrorMessage :=
       fun k => str "Cannot read properties of null (reading " ++ k ++ str ")";
     zodMessage := fun _ => str "Invalid arguments" |}.

Definition at_ (t : Z) (id : string) : Env := {| now := t; newId := str id |}.

Definition object (fields : list (string * string)) : json :=
  JObj (map (fun kv => (str (fst kv), JStr (str (snd kv)))) fields).

Definition request (m path : string) (b : BodyInput) : Request :=
  {| method := str m; pathname := str path; query := []; headers := [];
     body := b |}.

Definition post (path : string) (fields : list (string * string)) : Request :=
  request "POST" path (Parsed (object fields)).

Definition patch (path : string) (fields : list (string * string)) : Request :=
  request "PATCH" path (Parsed (object fields)).

Definition feedback : list (string * string) :=
  [("comment", "fix me"); ("element", "button");
   ("elementPath", "body>button")]%string.

(** A session for localhost:3000 with three annotations: the events 1
    (session.created) to 4. *)
Definition threeAnnotations : list Action :=
  [ Incoming 1%nat (at_ 10 "S1")
      (post "/sessions" [("url", "http://localhost:3000/x")]%string);
    Incoming 2%nat (at_ 11 "A1") (post "/sessions/S1/annotations" feedback);
    Incoming 3%nat (at_ 12 "A2") (post "/sessions/S1/annotations" feedback);
    Incoming 4%nat (at_ 13 "A3") (post "/sessions/S1/annotations" feedback) ].

(** The reconnection of scenario 4: [Last-Event-ID: 3]. *)
Definition reconnect : Request :=
  {| method := str "GET"; pathname := str "/sessions/S1/events";
     query := []; headers := [(str "last-event-id", str "3")];
     body := NoBody |}.

Definition oneMore : list Action :=
  [ KeepAlive 7%nat;
    Incoming 8%nat (at_ 20 "A4") (post "/sessions/S1/annotations" feedback);
    Retention 12 ].

(** One session for each of two hosts. *)
Definition twoHosts : list Action :=
  [ Incoming 1%nat (at_ 10 "S1")
      (post "/sessions" [("url", "http://localhost:3000/x")]%string);
    Incoming 2%nat (at_ 11 "S2")
      (post "/sessions" [("url", "http://localhost:3001/y")]%string) ].

Definition watchDomain : Request :=
  {| method := str "GET"; pathname := str "/events";
     query := [(str "domain", str "localhost:3001")]; headers := [];
     body := NoBody |}.

Definition feedbackOnBoth : list Action :=
  [ Incoming 8%nat (at_ 20 "A1") (post "/sessions/S1/annotations" feedback);
    Incoming 9%nat (at_ 21 "A2") (post "/sessions/S2/annotations" feedback) ].

(** One pending annotation A1 on session S1. *)
Definition pendingA1 : World :=
  run (P := plain) (firstn 2 threeAnnotations) initial.

(** The same annotation, acknowledged. *)
Definition acknowledgedA1 : World :=
  step (P := plain)
       (Incoming 5%nat (at_ 14 "x")
          (patch "/annotations/A1" [("status", "acknowledged")]%string))
       pendingA1.

(** The session and the annotation as the store holds them in
    [pendingA1]. *)
Definition s1 : Session :=
  {| s_id := str "S1"; s_url := str "http://localhost:3000/x";
     s_projectId := None; s_status := Active; s_createdAt := 10 |}.

Definition a1 : Annotation :=
  {| a_id := str "A1"; a_sessionId := str "S1"; a_comment := str "fix me";
     a_element := str "button"; a_elementPath := str "body>button";
     a_url := None; a_boundingBox := None; a_intent := None;
     a_severity := None; a_status := Pending; a_resolvedBy := None;
     a_resolvedAt := None; a_createdAt := 11; a_updatedAt := 11;
     a_context := []; a_thread := [] |}.

(** The connection, the clock and the id the server gives to a call of the
    dispatcher. *)
Definition supply (w : World) : ConnId * Env :=
  (900%nat,
   {| now := 100 + sequence w; newId := str "M" ++ ofInt (sequence w + 1) |}).

Definition toolArgs (fields : list (string * string)) : option json :=
  Some (object fields).

(** A request for /health that presents no credential. *)
Definition health : Request := request "GET" "/health" NoBody.

(** The same request with a bearer credential. *)
Definition healthWithKey : Request :=
  {| method := str "GET"; pathname := str "/health"; query := [];
     headers := [(str "authorization", str "Bearer ag_xxx")];
     body := NoBody |}.

End Sample.

(* ------------------------------------------------------------------------- *)
(** ** The setup wizard and the doctor ([src/cli.ts])                        *)
(* ------------------------------------------------------------------------- *)

Module Setup.
Import Js Json Cli.

(** *** The Claude Code configuration *)

(** What a command finds at the path of the JSON configuration: no file, a
    text that [JSON.parse] rejects, or a text that parses to [j].  The file
    [writeClaudeConfig] leaves is described by the value it serialises. *)
Inductive ConfigFile :=
| Missing
| Garbled
| Holds (j : json).

(** [o[k] = v] on an object: an own property keeps its place, a new one goes
    last. *)
Fixpoint setField (k : jsstring) (v : json) (o : list (jsstring * json))
  : list (jsstring * json) :=
  match o with
  | [] => [(k, v)]
  | (k', v') :: r =>
      if eqb k' k then (k', v) :: r else (k', v') :: setField k v r
  end.

(** The [args] of the entry: the port is named when it is not the default. *)
Definition claudeArgs (port : Z) : list jsstring :=
  if port =? DEFAULT_PORT
  then [str "agentation-mcp"; str "server"]
  else [str "agentation-mcp"; str "server"; str "--port"; ofInt port].

Definition claudeEntry (port : Z) : json :=
  JObj [(str "command", JStr (str "npx"));
        (str "args", JArr (map JStr (claudeArgs port)))].

(** [writeClaudeConfig(claudeConfigPath, port)]: the value the file holds
    afterwards, [None] when the function throws before it writes.  A missing
    or unparsable file starts from [{}].  [mcpServers] is replaced by [{}]
    when it is falsy or not of type "object"; an array is of type "object",
    takes the entry as a named property and loses it when it is serialised,
    as does a configuration that is itself an array.  Reading [mcpServers]
    of [null] and creating a property on a boolean, a number or a string
    raise a TypeError. *)
Definition writeClaudeConfig (file : ConfigFile) (port : Z) : option json :=
  let config := match file with Holds j => j | _ => JObj [] end in
  match config with
  | JObj o =>
      match field (str "mcpServers") o with
      | Some (JObj servers) =>
          Some (JObj (setField (str "mcpServers")
                        (JObj (setField (str "agentation") (claudeEntry port)
                                        servers)) o))
      | Some (JArr _) => Some (JObj o)
      | _ =>
          Some (JObj (setField (str "mcpServers")
                        (JObj [(str "agentation", claudeEntry port)]) o))
      end
  | JArr items => Some (JArr items)
  | _ => None
  end.


(** What the second check of [runDoctor] finds. *)
Inductive Finding :=
| Configured (port : Z)   (* pass: "MCP server configured" *)
| NoEntry                 (* warn: "Config exists but no agentation MCP entry" *)
| Unreadable              (* fail: "Could not parse config file" *)
| NoFile.                 (* warn: "No config found at ..." *)

(** The port the third check probes: [port] stays at the default unless the
    second check has set it. *)
Definition probedPort (f : Finding) : Z :=
  match f with
  | Configured port => port
  | _ => DEFAULT_PORT
  end.



(** *** The Codex configuration *)

Definition nl : jsstring := [10%N].

(** [s] between double quotes. *)
Definition quoted (s : jsstring) : jsstring := 34%N :: s ++ [34%N].

(** [lines.join(sep)]. *)
Fixpoint join (sep : jsstring) (lines : list jsstring) : jsstring :=
  match lines with
  | [] => []
  | x :: r =>
      match r with
      | [] => x
      | _ :: _ => x ++ sep ++ join sep r
      end
  end.

(** [content.split(/\r?\n/)]; [cur] is the line being read, reversed. *)
Fixpoint splitLines (cur : jsstring) (s : jsstring) : list jsstring :=
  match s with
  | [] => [rev cur]
  | c :: r =>
      if (c =? 10)%N then rev cur :: splitLines [] r
      else
        match r with
        | d :: r' =>
            if (c =? 13)%N && (d =? 10)%N then rev cur :: splitLines [] r'
            else splitLines (c :: cur) r
        | [] => splitLines (c :: cur) r
        end
  end.

(** [s.endsWith(suffix)]. *)
Definition endsWith (s suffix : jsstring) : bool :=
  startsWith (rev suffix) (rev s).

(** [lines.findIndex(f)]; [None] is -1. *)
Fixpoint findIndex {A} (f : A -> bool) (l : list A) : option nat :=
  match l with
  | [] => None
  | x :: r => if f x then Some O else option_map S (findIndex f r)
  end.

Definition sectionHeader : jsstring := str "[mcp_servers.agentation]".

Definition codexArgs (port : Z) : jsstring :=
  if port =? DEFAULT_PORT
  then str "[" ++ quoted (str "-y") ++ str ", "
       ++ quoted (str "agentation-mcp") ++ str ", "
       ++ quoted (str "server") ++ str "]"
  else str "[" ++ quoted (str "-y") ++ str ", "
       ++ quoted (str "agentation-mcp") ++ str ", "
       ++ quoted (str "server") ++ str ", "
       ++ quoted (str "--port") ++ str ", "
       ++ quoted (ofInt port) ++ str "]".

Definition buildCodexAgentationBlock (port : Z) : list jsstring :=
  [ sectionHeader;
    str "command = " ++ quoted (str "npx");
    str "args = " ++ codexArgs port;
    [] ].

(** Whether [s] ends a run of characters other than "]" with a "]";
    [seen] tells that the run is not empty. *)
Fixpoint closesRun (seen : bool) (s : jsstring) : bool :=
  match s with
  | [] => false
  | c :: r => if (c =? 93)%N then seen else closesRun true r
  end.

(** [/^\[[^\]]+\]$/.test(s)]: an opening bracket, one or more characters
    other than "]", and a closing bracket that ends the string. *)
Definition isTableHeader (s : jsstring) : bool :=
  match s with
  | 91%N :: r =>
      match rev r with
      | 93%N :: body =>
          Js.truthy body && forallb (fun c => negb (c =? 93)%N) body
      | _ => false
      end
  | _ => false
  end.

(** [lines.slice(end)] for the [end] the [while] loop stops at: the lines
    from the first table header on. *)
Fixpoint fromNextTable (lines : list jsstring) : list jsstring :=
  match lines with
  | [] => []
  | line :: r =>
      if isTableHeader (trim line) then lines else fromNextTable r
  end.

(** [writeCodexConfig(codexConfigPath, port)]: the text the file holds
    afterwards; [existing] is the text it held, if there was a file. *)
Definition writeCodexConfig (existing : option jsstring) (port : Z)
  : jsstring :=
  let blockLines := buildCodexAgentationBlock port in
  match existing with
  | None => join nl blockLines
  | Some content =>
      let lines := splitLines [] content in
      match findIndex (fun line => eqb (trim line) sectionHeader) lines with
      | None =>
          let separator := if endsWith content nl then [] else nl in
          content ++ separator ++ nl ++ join nl blockLines
      | Some start =>
          let merged :=
            join nl (firstn start lines ++ blockLines
                     ++ fromNextTable (skipn (S start) lines)) in
          if endsWith merged nl then merged else merged ++ nl
      end
  end.

(** LineTerminator of ECMAScript: what [^] and [$] look at under the [m]
    flag. *)
Definition isLineTerminator (c : N) : bool :=
  ((c =? 10) || (c =? 13) || (c =? 8232) || (c =? 8233))%N.

(** [\[[^\]]+\]] at the head of [s]. *)
Definition tableAhead (s : jsstring) : bool :=
  match s with
  | 91%N :: r => closesRun false r
  | _ => false
  end.

(** [$] under the [m] flag: the end of the input, or a line terminator
    next. *)
Definition atLineEnd (s : jsstring) : bool :=
  match s with
  | [] => true
  | c :: _ => isLineTerminator c
  end.

(** [([\s\S]*?)(?=^\[[^\]]+\]|$)] under the [m] flag, from a position
    where [^] holds or not ([lineStart]): the lazy group takes one more
    character until the look-ahead holds. *)
Fixpoint sectionText (lineStart : bool) (s : jsstring) : jsstring :=
  if lineStart && tableAhead s || atLineEnd s then []
  else
    match s with
    | [] => []
    | c :: r => c :: sectionText (isLineTerminator c) r
    end.

(** [configText.match(/^\[mcp_servers\.agentation\]\n([\s\S]*?)(?=^\[[^\]]+\]|$)/m)]:
    group 1 of the leftmost match; [None] is [null]. *)
Fixpoint sectionMatch (lineStart : bool) (s : jsstring) : option jsstring :=
  if lineStart && startsWith (sectionHeader ++ nl) s
  then Some (sectionText true (skipn (List.length (sectionHeader ++ nl)) s))
  else
    match s with
    | [] => None
    | c :: r => sectionMatch (isLineTerminator c) r
    end.

(** The longest run of decimal digits at the head of [s], and the rest. *)
Fixpoint digitRun (s : jsstring) : jsstring * jsstring :=
  match s with
  | c :: r =>
      if ((48 <=? c) && (c <=? 57))%N
      then (c :: fst (digitRun r), snd (digitRun r))
      else ([], s)
  | [] => ([], [])
  end.

(** ["--port"\s*,\s*"(\d+)"] at the head of [s]: group 1.  [\s] is the
    white space of [trimStart]. *)
Definition portAhead (s : jsstring) : option jsstring :=
  if startsWith (quoted (str "--port")) s then
    match trimStart (skipn 8 s) with
    | 44%N :: r =>
        match trimStart r with
        | 34%N :: r' =>
            match digitRun r' with
            | (c :: d, 34%N :: _) => Some (c :: d)
            | _ => None
            end
        | _ => None
        end
    | _ => None
    end
  else None.

(** [section.match(/"--port"\s*,\s*"(\d+)"/)]: group 1 of the leftmost
    match. *)
Fixpoint portMatch (s : jsstring) : option jsstring :=
  match portAhead s with
  | Some d => Some d
  | None =>
      match s with
      | [] => None
      | _ :: r => portMatch r
      end
  end.

(** [getCodexAgentationPort(configText)].  The number returned is that of
    [parseInt]: the integer the digits spell when it is at most 2^53, the
    nearest double beyond; the model returns the integer, and what is
    proved of a number read this way is stated for integers of at most
    2^53. *)
Definition getCodexAgentationPort (configText : jsstring) : Z :=
  match sectionMatch true configText with
  | None => DEFAULT_PORT
  | Some section =>
      match portMatch section with
      | None => DEFAULT_PORT
      | Some d =>
          match parseInt d with
          | Some parsed => parsed
          | None => DEFAULT_PORT
          end
      end
  end.

(** The Codex branch of the second check of [runDoctor], for a file that
    can be read. *)
Definition codexDoctor (file : option jsstring) : Finding :=
  match file with
  | None => NoFile
  | Some configText =>
      if includes sectionHeader configText
      then Configured (getCodexAgentationPort configText)
      else NoEntry
  end.

End Setup.

(* ------------------------------------------------------------------------- *)
(** ** Further vocabulary                                                    *)
(* ------------------------------------------------------------------------- *)

Module Cover.
Import Js Json Model Http Router.

(** Everything written to response [c], comments included, oldest first. *)
Definition written (c : ConnId) (w : World) : list Chunk :=
  map snd (filter (fun ck => Nat.eqb (fst ck) c) (wire w)).

(** Every subscription writes to a response that [sseConnections] holds. *)
Definition tracked (w : World) : Prop :=
  forall s, In s (subscribers w) -> isOpen (sinkConn (sub_sink s)) w = true.

(** Response [c] is closed: no subscription writes to it and
    [sseConnections] does not hold it. *)
Definition closed (c : ConnId) (w : World) : Prop :=
  Spec.subsOf c w = [] /\ isOpen c w = false.

(** The path a route pattern stands for, with [id] in its group. *)
Definition pathOf (p : list Piece) (id : jsstring) : jsstring :=
  flat_map (fun piece => 47%N :: match piece with
                                 | Lit s => str s
                                 | Capture => id
                                 end) p.

(** The parameters a route hands to its handler when its group is [id]. *)
Definition paramsOf (r : Route) (id : jsstring) : Params :=
  map (fun name => (name, id)) (r_paramNames r).

(** The store and the event history are the same in both states. *)
Definition sameStore (w w' : World) : Prop :=
  sessions w' = sessions w /\ annotations w' = annotations w
  /\ eventLog w' = eventLog w /\ sequence w' = sequence w
  /\ emitted w' = emitted w.

(** Every key of [keys] is bound to a string in [o]. *)
Definition allStrings (keys : list jsstring) (o : list (jsstring * json))
  : bool :=
  forallb (fun k => match field k o with
                    | Some (JStr _) => true
                    | _ => false
                    end) keys.

(** What the option loop of the [server] command keeps true of the options
    it has read so far. *)
Definition wellFormed (args : list jsstring) (o : Cli.Options) : Prop :=
  1 <= Cli.port o <= 65535
  /\ (Cli.mcpOnly o = true -> In (str "--mcp-only") args)
  /\ (~ In (str "--http-url") args ->
      Cli.httpUrl o = str "http://localhost:" ++ ofInt (Cli.port o))
  /\ (forall k, Cli.apiKeyArg o = Some k -> k <> [] /\ In k args).

(** The calls a tool makes against [fetch], oldest first. *)
Definition callsOf {P : Platform} {B}
           (fetch : Mcp.HttpCall -> B -> Mcp.HttpReply * B)
           (name : jsstring) (args : option json) (b : B)
  : list Mcp.HttpCall :=
  snd (snd (Mcp.callTool (Spec.logged fetch) name args (b, []))).

(** Every number of [j] is an integer of size at most 2^53, which a double
    holds exactly: [JSON.stringify] writes its digits and [JSON.parse]
    reads them back as the same number.  Other numbers are rounded when
    the text is read. *)
Fixpoint exactNumbers (j : json) : bool :=
  match j with
  | JNum n => Z.abs n <=? 2 ^ 53
  | JArr items => forallb exactNumbers items
  | JObj fields => forallb (fun kv => exactNumbers (snd kv)) fields
  | _ => true
  end.

(** A text without carriage returns and line feeds: what [split(/\r?\n/)]
    makes of the lines of a file that has no carriage return. *)
Definition plainLine (x : jsstring) : Prop :=
  ~ In 10%N x /\ ~ In 13%N x.

End Cover.

(* ------------------------------------------------------------------------- *)
(** ** Further concrete inputs                                               *)
(* ------------------------------------------------------------------------- *)

Module Case.
Import Js Json Model Http Router.

(** The arguments [--port 8080] of the [server] command. *)
Definition port8080 : list jsstring := [str "--port"; str "8080"].

(** A Claude Code configuration with a setting and another server. *)
Definition claudeConfig : list (jsstring * json) :=
  [(str "theme", JStr (str "dark"));
   (str "mcpServers",
    JObj [(str "other", JObj [(str "command", JStr (str "node"))])])].

(** A Codex configuration without the section. *)
Definition codexConfig : jsstring := str "approval = never".

(** The three annotations of session S1, then its stream opened on
    response 7. *)
Definition streamOpened : list Action :=
  Sample.threeAnnotations
  ++ [Incoming 7%nat (Sample.at_ 14 "x") Sample.reconnect].

(** An event with sequence number 3. *)
Definition third : SAFEvent :=
  {| e_type := AnnotationCreated; e_timestamp := 12; e_sessionId := str "S1";
     e_sequence := 3; e_payload := OfAnnotation Sample.a1 |}.

(** A reconnection whose header is no number. *)
Definition garbledHeader : Request :=
  {| method := str "GET"; pathname := str "/sessions/S1/events";
     query := []; headers := [(str "last-event-id", str "abc")];
     body := NoBody |}.

(** A POST whose body is not JSON. *)
Definition notJson : Request := Sample.request "POST" "/sessions" Unparsable.

(** A POST without a body for a session that does not exist. *)
Definition emptyPost : Request :=
  Sample.request "POST" "/sessions/nope/annotations" NoBody.

End Case.

(* ------------------------------------------------------------------------- *)
(** ** Properties: the command line                                          *)
(* ------------------------------------------------------------------------- *)

Lemma eqb_eq (a b : Js.jsstring) : Js.eqb a b = true <-> a = b.
Proof.
  revert b; induction a as [|x a IH]; intros [|y b]; simpl;
    try (split; [discriminate | congruence]); try tauto.
  rewrite andb_true_iff, N.eqb_eq, IH. split.
  - intros [-> ->]; reflexivity.
  - intros H; injection H; auto.
Qed.

Lemma eqb_refl (a : Js.jsstring) : Js.eqb a a = true.
Proof. apply eqb_eq; reflexivity. Qed.

Lemma eqb_neq (a b : Js.jsstring) : Js.eqb a b = false <-> a <> b.
Proof.
  rewrite <- eqb_eq. destruct (Js.eqb a b); split; congruence.
Qed.

Lemma parsePortInput_range (input : Js.jsstring) :
  1 <= Cli.parsePortInput input <= 65535.
Proof.
  unfold Cli.parsePortInput, Cli.DEFAULT_PORT.
  destruct (Js.parseInt (Js.trim input)) as [p|]; [|lia].
  destruct (negb (Js.truthy (Js.trim input))); simpl; [lia|].
  destruct (Z.ltb_spec p 1); simpl; [lia|].
  destruct (Z.ltb_spec 65535 p); lia.
Qed.

Lemma portAt_spec (l : list Json.json) (i : nat) (p : Z) :
  Cli.portAt l i = Some p <-> Spec.PortFlagAt l i p.
Proof.
  unfold Cli.portAt, Spec.PortFlagAt. rewrite Nat.add_1_r. split.
  - destruct (nth_error l i) as [[| | |flag| |]|]; try discriminate.
    destruct (nth_error l (S i)) as [[| | |v| |]|]; try discriminate.
    destruct (Js.eqb flag (Js.str "--port")) eqn:E; try discriminate.
    apply eqb_eq in E; subst flag.
    destruct (Js.parseInt v) as [q|] eqn:Ev; try discriminate.
    destruct (Z.ltb_spec 0 q); simpl; try discriminate.
    destruct (Z.ltb_spec q 65536); try discriminate.
    intros [= ->]. split; [reflexivity|]. exists v.
    split; [reflexivity|]. split; [exact Ev | lia].
  - intros [-> [v [-> [-> Hr]]]]. rewrite eqb_refl.
    destruct (Z.ltb_spec 0 p); [|lia]. destruct (Z.ltb_spec p 65536); [|lia].
    reflexivity.
Qed.

Lemma portAt_range (l : list Json.json) (i : nat) (p : Z) :
  Cli.portAt l i = Some p -> 1 <= p <= 65535.
Proof. intros H; apply portAt_spec in H. destruct H as [_ [v [_ [_ H]]]]; exact H. Qed.

Lemma portLoop_none (l : list Json.json) (n i : nat) :
  (forall j, (i <= j < i + n)%nat -> Cli.portAt l j = None) ->
  Cli.portLoop l i n = Cli.DEFAULT_PORT.
Proof.
  revert i; induction n as [|n IH]; intros i H; simpl; [reflexivity|].
  rewrite (H i) by lia. apply IH. intros j Hj; apply H; lia.
Qed.

Lemma portLoop_first (l : list Json.json) (n i k : nat) (p : Z) :
  (i <= k < i + n)%nat ->
  Cli.portAt l k = Some p ->
  (forall j, (i <= j < k)%nat -> Cli.portAt l j = None) ->
  Cli.portLoop l i n = p.
Proof.
  revert i; induction n as [|n IH]; intros i Hk Hp Hfirst; simpl; [lia|].
  destruct (Nat.eq_dec i k) as [->|Hne].
  - rewrite Hp; reflexivity.
  - rewrite (Hfirst i) by lia. apply IH; auto; [lia|].
    intros j Hj; apply Hfirst; lia.
Qed.

Lemma portLoop_range (l : list Json.json) (n i : nat) :
  1 <= Cli.portLoop l i n <= 65535.
Proof.
  revert i; induction n as [|n IH]; intros i; simpl.
  - unfold Cli.DEFAULT_PORT; lia.
  - destruct (Cli.portAt l i) eqn:E; [eapply portAt_range; eauto | apply IH].
Qed.

(** C10 (as the code has it). Port parsing of the command line is total and
    always yields a valid port.  [parsePortInput] returns an integer of
    [1, 65535] for every string: the default 4747 when the trimmed input is
    empty, when [parseInt] finds no number at its start, or when that number
    is out of range, and the number otherwise, also when other text follows
    the number.  [parsePortFromArgArray] returns 4747 for every
    value that is not an array and for every array without a ["--port"]
    followed by a string that parses to an integer of [1, 65535]; for an
    array with such a pair it returns the integer of the first one. *)
Theorem port_parsing_total_and_valid :
  (forall input : Js.jsstring,
      1 <= Cli.parsePortInput input <= 65535
      /\ (Spec.Unusable (Js.trim input) -> Cli.parsePortInput input = 4747)
      /\ (forall p, Js.trim input <> [] ->
                    Js.parseInt (Js.trim input) = Some p ->
                    1 <= p <= 65535 -> Cli.parsePortInput input = p))
  /\ (forall args : option Json.json,
         1 <= Cli.parsePortFromArgArray args <= 65535
         /\ ((forall l, args <> Some (Json.JArr l)) ->
             Cli.parsePortFromArgArray args = 4747)
         /\ (forall l, args = Some (Json.JArr l) ->
                       (forall i p, ~ Spec.PortFlagAt l i p) ->
                       Cli.parsePortFromArgArray args = 4747)
         /\ (forall l i p, args = Some (Json.JArr l) ->
                           Spec.PortFlagAt l i p ->
                           (forall j q, (j < i)%nat -> ~ Spec.PortFlagAt l j q) ->
                           Cli.parsePortFromArgArray args = p)).
Proof.
  split.
  - intros input. split; [apply parsePortInput_range|]. split.
    + unfold Spec.Unusable, Cli.parsePortInput, Cli.DEFAULT_PORT.
      intros [E | [E | [p [E Hp]]]]; rewrite E; [reflexivity | reflexivity |].
      destruct (negb (Js.truthy (Js.trim input))); simpl; auto.
      destruct (Z.ltb_spec p 1); simpl; auto.
      destruct (Z.ltb_spec 65535 p); auto; lia.
    + intros p Hne E Hr. unfold Cli.parsePortInput. rewrite E.
      destruct (Js.trim input); [congruence|]. simpl.
      destruct (Z.ltb_spec p 1); [lia|]. destruct (Z.ltb_spec 65535 p); [lia|].
      reflexivity.
  - intros args. split; [|split; [|split]].
    + destruct args as [[| | | |l|]|]; simpl; try (unfold Cli.DEFAULT_PORT; lia).
      apply portLoop_range.
    + intros H. destruct args as [[| | | |l|]|]; simpl; auto.
      exfalso; apply (H l); reflexivity.
    + intros l -> H. simpl. apply portLoop_none.
      intros j _. destruct (Cli.portAt l j) eqn:E; auto.
      apply portAt_spec in E. exfalso; eapply H; eauto.
    + intros l i p -> Hp Hfirst. simpl.
      apply portLoop_first with (k := i).
      * destruct Hp as [Hi _]. split; [lia|].
        simpl. apply nth_error_Some. congruence.
      * apply portAt_spec; exact Hp.
      * intros j Hj. destruct (Cli.portAt l j) eqn:E; auto.
        apply portAt_spec in E. exfalso; eapply Hfirst; eauto. lia.
Qed.

(* ------------------------------------------------------------------------- *)
(** ** Properties: what one turn of the process does to the state            *)
(* ------------------------------------------------------------------------- *)

Section Turns.
Context {P : Platform}.
Import Js Json Model StoreRead Http Router Spec.

Lemma framesOf_app (c : ConnId) (w : World) (k : list (ConnId * Chunk)) :
  flat_map (fun ck => match ck with
                      | (c', Frame e) => if Nat.eqb c' c then [e] else []
                      | _ => []
                      end) (wire w ++ k)
  = framesOf c w
    ++ flat_map (fun ck => match ck with
                           | (c', Frame e) => if Nat.eqb c' c then [e] else []
                           | _ => []
                           end) k.
Proof. unfold framesOf. apply flat_map_app. Qed.

Lemma framesOf_write (c c' : ConnId) (k : Chunk) (w : World) :
  framesOf c (Sse.write c' k w)
  = framesOf c w
    ++ match k with
       | Frame e => if Nat.eqb c' c then [e] else []
       | Comment _ => []
       end.
Proof.
  unfold framesOf at 1. simpl. rewrite flat_map_app. simpl.
  destruct k; simpl; rewrite ?app_nil_r; reflexivity.
Qed.

Lemma runSink_frame (k : Sink) (e : SAFEvent) (w : World) :
  Sse.runSink k e w = w
  \/ Sse.runSink k e w = Sse.write (sinkConn k) (Frame e) w.
Proof.
  destruct k as [c|c d]; simpl; auto.
  destruct (getSession (e_sessionId e) w); auto.
  destruct (urlHost _); auto. destruct (eqb _ _); auto.
Qed.

Lemma runSink_frames (c : ConnId) (s : Subscriber) (e : SAFEvent) (w : World) :
  framesOf c (if EventBus.inScope s e then Sse.runSink (sub_sink s) e w else w)
  = framesOf c w ++ sinkFrames c e w s.
Proof.
  unfold sinkFrames, ownerHostIs.
  destruct (EventBus.inScope s e); rewrite ?andb_false_r; simpl;
    [|rewrite app_nil_r; reflexivity].
  rewrite andb_true_r.
  destruct (sub_sink s) as [c'|c' d]; simpl.
  - unfold Sse.sendSSEEvent. rewrite framesOf_write. rewrite andb_true_r.
    reflexivity.
  - destruct (getSession (e_sessionId e) w) as [x|];
      [|rewrite andb_false_r, app_nil_r; reflexivity].
    destruct (urlHost (s_url x)) as [h|];
      [|rewrite andb_false_r, app_nil_r; reflexivity].
    destruct (eqb h d); rewrite ?andb_false_r, ?andb_true_r, ?app_nil_r; auto.
    unfold Sse.sendSSEEvent. rewrite framesOf_write. reflexivity.
Qed.

Lemma sameButWire_refl (w : World) : sameButWire w w.
Proof. repeat split. Qed.

Lemma sameButWire_trans (a b c : World) :
  sameButWire a b -> sameButWire b c -> sameButWire a c.
Proof.
  unfold sameButWire; intros (?&?&?&?&?&?&?) (?&?&?&?&?&?&?).
  repeat split; congruence.
Qed.

Lemma write_same (c : ConnId) (k : Chunk) (w : World) :
  sameButWire w (Sse.write c k w).
Proof. repeat split. Qed.

Lemma runSink_same (k : Sink) (e : SAFEvent) (w : World) :
  sameButWire w (Sse.runSink k e w).
Proof.
  destruct (runSink_frame k e w) as [-> | ->];
    [apply sameButWire_refl | apply write_same].
Qed.

Lemma ownerHostIs_same (d : jsstring) (w w' : World) (e : SAFEvent) :
  sessions w' = sessions w -> ownerHostIs d w' e = ownerHostIs d w e.
Proof. unfold ownerHostIs, getSession. intros ->; reflexivity. Qed.

Lemma sinkFrames_same (c : ConnId) (e : SAFEvent) (w w' : World)
      (s : Subscriber) :
  sessions w' = sessions w -> sinkFrames c e w' s = sinkFrames c e w s.
Proof.
  intros H. unfold sinkFrames. destruct (sub_sink s); auto.
  erewrite ownerHostIs_same by exact H. reflexivity.
Qed.

Lemma deliver_same (e : SAFEvent) (subs : list Subscriber) (w : World) :
  sameButWire w (EventBus.deliver e subs w).
Proof.
  revert w; induction subs as [|s subs IH]; intros w; simpl.
  - apply sameButWire_refl.
  - eapply sameButWire_trans; [|apply IH].
    destruct (EventBus.inScope s e);
      [apply runSink_same | apply sameButWire_refl].
Qed.

Lemma deliver_frames (c : ConnId) (e : SAFEvent) (subs : list Subscriber)
      (w : World) :
  framesOf c (EventBus.deliver e subs w)
  = framesOf c w ++ flat_map (sinkFrames c e w) subs.
Proof.
  revert w; induction subs as [|s subs IH]; intros w; simpl.
  - rewrite app_nil_r; reflexivity.
  - rewrite IH, runSink_frames, <- app_assoc. f_equal. f_equal.
    apply flat_map_ext. intros s'. apply sinkFrames_same.
    destruct (EventBus.inScope s e); auto.
    apply (runSink_same (sub_sink s) e w).
Qed.

(** Only the subscriptions of [c] contribute frames to [c]. *)
Lemma sinkFrames_subsOf (c : ConnId) (e : SAFEvent) (w : World)
      (subs : list Subscriber) :
  flat_map (sinkFrames c e w) subs
  = flat_map (sinkFrames c e w)
             (filter (fun s => Nat.eqb (sinkConn (sub_sink s)) c) subs).
Proof.
  induction subs as [|s subs IH]; simpl; auto.
  destruct (Nat.eqb (sinkConn (sub_sink s)) c) eqn:E; simpl; rewrite IH; auto.
  unfold sinkFrames at 1. rewrite E. reflexivity.
Qed.

End Turns.

Section Requests.
Context {P : Platform}.
Import Js Json Model StoreRead Http Router Spec.

Lemma put_ids {A} (key : A -> jsstring) (v : A) (l : list A) (x : jsstring) :
  In x (map key (Store.put key v l)) -> x = key v \/ In x (map key l).
Proof.
  induction l as [|y l IH]; simpl.
  - intros [<-|[]]; auto.
  - destruct (eqb (key y) (key v)); simpl; intros [<-|H]; auto.
    destruct (IH H); auto.
Qed.

Lemma remove_ids {A} (key : A -> jsstring) (id : jsstring) (l : list A)
      (x : jsstring) :
  In x (map key (Store.remove key id l)) -> In x (map key l) /\ x <> id.
Proof.
  unfold Store.remove. rewrite !in_map_iff. intros [y [<- Hy]].
  apply filter_In in Hy. destruct Hy as [Hy E]. split; [eauto|].
  apply eqb_neq. destruct (eqb (key y) id); auto; discriminate.
Qed.

Lemma getAnnotation_some (id : jsstring) (w : World) (a : Annotation) :
  getAnnotation id w = Some a -> In a (annotations w) /\ a_id a = id.
Proof.
  unfold getAnnotation. intros H. apply find_some in H.
  destruct H as [H E]. apply eqb_eq in E. auto.
Qed.

Lemma getAnnotation_none (id : jsstring) (w : World) :
  getAnnotation id w = None <-> ~ In id (map a_id (annotations w)).
Proof.
  unfold getAnnotation. split.
  - intros H Hin. apply in_map_iff in Hin. destruct Hin as [a [E Ha]].
    apply (find_none _ _ H) in Ha. rewrite E, eqb_refl in Ha. discriminate.
  - intros H. destruct (find _ _) as [a|] eqn:E; auto.
    apply find_some in E. destruct E as [Ha E]. apply eqb_eq in E.
    exfalso; apply H. rewrite <- E. apply in_map; auto.
Qed.

Lemma applyPatch_keeps (a a' : Annotation) (o : list (jsstring * json))
      (t : Z) :
  Store.applyPatch a o t = Ok a' ->
  a_id a' = a_id a /\ a_sessionId a' = a_sessionId a
  /\ a_thread a' = a_thread a
  /\ Store.nextStatus (a_status a)
       (match field (str "status") o with
        | Some (JStr s) => statusOfName s
        | _ => None
        end) = Ok (a_status a').
Proof.
  unfold Store.applyPatch, rbind.
  repeat match goal with
         | |- context [match ?x with Ok _ => _ | Throw _ => _ end] =>
             destruct x eqn:?; try discriminate
         end.
  intros [= <-]. simpl. repeat split; auto.
  match goal with
  | H : Store.optEnum statusOfName _ _ = Ok ?r |- _ =>
      unfold Store.optEnum in H;
      destruct (field (str "status") o) as [[| | |s| |]|];
      try discriminate H;
      [destruct (statusOfName s); try discriminate H|];
      injection H as <-; assumption
  end.
Qed.

(** Case analysis on an innermost scrutinee of the goal. *)
Ltac split_match :=
  match goal with
  | |- context [match ?x with _ => _ end] =>
      lazymatch x with
      | context [match _ with _ => _ end] => fail
      | _ => destruct x eqn:?
      end
  end.

Lemma handleRequest_effect (c : ConnId) (env : Env) (req : Request)
      (w : World) :
  Effect c env w (snd (handleRequest c env req w)).
Proof.
  unfold handleRequest.
  destruct (eqb _ (str "OPTIONS")); [constructor|].
  destruct (_ && _); [constructor|].
  destruct (matchRoute _ _) as [[h params]|]; [|constructor].
  destruct h; simpl;
    unfold globalSseHandler, getAllPendingHandler, listSessionsHandler,
      createSessionHandler, getSessionHandler, sseHandler, getPendingHandler,
      addAnnotationHandler, updateAnnotationHandler, getAnnotationHandler,
      deleteAnnotationHandler, addThreadHandler, catch400, rbind,
      Store.createSession, Store.addAnnotation, Store.updateAnnotation,
      Store.deleteAnnotation, Store.addThreadMessage, Store.invalid, rbind;
    repeat split_match; simpl; try discriminate;
    repeat match goal with
           | H : Ok _ = Ok _ |- _ => injection H as ?; subst
           | H : (_, _) = (_, _) |- _ => injection H as ?; subst
           | H : Throw _ = Ok _ |- _ => discriminate H
           | H : Ok _ = Throw _ |- _ => discriminate H
           end; simpl;
    try (constructor; fail);
    apply eff_mutation; intros x Hx; simpl in Hx;
    try (right; exact Hx);
    try (apply remove_ids in Hx; right; tauto);
    apply put_ids in Hx; simpl in Hx; destruct Hx as [-> | Hx]; auto;
    right;
    repeat match goal with
           | H : Store.applyPatch _ _ _ = Ok _ |- _ =>
               apply applyPatch_keeps in H; destruct H as [-> _]
           | H : getAnnotation _ _ = Some _ |- _ =>
               apply getAnnotation_some in H; destruct H as [H _]
           end;
    apply in_map; assumption.
Qed.

End Requests.

Section Summary.
Context {P : Platform}.
Import Js Json Model StoreRead Http Router Spec.

Lemma Within_refl {A} (l : list A) : Within l l.
Proof. induction l; [apply within_nil | apply within_keep; auto]. Qed.

Lemma Within_nil {A} (l : list A) : Within [] l.
Proof. induction l; constructor; auto. Qed.

Lemma Within_trans {A} (a b c : list A) :
  Within a b -> Within b c -> Within a c.
Proof.
  intros Hab Hbc. revert a Hab.
  induction Hbc as [|x b c Hbc IH|x b c Hbc IH]; intros a Hab.
  - exact Hab.
  - apply within_skip; auto.
  - inversion Hab; subst; [apply within_skip | apply within_keep]; auto.
Qed.

Lemma Within_app {A} (a a' b b' : list A) :
  Within a a' -> Within b b' -> Within (a ++ b) (a' ++ b').
Proof.
  induction 1; simpl; intros;
    [assumption | apply within_skip | apply within_keep]; auto.
Qed.

Lemma Within_filter {A} (f : A -> bool) (l : list A) : Within (filter f l) l.
Proof.
  induction l as [|x l IH]; simpl; [constructor|].
  destruct (f x); [apply within_keep | apply within_skip]; auto.
Qed.

Lemma Within_map {A B} (f : A -> B) (l l' : list A) :
  Within l l' -> Within (map f l) (map f l').
Proof.
  induction 1; simpl;
    [apply within_nil | apply within_skip | apply within_keep]; auto.
Qed.

Lemma Within_In {A} (l l' : list A) (x : A) : Within l l' -> In x l -> In x l'.
Proof. induction 1; simpl; intuition. Qed.

Lemma emit_spec (ty : EventType) (sid : jsstring) (p : Payload) (t : Z)
      (w : World) :
  exists e,
    e_sequence e = sequence w + 1 /\ e_sessionId e = sid
    /\ e_type e = ty /\ e_payload e = p
    /\ emitted (EventBus.emit ty sid p t w) = emitted w ++ [e]
    /\ eventLog (EventBus.emit ty sid p t w) = eventLog w ++ [e]
    /\ sequence (EventBus.emit ty sid p t w) = sequence w + 1
    /\ sessions (EventBus.emit ty sid p t w) = sessions w
    /\ annotations (EventBus.emit ty sid p t w) = annotations w
    /\ subscribers (EventBus.emit ty sid p t w) = subscribers w
    /\ sseConnections (EventBus.emit ty sid p t w) = sseConnections w
    /\ forall c, framesOf c (EventBus.emit ty sid p t w)
                 = framesOf c w ++ flat_map (sinkFrames c e w) (subsOf c w).
Proof.
  unfold EventBus.emit.
  set (e := {| e_type := ty; e_timestamp := t; e_sessionId := sid;
               e_sequence := sequence w + 1; e_payload := p |}).
  exists e.
  destruct (deliver_same e (subscribers w) (EventBus.record e w))
    as (Hs & Ha & Hl & Hq & Hsub & Hc & He).
  rewrite He, Hl, Hq, Hs, Ha, Hsub, Hc. simpl.
  repeat split; auto.
  intros c. rewrite deliver_frames. unfold subsOf.
  rewrite <- sinkFrames_subsOf. reflexivity.
Qed.

Lemma sendAll_same (c : ConnId) (evs : list SAFEvent) (w : World) :
  sameButWire w (sendAll c evs w).
Proof.
  revert w; induction evs as [|e evs IH]; intros w; simpl.
  - apply sameButWire_refl.
  - eapply sameButWire_trans; [|apply IH]. apply write_same.
Qed.

Lemma sendAll_frames (c c' : ConnId) (evs : list SAFEvent) (w : World) :
  framesOf c' (sendAll c evs w)
  = framesOf c' w ++ if Nat.eqb c c' then evs else [].
Proof.
  revert w; induction evs as [|e evs IH]; intros w; simpl.
  - destruct (Nat.eqb c c'); rewrite app_nil_r; reflexivity.
  - rewrite IH. unfold Sse.sendSSEEvent. rewrite framesOf_write.
    rewrite <- app_assoc. destruct (Nat.eqb c c'); reflexivity.
Qed.

Lemma replay_same (c : ConnId) (sid : jsstring) (req : Request) (w : World) :
  sameButWire w (replay c sid req w).
Proof.
  unfold replay. destruct (lastEventId req) as [h|];
    [|apply sameButWire_refl].
  destruct (Js.truthy h); [|apply sameButWire_refl].
  destruct (parseInt h); [apply sendAll_same | apply sameButWire_refl].
Qed.

Lemma replay_other (c c' : ConnId) (sid : jsstring) (req : Request)
      (w : World) :
  Nat.eqb c c' = false -> framesOf c' (replay c sid req w) = framesOf c' w.
Proof.
  intros H. unfold replay. destruct (lastEventId req) as [h|]; auto.
  destruct (Js.truthy h); auto. destruct (parseInt h); auto.
  rewrite sendAll_frames, H, app_nil_r. reflexivity.
Qed.

(** What one request answered on [c] leaves: at most one new event,
    numbered by the counter, appended to the log; for every other response
    [c'], the same subscriptions, and the frames its subscriptions
    accept. *)
Lemma effect_summary (c : ConnId) (env : Env) (w w' : World) :
  Effect c env w w' ->
  exists evs,
    emitted w' = emitted w ++ evs
    /\ (evs = [] \/ exists e, evs = [e] /\ e_sequence e = sequence w + 1)
    /\ sequence w' = sequence w + Z.of_nat (List.length evs)
    /\ eventLog w' = eventLog w ++ evs
    /\ forall c', Nat.eqb c c' = false ->
                  subsOf c' w' = subsOf c' w
                  /\ framesOf c' w'
                     = framesOf c' w
                       ++ flat_map (fun e => flat_map (sinkFrames c' e w')
                                                      (subsOf c' w)) evs.
Proof.
  intros [ | ty sid p ss aa _ | sid req | d].
  - exists []. rewrite !app_nil_r. simpl. repeat split; auto; try lia.
    rewrite app_nil_r; reflexivity.
  - destruct (emit_spec ty sid p (now env) (Store.setStore ss aa w))
      as (e & Hq & _ & _ & _ & He & Hl & Hn & Hs & _ & Hsub & _ & Hf).
    exists [e]. simpl in *. rewrite He, Hl, Hn.
    repeat split; auto; try lia.
    + right. exists e; auto.
    + unfold subsOf. rewrite Hsub. reflexivity.
    + rewrite Hf, app_nil_r. f_equal. apply flat_map_ext. intros s.
      symmetry. apply sinkFrames_same. exact Hs.
  - exists []. rewrite !app_nil_r.
    destruct (replay_same c sid req
                (Sse.write c (Comment (str "connected")) (trackConnection c w)))
      as (Hs & Ha & Hl & Hq & Hsub & Hc & He).
    simpl. rewrite He, Hl, Hq. simpl. repeat split; auto; try lia.
    + unfold subsOf. simpl. rewrite Hsub. simpl.
      rewrite filter_app. simpl. rewrite H, app_nil_r.
      reflexivity.
    + rewrite app_nil_r.
      transitivity
        (framesOf c' (replay c sid req
           (Sse.write c (Comment (str "connected")) (trackConnection c w))));
        [reflexivity|].
      rewrite replay_other by assumption. rewrite framesOf_write.
      rewrite app_nil_r. reflexivity.
  - exists []. rewrite !app_nil_r. simpl. repeat split; auto; try lia.
    + unfold subsOf. simpl. rewrite filter_app. simpl.
      rewrite H, app_nil_r. reflexivity.
    + rewrite app_nil_r. unfold framesOf. simpl. rewrite flat_map_app.
      simpl. rewrite app_nil_r. reflexivity.
Qed.

End Summary.

Section Runs.
Context {P : Platform}.
Import Js Json Model StoreRead Http Router Spec.

(** One turn of the process: at most one new event, numbered by the
    counter; the log gains it or loses swept events; a response the turn
    does not touch keeps its subscriptions and receives the frames they
    accept. *)
Lemma step_summary (a : Action) (w : World) :
  exists evs,
    emitted (step a w) = emitted w ++ evs
    /\ (evs = [] \/ exists e, evs = [e] /\ e_sequence e = sequence w + 1)
    /\ sequence (step a w) = sequence w + Z.of_nat (List.length evs)
    /\ Within (eventLog (step a w)) (eventLog w ++ evs)
    /\ forall c, touches c a = false ->
                 subsOf c (step a w) = subsOf c w
                 /\ framesOf c (step a w)
                    = framesOf c w
                      ++ flat_map (fun e => flat_map (sinkFrames c e (step a w))
                                                     (subsOf c w)) evs.
Proof.
  destruct a as [c env req | c | c | cutoff]; simpl.
  - destruct (effect_summary (handleRequest_effect c env req w))
      as (evs & He & Hn & Hq & Hl & Hc).
    exists evs. rewrite Hl. repeat split; auto using Within_refl;
      apply Hc; assumption.
  - exists []. rewrite !app_nil_r.
    destruct (isOpen c w); simpl; repeat split; auto using Within_refl;
      try lia; rewrite ?app_nil_r; auto.
    rewrite framesOf_write, app_nil_r. reflexivity.
  - exists []. rewrite !app_nil_r.
    destruct (isOpen c w); simpl; repeat split; auto using Within_refl;
      try lia; rewrite ?app_nil_r; auto.
    unfold subsOf. simpl.
    induction (subscribers w) as [|s l IH]; simpl; auto.
    destruct (Nat.eqb (sinkConn (sub_sink s)) c) eqn:E; simpl.
    + apply Nat.eqb_eq in E. rewrite E, H. exact IH.
    + destruct (Nat.eqb (sinkConn (sub_sink s)) c0); simpl; rewrite IH; auto.
  - exists []. rewrite !app_nil_r. simpl.
    repeat split; auto using Within_filter; try lia.
    rewrite app_nil_r; reflexivity.
Qed.

Lemma run_app (acts acts' : list Action) (w : World) :
  run (acts ++ acts') w = run acts' (run acts w).
Proof. revert w; induction acts; simpl; auto. Qed.

Lemma since_app (w w' : World) (l : list SAFEvent) :
  emitted w' = emitted w ++ l -> since w w' = l.
Proof.
  intros H. unfold since. rewrite H, skipn_app, skipn_all, Nat.sub_diag.
  reflexivity.
Qed.

Lemma run_extends (acts : list Action) (w : World) :
  exists l, emitted (run acts w) = emitted w ++ l.
Proof.
  revert w; induction acts as [|a acts IH]; intros w; simpl.
  - exists []. rewrite app_nil_r; reflexivity.
  - destruct (step_summary a w) as (evs & He & _).
    destruct (IH (step a w)) as [l Hl].
    exists (evs ++ l). rewrite Hl, He, app_assoc. reflexivity.
Qed.

Lemma run_emitted (acts : list Action) (w : World) :
  emitted (run acts w) = emitted w ++ since w (run acts w).
Proof.
  destruct (run_extends acts w) as [l Hl].
  rewrite (@since_app w (run acts w) l Hl). exact Hl.
Qed.

Lemma since_step (a : Action) (acts : list Action) (w : World) :
  since w (run acts (step a w))
  = since w (step a w) ++ since (step a w) (run acts (step a w)).
Proof.
  pose proof (run_emitted [a] w) as H1. simpl in H1.
  pose proof (run_emitted acts (step a w)) as H2.
  apply since_app. rewrite H2, H1 at 1. rewrite app_assoc. reflexivity.
Qed.

(** The invariant of the event bus. *)
Lemma bus_invariant (acts : list Action) :
  let w := run acts initial in
  sequence w = Z.of_nat (List.length (emitted w))
  /\ map e_sequence (emitted w) = upFrom 1 (List.length (emitted w))
  /\ Within (eventLog w) (emitted w).
Proof.
  induction acts as [|a acts IH] using rev_ind; simpl.
  - repeat split. constructor.
  - rewrite run_app. simpl. destruct IH as (Hq & Hm & Hl).
    set (w := run acts initial) in *.
    destruct (step_summary a w) as (evs & He & Hn & Hs & Hw & _).
    rewrite He, Hs, length_app, map_app, Hm, Hq.
    split; [lia|]. split.
    + destruct Hn as [-> | [e [-> Hseq]]]; simpl.
      * rewrite Nat.add_0_r, app_nil_r; reflexivity.
      * rewrite Hseq, Hq. clear.
        generalize (List.length (emitted w)) as n.
        assert (G : forall n from,
                   upFrom from n ++ [from + Z.of_nat n] = upFrom from (n + 1)).
        { induction n as [|n IH]; intros from; simpl.
          - rewrite Z.add_0_r; reflexivity.
          - f_equal. rewrite <- IH. f_equal. f_equal. lia. }
        intros n. rewrite <- G. f_equal. f_equal. lia.
    + eapply Within_trans; [exact Hw|].
      apply Within_app; [exact Hl | apply Within_refl].
Qed.

End Runs.

(* ------------------------------------------------------------------------- *)
(** ** Properties: the event sequence                                        *)
(* ------------------------------------------------------------------------- *)

Lemma upFrom_bounds (from : Z) (n : nat) (x : Z) :
  In x (Spec.upFrom from n) -> from <= x < from + Z.of_nat n.
Proof.
  revert from; induction n as [|n IH]; intros from; simpl; [tauto|].
  intros [<-|H]; [lia|]. apply IH in H. lia.
Qed.

Lemma upFrom_sorted (from : Z) (n : nat) :
  StronglySorted Z.lt (Spec.upFrom from n).
Proof.
  revert from; induction n as [|n IH]; intros from; simpl; constructor.
  - apply IH.
  - apply Forall_forall. intros x Hx. apply upFrom_bounds in Hx. lia.
Qed.

Lemma Within_sorted {A} (R : A -> A -> Prop) (l l' : list A) :
  Spec.Within l l' -> StronglySorted R l' -> StronglySorted R l.
Proof.
  induction 1 as [|x l l' H IH|x l l' H IH]; intros Hs; auto.
  - inversion Hs; subst; auto.
  - inversion Hs as [|? ? Hs' Hall]; subst. constructor; auto.
    rewrite Forall_forall in *. intros y Hy. apply Hall.
    eapply Within_In; eauto.
Qed.

Lemma sorted_NoDup (l : list Z) : StronglySorted Z.lt l -> NoDup l.
Proof.
  induction 1 as [|x l Hs IH Hall]; constructor; auto.
  intros Hin. rewrite Forall_forall in Hall. apply Hall in Hin. lia.
Qed.

(** C5. Within one process lifetime the event sequence numbers come from a
    single counter: after any run of requests, timer ticks, disconnects and
    retention sweeps from the start of the process, the events issued so far
    carry, in order of issue, the numbers 1, 2, ..., n (first value 1,
    strictly increasing, without gap), the counter stands at n, no number is
    carried twice, the log holds issued events only (retention removes,
    never renumbers) in increasing order, and whatever the next turn issues
    carries n + 1. *)
Theorem event_sequence_single_counter
        {P : Platform} (acts : list Router.Action) (next : Router.Action) :
  let w := Router.run acts Model.initial in
  map Model.e_sequence (Model.emitted w)
  = Spec.upFrom 1 (List.length (Model.emitted w))
  /\ Model.sequence w = Z.of_nat (List.length (Model.emitted w))
  /\ StronglySorted Z.lt (map Model.e_sequence (Model.emitted w))
  /\ NoDup (map Model.e_sequence (Model.emitted w))
  /\ Spec.Within (Model.eventLog w) (Model.emitted w)
  /\ StronglySorted Z.lt (map Model.e_sequence (Model.eventLog w))
  /\ Forall (fun e => Model.e_sequence e = Model.sequence w + 1)
            (Spec.since w (Router.step next w)).
Proof.
  intros w. destruct (bus_invariant acts) as (Hq & Hm & Hl). fold w in Hq, Hm, Hl.
  assert (Hs : StronglySorted Z.lt (map Model.e_sequence (Model.emitted w))).
  { rewrite Hm. apply upFrom_sorted. }
  repeat split; auto.
  - apply sorted_NoDup; exact Hs.
  - eapply Within_sorted; [apply Within_map; exact Hl | exact Hs].
  - destruct (step_summary next w) as (evs & He & Hn & _).
    erewrite since_app by exact He.
    destruct Hn as [-> | [e [-> Hseq]]]; repeat constructor; auto.
Qed.

(* ------------------------------------------------------------------------- *)
(** ** Properties: routing                                                   *)
(* ------------------------------------------------------------------------- *)

Section Routing.
Import Js Json Model Http Router Spec.

Lemma isSegment_parts (id : jsstring) :
  isSegment id = true ->
  Js.truthy id = true /\ forallb (fun c => negb (c =? 47)%N) id = true.
Proof. unfold isSegment. intros H; apply andb_true_iff in H; exact H. Qed.

Lemma splitSlash_segment (cur s rest : jsstring) :
  forallb (fun c => negb (c =? 47)%N) s = true ->
  splitSlash cur (s ++ rest) = splitSlash (rev s ++ cur) rest.
Proof.
  revert cur; induction s as [|c s IH]; intros cur H; simpl in *; auto.
  apply andb_true_iff in H. destruct H as [Hc Hs].
  destruct (c =? 47)%N; [discriminate|].
  rewrite IH by assumption. rewrite <- app_assoc. reflexivity.
Qed.

Lemma split_tail (cur id : jsstring) :
  forallb (fun c => negb (c =? 47)%N) id = true ->
  splitSlash cur id = [rev cur ++ id].
Proof.
  intros H. rewrite <- (app_nil_r id) at 1.
  rewrite splitSlash_segment by assumption. simpl.
  rewrite rev_app_distr, rev_involutive. reflexivity.
Qed.

Ltac route H :=
  let Ht := fresh "Ht" in
  let Hs := fresh "Hs" in
  unfold matchRoute, routes; simpl; unfold matchPattern; simpl;
  apply isSegment_parts in H; destruct H as [Ht Hs];
  rewrite ?(split_tail [] _ Hs), ?(splitSlash_segment [] _ _ Hs); simpl;
  rewrite ?app_nil_r, ?rev_involutive, ?Ht; simpl;
  rewrite ?Ht; reflexivity.

Lemma route_patch_annotation (id : jsstring) :
  isSegment id = true ->
  matchRoute (str "PATCH") (str "/annotations/" ++ id)
  = Some (UpdateAnnotation, [(str "id", id)]).
Proof. intros H. route H. Qed.

Lemma route_delete_annotation (id : jsstring) :
  isSegment id = true ->
  matchRoute (str "DELETE") (str "/annotations/" ++ id)
  = Some (DeleteAnnotation, [(str "id", id)]).
Proof. intros H. route H. Qed.

Lemma route_post_thread (id : jsstring) :
  isSegment id = true ->
  matchRoute (str "POST") (str "/annotations/" ++ id ++ str "/thread")
  = Some (AddThread, [(str "id", id)]).
Proof. intros H. route H. Qed.


Lemma route_get_session_events (id : jsstring) :
  isSegment id = true ->
  matchRoute (str "GET") (str "/sessions/" ++ id ++ str "/events")
  = Some (SessionSse, [(str "id", id)]).
Proof. intros H. route H. Qed.

Lemma route_get_session_pending (id : jsstring) :
  isSegment id = true ->
  matchRoute (str "GET") (str "/sessions/" ++ id ++ str "/pending")
  = Some (GetPending, [(str "id", id)]).
Proof. intros H. route H. Qed.

End Routing.

Section Dispatch.
Context {P : Platform}.
Import Js Json Model StoreRead Http Router Spec.

Ltac routed Hm Hp :=
  unfold handleRequest; rewrite Hm, Hp;
  match goal with
  | |- context [if Js.truthy ?m then ?m else ?d] =>
      change (if Js.truthy m then m else d) with m
  end.

Lemma handle_session_events (c : ConnId) (env : Env) (req : Request)
      (w : World) (sid : jsstring) :
  method req = str "GET" ->
  pathname req = str "/sessions/" ++ sid ++ str "/events" ->
  isSegment sid = true ->
  handleRequest c env req w = sseHandler c sid req w.
Proof.
  intros Hm Hp Hs. routed Hm Hp.
  rewrite (route_get_session_events _ Hs). reflexivity.
Qed.

Lemma handle_session_pending (c : ConnId) (env : Env) (req : Request)
      (w : World) (sid : jsstring) :
  method req = str "GET" ->
  pathname req = str "/sessions/" ++ sid ++ str "/pending" ->
  isSegment sid = true ->
  handleRequest c env req w = getPendingHandler sid w.
Proof.
  intros Hm Hp Hs. routed Hm Hp.
  rewrite (route_get_session_pending _ Hs). reflexivity.
Qed.


Lemma handle_patch (c : ConnId) (env : Env) (req : Request)
      (w : World) (id : jsstring) :
  method req = str "PATCH" ->
  pathname req = str "/annotations/" ++ id ->
  isSegment id = true ->
  handleRequest c env req w = updateAnnotationHandler id env req w.
Proof.
  intros Hm Hp Hs. routed Hm Hp.
  rewrite (route_patch_annotation _ Hs). reflexivity.
Qed.

Lemma handle_delete (c : ConnId) (env : Env) (req : Request)
      (w : World) (id : jsstring) :
  method req = str "DELETE" ->
  pathname req = str "/annotations/" ++ id ->
  isSegment id = true ->
  handleRequest c env req w = deleteAnnotationHandler id env w.
Proof.
  intros Hm Hp Hs. routed Hm Hp.
  rewrite (route_delete_annotation _ Hs). reflexivity.
Qed.

Lemma handle_thread (c : ConnId) (env : Env) (req : Request)
      (w : World) (id : jsstring) :
  method req = str "POST" ->
  pathname req = str "/annotations/" ++ id ++ str "/thread" ->
  isSegment id = true ->
  handleRequest c env req w = addThreadHandler id env req w.
Proof.
  intros Hm Hp Hs. routed Hm Hp.
  rewrite (route_post_thread _ Hs). reflexivity.
Qed.

Lemma handle_events (c : ConnId) (env : Env) (req : Request) (w : World) :
  method req = str "GET" ->
  pathname req = str "/events" ->
  handleRequest c env req w = globalSseHandler c req w.
Proof.
  intros Hm Hp. routed Hm Hp. reflexivity.
Qed.

End Dispatch.

(* ------------------------------------------------------------------------- *)
(** ** Properties: the per-session stream                                    *)
(* ------------------------------------------------------------------------- *)

Section SessionStream.
Context {P : Platform}.
Import Js Json Model StoreRead Http Router Spec.

Lemma eqb_sym (a b : jsstring) : eqb a b = eqb b a.
Proof.
  destruct (eqb a b) eqn:E.
  - apply eqb_eq in E. subst. symmetry. apply eqb_refl.
  - symmetry. apply eqb_neq. apply eqb_neq in E. congruence.
Qed.

Lemma flat_map_filter {A} (f : A -> bool) (l : list A) :
  flat_map (fun x => if f x then [x] else []) l = filter f l.
Proof.
  induction l as [|x l IH]; simpl; auto. rewrite IH. destruct (f x); auto.
Qed.

Lemma parseInt_truthy (h : jsstring) (n : Z) :
  parseInt h = Some n -> Js.truthy h = true.
Proof. destruct h; [discriminate | reflexivity]. Qed.

(** While response [c] holds the subscription of [sseHandler] and is not
    touched, it receives the events of its session, as they are issued. *)
Lemma session_run (c : ConnId) (sid : jsstring) (post : list Action)
      (w : World) :
  untouched c post ->
  subsOf c w = [{| sub_scope := Some sid; sub_sink := ToSession c |}] ->
  framesOf c (run post w)
  = framesOf c w ++ filter (ofSession sid) (since w (run post w)).
Proof.
  unfold untouched. revert w.
  induction post as [|a post IH]; intros w Hu Hs; simpl.
  - unfold since. rewrite skipn_all, app_nil_r. reflexivity.
  - simpl in Hu. apply andb_true_iff in Hu. destruct Hu as [Ha Hu].
    apply negb_true_iff in Ha.
    destruct (step_summary a w) as (evs & He & _ & _ & _ & Hc).
    destruct (Hc c Ha) as [Hsub Hf].
    rewrite IH by (auto; congruence).
    rewrite since_step, filter_app, app_assoc. f_equal.
    rewrite Hf. f_equal. erewrite since_app by exact He.
    rewrite Hs. simpl. rewrite <- flat_map_filter.
    apply flat_map_ext. intros e. unfold sinkFrames, ofSession. simpl.
    rewrite Nat.eqb_refl, app_nil_r, andb_true_r. simpl.
    unfold EventBus.inScope. simpl. rewrite eqb_sym. reflexivity.
Qed.

(** What [sseHandler] leaves when the session exists and the header
    parses. *)
Lemma sse_opened (c : ConnId) (sid h : jsstring) (n : Z) (req : Request)
      (w : World) (s : Session) :
  getSession sid w = Some s ->
  lastEventId req = Some h ->
  parseInt h = Some n ->
  fst (sseHandler c sid req w) = EventStream
  /\ emitted (snd (sseHandler c sid req w)) = emitted w
  /\ subsOf c (snd (sseHandler c sid req w))
     = subsOf c w ++ [{| sub_scope := Some sid; sub_sink := ToSession c |}]
  /\ framesOf c (snd (sseHandler c sid req w))
     = framesOf c w
       ++ filter (fun e => eqb (e_sessionId e) sid && (n <? e_sequence e))
                 (eventLog w).
Proof.
  intros Hs Hh Hn. unfold sseHandler, getSessionWithAnnotations.
  rewrite Hs. simpl.
  unfold replay. rewrite Hh, (parseInt_truthy _ Hn), Hn.
  set (w' := Sse.write c (Comment (str "connected")) (trackConnection c w)).
  set (evs := getEventsSince sid n None w').
  destruct (sendAll_same c evs w') as (_ & _ & _ & _ & Hsub & _ & He).
  repeat split.
  - rewrite He. reflexivity.
  - unfold subsOf. simpl. rewrite Hsub. simpl. rewrite filter_app. simpl.
    rewrite Nat.eqb_refl. reflexivity.
  - transitivity (framesOf c (sendAll c evs w')); [reflexivity|].
    rewrite sendAll_frames, Nat.eqb_refl. unfold w'.
    rewrite framesOf_write, app_nil_r. reflexivity.
Qed.

End SessionStream.

(** C4. A connection to GET /sessions/:id/events that carries a numeric
    Last-Event-ID [n] is first sent, in log order, exactly the logged events
    of the session whose sequence is strictly greater than [n]; afterwards,
    as long as the connection stays open, it is sent exactly the events of
    the session issued from then on, in the order of issue.  The frames are
    in strictly increasing sequence order over the replay and the live part
    together, and no logged event above [n] and no later event of the
    session is missing. *)
Theorem sse_replay_then_live
        {P : Platform} (pre post : list Router.Action) (c : Model.ConnId)
        (env : Model.Env) (req : Http.Request) (sid h : Js.jsstring) (n : Z)
        (s : Model.Session) :
  let w0 := Router.run pre Model.initial in
  let w1 := Router.step (Router.Incoming c env req) w0 in
  let w2 := Router.run post w1 in
  let replayed :=
    filter (fun e => Js.eqb (Model.e_sessionId e) sid
                     && (n <? Model.e_sequence e)) (Model.eventLog w0) in
  let live := filter (Spec.ofSession sid) (Spec.since w1 w2) in
  Http.method req = Js.str "GET" ->
  Http.pathname req = Js.str "/sessions/" ++ sid ++ Js.str "/events" ->
  Spec.isSegment sid = true ->
  StoreRead.getSession sid w0 = Some s ->
  Http.lastEventId req = Some h ->
  Js.parseInt h = Some n ->
  Spec.unused c w0 ->
  Spec.untouched c post ->
  fst (Router.handleRequest c env req w0) = Http.EventStream
  /\ Router.framesOf c w1 = replayed
  /\ Spec.since w0 w1 = []
  /\ Router.framesOf c w2 = replayed ++ live
  /\ StronglySorted Z.lt (map Model.e_sequence (replayed ++ live))
  /\ (forall e, In e (Model.eventLog w0) -> Model.e_sessionId e = sid ->
                n < Model.e_sequence e -> In e replayed)
  /\ (forall e, In e (Spec.since w1 w2) -> Model.e_sessionId e = sid ->
                In e live).
Proof.
  intros w0 w1 w2 replayed live Hm Hp Hseg Hs Hh Hn [Hsubs Hframes] Hpost.
  assert (Hw1 : w1 = snd (Http.sseHandler c sid req w0)).
  { unfold w1. simpl. rewrite (handle_session_events c env req w0 sid Hm Hp Hseg).
    reflexivity. }
  destruct (sse_opened c sid req w0 Hs Hh Hn) as (Hr & He & Hsub & Hf).
  rewrite <- Hw1 in He, Hsub, Hf. rewrite Hsubs in Hsub. rewrite Hframes in Hf.
  simpl in Hsub, Hf. fold replayed in Hf.
  assert (Hlive : Router.framesOf c w2 = replayed ++ live).
  { unfold w2. rewrite (session_run w1 Hpost Hsub), Hf. reflexivity. }
  split; [rewrite (handle_session_events c env req w0 sid Hm Hp Hseg); exact Hr|].
  split; [exact Hf|].
  split; [apply since_app; rewrite He, app_nil_r; reflexivity|].
  split; [exact Hlive|].
  split; [|split].
  - assert (Hw2 : Router.run (pre ++ Router.Incoming c env req :: post)
                             Model.initial = w2)
      by (rewrite run_app; reflexivity).
    destruct (bus_invariant (pre ++ Router.Incoming c env req :: post))
      as (_ & Hm2 & _).
    rewrite Hw2 in Hm2.
    destruct (bus_invariant pre) as (_ & _ & Hl0). fold w0 in Hl0.
    apply Within_sorted with (l' := map Model.e_sequence (Model.emitted w2));
      [|rewrite Hm2; apply upFrom_sorted].
    apply Within_map.
    unfold w2 at 1. rewrite run_emitted. fold w2. rewrite He.
    apply Within_app.
    + eapply Within_trans; [apply Within_filter | exact Hl0].
    + apply Within_filter.
  - intros e Hin Hsid Hlt. apply filter_In. split; auto.
    rewrite Hsid, eqb_refl. simpl. apply Z.ltb_lt. exact Hlt.
  - intros e Hin Hsid. apply filter_In. split; auto.
    unfold Spec.ofSession. rewrite Hsid. apply eqb_refl.
Qed.

(* ------------------------------------------------------------------------- *)
(** ** Properties: the site-level stream                                     *)
(* ------------------------------------------------------------------------- *)

Section DomainStream.
Context {P : Platform}.
Import Js Json Model StoreRead Http Router Spec.

(** While response [c] holds the subscription of [globalSseHandler] and is
    not touched, it receives the events of the domain, as they are
    issued. *)
Lemma domain_run (c : ConnId) (d : jsstring) (post : list Action)
      (w : World) :
  untouched c post ->
  subsOf c w = [{| sub_scope := None; sub_sink := ToDomain c d |}] ->
  framesOf c (run post w) = framesOf c w ++ ofDomain d post w.
Proof.
  unfold untouched. revert w.
  induction post as [|a post IH]; intros w Hu Hs; simpl.
  - rewrite app_nil_r. reflexivity.
  - simpl in Hu. apply andb_true_iff in Hu. destruct Hu as [Ha Hu].
    apply negb_true_iff in Ha.
    destruct (step_summary a w) as (evs & He & _ & _ & _ & Hc).
    destruct (Hc c Ha) as [Hsub Hf].
    rewrite IH by (auto; congruence).
    rewrite app_assoc. f_equal.
    rewrite Hf. f_equal. erewrite since_app by exact He.
    rewrite Hs. simpl. rewrite <- flat_map_filter.
    apply flat_map_ext. intros e. unfold sinkFrames. simpl.
    rewrite Nat.eqb_refl, app_nil_r. reflexivity.
Qed.

Lemma domain_opened (c : ConnId) (d : jsstring) (req : Request) (w : World) :
  domain req = Some d ->
  d <> [] ->
  fst (globalSseHandler c req w) = EventStream
  /\ emitted (snd (globalSseHandler c req w)) = emitted w
  /\ subsOf c (snd (globalSseHandler c req w))
     = subsOf c w ++ [{| sub_scope := None; sub_sink := ToDomain c d |}]
  /\ framesOf c (snd (globalSseHandler c req w)) = framesOf c w.
Proof.
  intros Hd Hne. unfold globalSseHandler. rewrite Hd.
  destruct d as [|x d]; [congruence|]. simpl. repeat split.
  - unfold subsOf. simpl. rewrite filter_app. simpl.
    rewrite Nat.eqb_refl. reflexivity.
  - unfold framesOf. simpl. rewrite flat_map_app. simpl.
    rewrite app_nil_r. reflexivity.
Qed.

End DomainStream.

(** C6. GET /events without a domain query parameter (absent, or empty) is
    answered 400 with an error body and changes nothing.  With a domain [d],
    the connection is answered with an event stream and, as long as it stays
    open, is sent exactly the events whose owning session is known and has an
    origin URL with host [d], in the order of issue; for an event whose
    session URL does not parse the callback writes nothing. *)
Theorem domain_stream_filters_by_host
        {P : Platform} (c : Model.ConnId) (env : Model.Env) (req : Http.Request)
        (w : Model.World) :
  Http.method req = Js.str "GET" ->
  Http.pathname req = Js.str "/events" ->
  (Http.domain req = None \/ Http.domain req = Some [] ->
   Router.handleRequest c env req w
   = (Http.Json 400 (Spec.errorBody "domain query parameter required"), w))
  /\ (forall d post,
         Http.domain req = Some d -> d <> [] ->
         Spec.unused c w -> Spec.untouched c post ->
         let w1 := Router.step (Router.Incoming c env req) w in
         fst (Router.handleRequest c env req w) = Http.EventStream
         /\ Router.framesOf c w1 = []
         /\ Router.framesOf c (Router.run post w1) = Spec.ofDomain d post w1
         /\ (forall e w' s,
                StoreRead.getSession (Model.e_sessionId e) w' = Some s ->
                urlHost (Model.s_url s) = None ->
                Spec.ownerHostIs d w' e = false
                /\ Sse.runSink (Model.ToDomain c d) e w' = w')).
Proof.
  intros Hm Hp. rewrite (handle_events c env req w Hm Hp). split.
  - unfold Http.globalSseHandler. intros [-> | ->]; reflexivity.
  - intros d post Hd Hne [Hsubs Hframes] Hpost w1.
    assert (Hw1 : w1 = snd (Http.globalSseHandler c req w)).
    { unfold w1. simpl. rewrite (handle_events c env req w Hm Hp).
      reflexivity. }
    destruct (domain_opened c req w Hd Hne) as (Hr & He & Hsub & Hf).
    rewrite <- Hw1 in He, Hsub, Hf. rewrite Hsubs in Hsub.
    rewrite Hframes in Hf. simpl in Hsub.
    split; [exact Hr|]. split; [exact Hf|]. split.
    + rewrite (domain_run w1 Hpost Hsub), Hf. reflexivity.
    + intros e w' s Hs Hu. unfold Spec.ownerHostIs. simpl.
      rewrite Hs, Hu. split; reflexivity.
Qed.

(* ------------------------------------------------------------------------- *)
(** ** Properties: status changes                                            *)
(* ------------------------------------------------------------------------- *)

Section Patch.
Context {P : Platform}.
Import Js Json Model StoreRead Http Router Spec.

Lemma statusOfName_name (s : AnnotationStatus) :
  statusOfName (statusName s) = Some s.
Proof. destruct s; reflexivity. Qed.

Lemma status_eqb_eq (a b : AnnotationStatus) :
  status_eqb a b = true <-> a = b.
Proof. destruct a, b; simpl; split; congruence. Qed.

Lemma nextStatus_change (cur s s' : AnnotationStatus) :
  s <> cur ->
  Store.nextStatus cur (Some s) = Ok s' ->
  Store.legalTransition cur s = true /\ s' = s.
Proof.
  intros Hne. unfold Store.nextStatus.
  destruct (status_eqb cur s) eqn:E.
  - apply status_eqb_eq in E. congruence.
  - destruct (Store.legalTransition cur s); [|discriminate].
    intros [= <-]. auto.
Qed.

Lemma nextStatus_illegal (cur s : AnnotationStatus) :
  s <> cur ->
  Store.legalTransition cur s = false ->
  exists m, Store.nextStatus cur (Some s) = Throw m.
Proof.
  intros Hne Hl. unfold Store.nextStatus. rewrite Hl.
  destruct (status_eqb cur s) eqn:E; [|eauto].
  apply status_eqb_eq in E. congruence.
Qed.

Lemma find_put (v : Annotation) (l : list Annotation) :
  find (fun a => eqb (a_id a) (a_id v)) (Store.put a_id v l) = Some v.
Proof.
  induction l as [|x l IH]; simpl.
  - rewrite eqb_refl. reflexivity.
  - destruct (eqb (a_id x) (a_id v)) eqn:E; simpl.
    + rewrite eqb_refl. reflexivity.
    + rewrite E. exact IH.
Qed.

Lemma getAnnotation_emit (id : jsstring) (ty : EventType) (sid : jsstring)
      (p : Payload) (t : Z) (w : World) :
  getAnnotation id (EventBus.emit ty sid p t w) = getAnnotation id w.
Proof.
  destruct (emit_spec ty sid p t w)
    as (e & _ & _ & _ & _ & _ & _ & _ & _ & Ha & _).
  unfold getAnnotation. rewrite Ha. reflexivity.
Qed.

(** The two ways PATCH /annotations/:id ends for a stored annotation and
    an object body. *)
Lemma patch_outcome (id : jsstring) (env : Env) (req : Request) (w : World)
      (a : Annotation) (o : list (jsstring * json)) :
  body req = Parsed (JObj o) ->
  getAnnotation id w = Some a ->
  (exists m, Store.applyPatch a o (now env) = Throw m
             /\ updateAnnotationHandler id env req w
                = (sendError 400 m, w))
  \/ (exists a', Store.applyPatch a o (now env) = Ok a'
                 /\ fst (updateAnnotationHandler id env req w)
                    = sendJson 200 (annotationJson a')
                 /\ getAnnotation id (snd (updateAnnotationHandler id env req w))
                    = Some a').
Proof.
  intros Hb Ha. unfold updateAnnotationHandler, parseBody, catch400.
  rewrite Hb. simpl. rewrite Ha. unfold Store.updateAnnotation.
  rewrite Ha. simpl.
  destruct (Store.applyPatch a o (now env)) as [a'|m] eqn:E; simpl.
  - right. exists a'. repeat split; auto.
    rewrite getAnnotation_emit. unfold getAnnotation. simpl.
    apply applyPatch_keeps in E. destruct E as (Hid & _).
    apply getAnnotation_some in Ha. destruct Ha as [_ Hida].
    rewrite <- Hida, <- Hid. apply find_put.
  - left. exists m. auto.
Qed.

(** A requested change of status: the answer is 200 and the status is the
    requested one only along a legal edge; off the lattice the answer is
    400 and nothing changes. *)
Lemma patch_status (id : jsstring) (env : Env) (req : Request) (w : World)
      (a : Annotation) (o : list (jsstring * json)) (s : AnnotationStatus) :
  body req = Parsed (JObj o) ->
  getAnnotation id w = Some a ->
  field (str "status") o = Some (JStr (statusName s)) ->
  s <> a_status a ->
  let r := updateAnnotationHandler id env req w in
  (Store.legalTransition (a_status a) s = false ->
   statusOf (fst r) = 400 /\ snd r = w)
  /\ (statusOf (fst r) = 200 ->
      Store.legalTransition (a_status a) s = true
      /\ exists a', getAnnotation id (snd r) = Some a' /\ a_status a' = s)
  /\ (statusOf (fst r) = 200 \/ statusOf (fst r) = 400 /\ snd r = w).
Proof.
  intros Hb Ha Hf Hne r.
  destruct (patch_outcome id env req w Hb Ha)
    as [(m & E & Hr) | (a' & E & Hr & Hg)]; fold r in Hr; try fold r in Hg.
  - rewrite Hr. simpl. repeat split; auto; try discriminate.
  - rewrite Hr. simpl.
    apply applyPatch_keeps in E. destruct E as (_ & _ & _ & Hn).
    rewrite Hf, statusOfName_name in Hn.
    destruct (nextStatus_change Hne Hn) as [Hl Hs].
    split; [intros H; rewrite Hl in H; discriminate|].
    split; [|left; reflexivity].
    intros _. split; [exact Hl|]. exists a'. auto.
Qed.

End Patch.

Section ToolsOnLattice.
Context {P : Platform}.
Import Js Json Model StoreRead Http Router Spec.

(** The PATCH of the resolve and dismiss tools on the co-hosted server. *)
Lemma loopback_status_patch (supply : World -> ConnId * Env) (id : jsstring)
      (status : string) (s : AnnotationStatus) (a : Annotation) (w : World) :
  statusName s = str status ->
  isSegment id = true ->
  urlPathname (Mcp.annotationPath id) = Mcp.annotationPath id ->
  getAnnotation id w = Some a ->
  s <> a_status a ->
  Store.legalTransition (a_status a) s = false ->
  exists m,
    Broker.loopback supply
      {| Mcp.c_method := str "PATCH"; Mcp.c_path := Mcp.annotationPath id;
         Mcp.c_body := Some (Mcp.statusPatch status) |} w
    = (Mcp.Replied 400 (JObj [(str "error", JStr m)]), w).
Proof.
  intros Hname Hseg Hurl Ha Hne Hl. unfold Broker.loopback.
  destruct (supply w) as [c env].
  set (req := Broker.toRequest _).
  assert (Hreq : handleRequest c env req w
                 = updateAnnotationHandler id env req w).
  { apply handle_patch; auto. }
  rewrite Hreq.
  assert (Hb : body req = Parsed (JObj [(str "status", JStr (str status));
                                        (str "resolvedBy", JStr (str "agent"))]))
    by reflexivity.
  destruct (patch_outcome id env req w Hb Ha)
    as [(m & E & Hr) | (a' & E & _)].
  - rewrite Hr. exists m. reflexivity.
  - exfalso. apply applyPatch_keeps in E. destruct E as (_ & _ & _ & Hn).
    simpl in Hn. rewrite <- Hname, statusOfName_name in Hn.
    destruct (nextStatus_change Hne Hn) as [Hl' _]. congruence.
Qed.

Lemma resolve_off_lattice (supply : World -> ConnId * Env) (id : jsstring)
      (args : option json) (a : Annotation) (w : World) :
  isSegment id = true ->
  urlPathname (Mcp.annotationPath id) = Mcp.annotationPath id ->
  Mcp.schemaString args "annotationId" = Ok id ->
  getAnnotation id w = Some a ->
  a_status a = Pending \/ a_status a = Dismissed ->
  exists r, Broker.callTool supply (str "agentation_resolve") args w
            = (Mcp.Returned r, w)
            /\ Mcp.isError r = true.
Proof.
  intros Hseg Hurl Hid Ha Hst.
  destruct (@loopback_status_patch supply id "resolved" Resolved a w)
    as [m Hm]; auto.
  { destruct Hst as [-> | ->]; discriminate. }
  { destruct Hst as [-> | ->]; reflexivity. }
  unfold Broker.callTool, Mcp.callTool, Mcp.handleTool. simpl.
  unfold Mcp.catch, Mcp.bind, Mcp.lift. rewrite Hid. simpl.
  destruct (Mcp.schemaOptString args "summary") as [summary|msg]; simpl;
    [|eexists; split; reflexivity].
  unfold Mcp.httpPatch, Mcp.request. rewrite Hm. simpl.
  unfold Mcp.notFoundOr.
  destruct (includes _ _); simpl; eexists; split; reflexivity.
Qed.

Lemma dismiss_off_lattice (supply : World -> ConnId * Env) (id : jsstring)
      (args : option json) (a : Annotation) (w : World) :
  isSegment id = true ->
  urlPathname (Mcp.annotationPath id) = Mcp.annotationPath id ->
  Mcp.schemaString args "annotationId" = Ok id ->
  getAnnotation id w = Some a ->
  a_status a = Resolved ->
  exists r, Broker.callTool supply (str "agentation_dismiss") args w
            = (Mcp.Returned r, w)
            /\ Mcp.isError r = true.
Proof.
  intros Hseg Hurl Hid Ha Hst.
  destruct (@loopback_status_patch supply id "dismissed" Dismissed a w)
    as [m Hm]; auto.
  { rewrite Hst; discriminate. }
  { rewrite Hst; reflexivity. }
  unfold Broker.callTool, Mcp.callTool, Mcp.handleTool. simpl.
  unfold Mcp.catch, Mcp.bind, Mcp.lift. rewrite Hid. simpl.
  destruct (Mcp.schemaString args "reason") as [reason|msg]; simpl;
    [|eexists; split; reflexivity].
  unfold Mcp.httpPatch, Mcp.request. rewrite Hm. simpl.
  unfold Mcp.notFoundOr.
  destruct (includes _ _); simpl; eexists; split; reflexivity.
Qed.

End ToolsOnLattice.

(** C3. A status change requested through PATCH /annotations/:id succeeds
    only along an edge of the lattice (pending -> acknowledged, pending ->
    dismissed, acknowledged -> resolved, acknowledged -> dismissed, resolved
    -> pending, dismissed -> pending): a 200 answer means the edge is legal
    and the annotation now has the requested status; off the lattice the
    answer is 400 and the state is untouched, in particular for "resolved"
    requested on a pending annotation.  The resolve and dismiss tools issue
    their change through the same route: on an annotation from which
    resolved, respectively dismissed, is not a legal edge they return an
    error result and change nothing. *)
Theorem status_changes_follow_lattice
        {P : Platform} (c : Model.ConnId) (env : Model.Env) (req : Http.Request)
        (w : Model.World) (id : Js.jsstring) (a : Model.Annotation)
        (o : list (Js.jsstring * Json.json)) (s : Model.AnnotationStatus) :
  Http.method req = Js.str "PATCH" ->
  Http.pathname req = Js.str "/annotations/" ++ id ->
  Spec.isSegment id = true ->
  Http.body req = Http.Parsed (Json.JObj o) ->
  StoreRead.getAnnotation id w = Some a ->
  Json.field (Js.str "status") o = Some (Json.JStr (Model.statusName s)) ->
  s <> Model.a_status a ->
  let r := Router.handleRequest c env req w in
  (Store.legalTransition (Model.a_status a) s = true <->
   In (Model.a_status a, s)
      [(Model.Pending, Model.Acknowledged); (Model.Pending, Model.Dismissed);
       (Model.Acknowledged, Model.Resolved);
       (Model.Acknowledged, Model.Dismissed);
       (Model.Resolved, Model.Pending); (Model.Dismissed, Model.Pending)])
  /\ (Store.legalTransition (Model.a_status a) s = false ->
      Http.statusOf (fst r) = 400 /\ snd r = w)
  /\ (Http.statusOf (fst r) = 200 ->
      Store.legalTransition (Model.a_status a) s = true
      /\ exists a', StoreRead.getAnnotation id (snd r) = Some a'
                    /\ Model.a_status a' = s)
  /\ (Model.a_status a = Model.Pending -> s = Model.Resolved ->
      Http.statusOf (fst r) = 400)
  /\ (forall supply args,
         urlPathname (Mcp.annotationPath id) = Mcp.annotationPath id ->
         Mcp.schemaString args "annotationId" = Ok id ->
         (Model.a_status a = Model.Pending
          \/ Model.a_status a = Model.Dismissed ->
          exists t, Broker.callTool supply (Js.str "agentation_resolve") args w
                    = (Mcp.Returned t, w) /\ Mcp.isError t = true)
         /\ (Model.a_status a = Model.Resolved ->
             exists t, Broker.callTool supply (Js.str "agentation_dismiss")
                                       args w
                       = (Mcp.Returned t, w) /\ Mcp.isError t = true)).
Proof.
  intros Hm Hp Hseg Hb Ha Hf Hne r.
  assert (Hr : r = Http.updateAnnotationHandler id env req w)
    by (apply handle_patch; auto).
  destruct (patch_status id env req w Hb Ha Hf Hne) as (Hbad & Hgood & _).
  rewrite <- Hr in Hbad, Hgood.
  split; [|split; [exact Hbad|split; [exact Hgood|split]]].
  - destruct (Model.a_status a), s; simpl; split; intros H;
      try reflexivity; try discriminate; try tauto;
      repeat (destruct H as [H|H]; try discriminate H); try contradiction.
  - intros Hp' ->. apply Hbad. rewrite Hp'. reflexivity.
  - intros supply args Hurl Hid. split; intros Hst.
    + apply resolve_off_lattice with (id := id) (a := a); auto.
    + apply dismiss_off_lattice with (id := id) (a := a); auto.
Qed.

(* ------------------------------------------------------------------------- *)
(** ** Properties: deletion                                                  *)
(* ------------------------------------------------------------------------- *)

Section Delete.
Context {P : Platform}.
Import Js Json Model StoreRead Http Router Spec.

Lemma effect_ids (c : ConnId) (env : Env) (w w' : World) (x : jsstring) :
  Effect c env w w' ->
  In x (map a_id (annotations w')) ->
  x = newId env \/ In x (map a_id (annotations w)).
Proof.
  intros [ | ty sid p ss aa Hids | sid req | d]; auto.
  - destruct (emit_spec ty sid p (now env) (Store.setStore ss aa w))
      as (e & _ & _ & _ & _ & _ & _ & _ & _ & Ha & _).
    rewrite Ha. simpl. apply Hids.
  - destruct (replay_same c sid req
                (Sse.write c (Comment (str "connected")) (trackConnection c w)))
      as (_ & Ha & _).
    simpl. rewrite Ha. auto.
Qed.

Lemma step_ids (a : Action) (w : World) (x : jsstring) :
  In x (map a_id (annotations (step a w))) ->
  (exists c env req, a = Incoming c env req /\ x = newId env)
  \/ In x (map a_id (annotations w)).
Proof.
  destruct a as [c env req | c | c | cutoff]; simpl; auto.
  - intros H. destruct (effect_ids x (handleRequest_effect c env req w) H);
      eauto 6.
  - destruct (isOpen c w); auto.
  - destruct (isOpen c w); auto.
Qed.

(** An id that is not stored stays so as long as no request brings it as
    its fresh id. *)
Lemma absent_stays (id : jsstring) (acts : list Action) (w : World) :
  neverIssues id acts ->
  getAnnotation id w = None ->
  getAnnotation id (run acts w) = None.
Proof.
  unfold neverIssues. revert w.
  induction acts as [|a acts IH]; intros w Hn Hw; simpl; auto.
  simpl in Hn. apply andb_true_iff in Hn. destruct Hn as [Ha Hn].
  apply IH; auto. apply getAnnotation_none. intros Hin.
  apply step_ids in Hin. destruct Hin as [(c & env & req & -> & ->) | Hin].
  - rewrite eqb_refl in Ha. discriminate.
  - apply getAnnotation_none in Hw. contradiction.
Qed.

Lemma delete_present (id : jsstring) (env : Env) (w : World)
      (a : Annotation) :
  getAnnotation id w = Some a ->
  let r := deleteAnnotationHandler id env w in
  fst r = sendJson 200 (JObj [(str "deleted", JBool true);
                              (str "annotationId", JStr id)])
  /\ getAnnotation id (snd r) = None
  /\ exists e, since w (snd r) = [e]
               /\ e_type e = AnnotationDeleted
               /\ e_payload e = OfAnnotation a.
Proof.
  intros Ha r. unfold r, deleteAnnotationHandler, Store.deleteAnnotation.
  rewrite Ha. simpl. split; [reflexivity|]. split.
  - rewrite getAnnotation_emit. apply getAnnotation_none. simpl.
    intros Hin. apply remove_ids in Hin. destruct Hin as [_ Hin]. congruence.
  - destruct (emit_spec AnnotationDeleted (a_sessionId a) (OfAnnotation a)
                (now env)
                (Store.setStore (sessions w)
                   (Store.remove a_id id (annotations w)) w))
      as (e & _ & _ & Ht & Hp & He & _).
    exists e. split; [|auto]. apply since_app. exact He.
Qed.

Lemma delete_absent (id : jsstring) (env : Env) (w : World) :
  getAnnotation id w = None ->
  deleteAnnotationHandler id env w
  = (sendError 404 (str "Annotation not found"), w).
Proof.
  intros Ha. unfold deleteAnnotationHandler, Store.deleteAnnotation.
  rewrite Ha. reflexivity.
Qed.

End Delete.

(** C7 (as the code has it). For an existing annotation id the first DELETE
    /annotations/:id is answered 200 with the body
    [{deleted: true, annotationId: id}]; the pre-delete snapshot is what the
    store hands back and what the annotation.deleted event carries, not part
    of the answer.  After it the annotation is gone, and every later DELETE
    of the same id is answered 404, whatever happened in between, as long as
    no request was handed that id as a fresh one. *)
Theorem delete_once_then_not_found
        {P : Platform} (c : Model.ConnId) (env : Model.Env) (w : Model.World)
        (id : Js.jsstring) (a : Model.Annotation) :
  Spec.isSegment id = true ->
  StoreRead.getAnnotation id w = Some a ->
  let path := Js.str "/annotations/" ++ id in
  let r := Router.handleRequest c env (Spec.delete path) w in
  fst r = Http.Json 200 (Json.JObj [(Js.str "deleted", Json.JBool true);
                                    (Js.str "annotationId", Json.JStr id)])
  /\ StoreRead.getAnnotation id (snd r) = None
  /\ (exists e, Spec.since w (snd r) = [e]
                /\ Model.e_type e = Model.AnnotationDeleted
                /\ Model.e_payload e = Model.OfAnnotation a)
  /\ forall post c' env',
       Spec.neverIssues id post ->
       Router.handleRequest c' env' (Spec.delete path) (Router.run post (snd r))
       = (Http.Json 404 (Spec.errorBody "Annotation not found"),
          Router.run post (snd r)).
Proof.
  intros Hseg Ha path r.
  assert (Hr : r = Http.deleteAnnotationHandler id env w)
    by (apply handle_delete; auto).
  destruct (delete_present id env w Ha) as (H1 & H2 & H3).
  rewrite <- Hr in H1, H2, H3.
  repeat split; auto.
  intros post c' env' Hn.
  rewrite (@handle_delete P c' env' (Spec.delete path) _ id) by auto.
  apply delete_absent. apply absent_stays; auto.
Qed.

(* ------------------------------------------------------------------------- *)
(** ** Properties: the tools                                                 *)
(* ------------------------------------------------------------------------- *)

Lemma request_logged {P : Platform} (B : Type)
      (fetch : Mcp.HttpCall -> B -> Mcp.HttpReply * B) (call : Mcp.HttpCall)
      (b : B) (l : list Mcp.HttpCall) :
  exists o,
    Mcp.request (Spec.logged fetch) call (b, l)
    = (o, (snd (fetch call b), l ++ [call]))
    /\ (Spec.replyOk (fst (fetch call b)) = true -> exists d, o = Mcp.Returned d)
    /\ (Spec.replyOk (fst (fetch call b)) = false ->
        o = Mcp.Hung \/ exists m, o = Mcp.Threw m).
Proof.
  unfold Mcp.request, Spec.logged. simpl.
  destruct (fetch call b) as [[status data|status|] b']; simpl.
  - destruct (Mcp.isOk status); eexists; split; try reflexivity;
      split; intros H; try discriminate H; eauto.
  - destruct (Mcp.isOk status); eexists; split; try reflexivity;
      split; intros H; try discriminate H; eauto.
  - eexists; split; try reflexivity. split; intros H; try discriminate H; auto.
Qed.

(** C8 (as the code has it). The resolve tool first PATCHes the annotation
    with [{status: "resolved", resolvedBy: "agent"}]; when that call succeeds
    and the summary is a non-empty string it then POSTs the thread message
    with role agent and content "Resolved: <summary>"; when the summary is
    absent or the empty string, or the PATCH fails, the PATCH is the only
    call. *)
Theorem resolve_tool_calls
        {P : Platform} (B : Type)
        (fetch : Mcp.HttpCall -> B -> Mcp.HttpReply * B) (b : B)
        (args : option Json.json) (id : Js.jsstring)
        (summary : option Js.jsstring) :
  Mcp.schemaString args "annotationId" = Ok id ->
  Mcp.schemaOptString args "summary" = Ok summary ->
  let patchCall :=
    {| Mcp.c_method := Js.str "PATCH";
       Mcp.c_path := Js.str "/annotations/" ++ id;
       Mcp.c_body :=
         Some (Json.JObj [(Js.str "status", Json.JStr (Js.str "resolved"));
                          (Js.str "resolvedBy", Json.JStr (Js.str "agent"))]) |} in
  let postCall s :=
    {| Mcp.c_method := Js.str "POST";
       Mcp.c_path := Js.str "/annotations/" ++ id ++ Js.str "/thread";
       Mcp.c_body :=
         Some (Json.JObj [(Js.str "role", Json.JStr (Js.str "agent"));
                          (Js.str "content",
                           Json.JStr (Js.str "Resolved: " ++ s))]) |} in
  let calls :=
    snd (snd (Mcp.handleTool (Spec.logged fetch) (Js.str "agentation_resolve")
                             args (b, []))) in
  (forall s, summary = Some s -> s <> [] ->
             Spec.replyOk (fst (fetch patchCall b)) = true ->
             calls = [patchCall; postCall s])
  /\ (summary = None \/ summary = Some [] -> calls = [patchCall])
  /\ (Spec.replyOk (fst (fetch patchCall b)) = false -> calls = [patchCall]).
Proof.
  intros Hid Hsum patchCall postCall calls.
  assert (Hcalls :
            calls = patchCall
                    :: match summary with
                       | Some s =>
                           if Js.truthy s
                              && Spec.replyOk (fst (fetch patchCall b))
                           then [postCall s] else []
                       | None => []
                       end).
  { unfold calls, Mcp.handleTool. simpl.
    unfold Mcp.catch, Mcp.bind, Mcp.lift. rewrite Hid, Hsum. simpl.
    set (m1 := Mcp.httpPatch _ _ _ _).
    destruct (request_logged fetch patchCall b []) as (o1 & E1 & Hok1 & Hbad1).
    assert (Hm1 : m1 = (o1, (snd (fetch patchCall b), [patchCall])))
      by exact E1.
    rewrite Hm1. clear Hm1 E1 m1.
    unfold Mcp.notFoundOr.
    destruct (Spec.replyOk (fst (fetch patchCall b))) eqn:Hok.
    - destruct (Hok1 eq_refl) as [d ->].
      destruct summary as [s|]; [|reflexivity]. rewrite andb_true_r.
      destruct (Js.truthy s) eqn:Ht; [|reflexivity].
      set (m2 := Mcp.httpPost _ _ _ _).
      destruct (request_logged fetch (postCall s) (snd (fetch patchCall b))
                               [patchCall]) as (o2 & E2 & _).
      assert (Hm2 : m2 = (o2, (snd (fetch (postCall s)
                                          (snd (fetch patchCall b))),
                               [patchCall; postCall s])))
        by exact E2.
      rewrite Hm2. destruct o2; simpl; try reflexivity.
      destruct (Js.includes _ _); reflexivity.
    - destruct (Hbad1 eq_refl) as [-> | [m ->]]; simpl;
        try destruct (Js.includes _ _); simpl;
        destruct summary; try rewrite andb_false_r; reflexivity. }
  split; [|split].
  - intros s -> Hne Hok. rewrite Hcalls, Hok.
    destruct s; [congruence | reflexivity].
  - intros [-> | ->]; rewrite Hcalls; reflexivity.
  - intros Hbad. rewrite Hcalls, Hbad.
    destruct summary; [rewrite andb_false_r|]; reflexivity.
Qed.

Section NotFound.
Context {P : Platform}.
Import Js Json Model StoreRead Http Router Spec.







End NotFound.

(** C1 (what the code does). Calling the tool
    [agentation_watch_annotations], with any arguments and against any HTTP
    surface, makes no HTTP call and returns the error result "Unknown tool:
    agentation_watch_annotations"; the catalog that tools/list returns has
    eight tools and no watch tool. *)
Theorem watch_annotations_is_unknown
        {P : Platform} (B : Type)
        (fetch : Mcp.HttpCall -> B -> Mcp.HttpReply * B)
        (args : option Json.json) (b : B) :
  Mcp.callTool (Spec.logged fetch) (Js.str "agentation_watch_annotations") args
               (b, [])
  = (Mcp.Returned
       {| Mcp.text := Js.str "Unknown tool: agentation_watch_annotations";
          Mcp.isError := true |}, (b, []))
  /\ List.length Mcp.listTools = 8%nat
  /\ ~ In (Js.str "agentation_watch_annotations")
          (map Mcp.t_name Mcp.listTools)
  /\ ~ In (Js.str "watch_annotations") (map Mcp.t_name Mcp.listTools).
Proof.
  split; [reflexivity|]. split; [reflexivity|].
  split; intros H; simpl in H;
    repeat (destruct H as [H|H]; [discriminate H|]); exact H.
Qed.


(* ------------------------------------------------------------------------- *)
(** ** Properties: the credential                                            *)
(* ------------------------------------------------------------------------- *)

Section Credential.
Context {P : Platform}.
Import Js Json Model StoreRead Http Router Spec.

Ltac split_inner :=
  match goal with
  | |- context [match ?x with _ => _ end] =>
      lazymatch x with
      | context [match _ with _ => _ end] => fail
      | _ => destruct x eqn:?
      end
  end.

Lemma handleRequest_status (c : ConnId) (env : Env) (req : Request)
      (w : World) :
  In (statusOf (fst (handleRequest c env req w))) [200; 201; 204; 400; 404].
Proof.
  unfold handleRequest.
  destruct (eqb _ (str "OPTIONS")); [simpl; tauto|].
  destruct (_ && _); [simpl; tauto|].
  destruct (matchRoute _ _) as [[h params]|]; [|simpl; tauto].
  destruct h; simpl;
    unfold globalSseHandler, getAllPendingHandler, listSessionsHandler,
      createSessionHandler, getSessionHandler, sseHandler, getPendingHandler,
      addAnnotationHandler, updateAnnotationHandler, getAnnotationHandler,
      deleteAnnotationHandler, addThreadHandler, catch400, rbind;
    repeat split_inner; simpl; try tauto;
    repeat match goal with
           | H : Ok _ = Ok _ |- _ => injection H as ?; subst
           | H : (_, _) = (_, _) |- _ => injection H as ?; subst
           | H : Throw _ = Ok _ |- _ => discriminate H
           | H : Ok _ = Throw _ |- _ => discriminate H
           end; simpl; tauto.
Qed.

Lemma handleRequest_reads (c : ConnId) (env : Env) (req req' : Request)
      (w : World) :
  sameButCredentials req req' ->
  handleRequest c env req w = handleRequest c env req' w.
Proof.
  intros (Hm & Hp & Hb & Hd & Hl). unfold handleRequest.
  rewrite Hm, Hp.
  destruct (eqb _ (str "OPTIONS")); [reflexivity|].
  destruct (_ && _); [reflexivity|].
  destruct (matchRoute _ _) as [[h params]|]; [|reflexivity].
  destruct h; simpl;
    unfold globalSseHandler, createSessionHandler, sseHandler,
      addAnnotationHandler, updateAnnotationHandler, addThreadHandler,
      replay, parseBody;
    rewrite ?Hb, ?Hd, ?Hl; reflexivity.
Qed.

End Credential.

(** C2 (as the code has it). Whatever credential is configured at startup
    ([--api-key] or AGENTATION_API_KEY), the HTTP server that the [server]
    command starts is the plain request listener: the key goes to the
    storage layer and is not compared with anything a request presents.
    No request is answered 401, whether its target parses or the listener
    throws on it, and two requests that differ only in headers and query
    parameters other than [Last-Event-ID] and [domain], such as a presented
    credential, get the same answer and leave the same state. *)
Theorem credential_is_not_checked
        {P : Platform} (args : list Js.jsstring) (envKey : option Js.jsstring)
        (srv : Router.Server) :
  Cli.http (Cli.serverCommand args envKey) = Some srv ->
  Router.listener srv = Router.handleRequest
  /\ Cli.storageKey (Cli.serverCommand args envKey)
     = Cli.apiKeyOf (Cli.parseOptions args) envKey
  /\ (forall c env a w r,
         fst (Router.serve srv c env a w) = Router.Answered r ->
         Http.statusOf r <> 401)
  /\ (forall c env req req' w,
         Spec.sameButCredentials req req' ->
         Router.serve srv c env (Router.Arrived req) w
         = Router.serve srv c env (Router.Arrived req') w).
Proof.
  unfold Cli.serverCommand. simpl.
  destruct (Cli.mcpOnly (Cli.parseOptions args)); [discriminate|].
  intros [= <-]. simpl. split; [reflexivity|]. split; [reflexivity|]. split.
  - intros c env [|req] w r; simpl; [discriminate|]. intros [= <-].
    pose proof (handleRequest_status c env req w) as H.
    simpl in H. intros E. rewrite E in H.
    repeat (destruct H as [H|H]; [discriminate H|]). exact H.
  - intros c env req req' w H. unfold Router.serve. simpl.
    rewrite (handleRequest_reads c env w H). reflexivity.
Qed.

(* ------------------------------------------------------------------------- *)
(** ** The properties at concrete inputs                                     *)
(* ------------------------------------------------------------------------- *)

(** The port prompt answered " 8080 " and the argument array
    ["server", "--port", "9000"]. *)
Lemma port_parsing_at_8080_and_9000 :
  Js.trim (Js.str " 8080 ") <> []
  /\ Js.parseInt (Js.trim (Js.str " 8080 ")) = Some 8080
  /\ Cli.parsePortInput (Js.str " 8080 ") = 8080
  /\ Spec.PortFlagAt [Json.JStr (Js.str "server"); Json.JStr (Js.str "--port");
                      Json.JStr (Js.str "9000")] 1 9000
  /\ Cli.parsePortFromArgArray
       (Some (Json.JArr [Json.JStr (Js.str "server");
                         Json.JStr (Js.str "--port");
                         Json.JStr (Js.str "9000")])) = 9000.
Proof.
  assert (Hne : Js.trim (Js.str " 8080 ") <> []) by (vm_compute; discriminate).
  assert (Hp : Js.parseInt (Js.trim (Js.str " 8080 ")) = Some 8080)
    by (vm_compute; reflexivity).
  assert (Hf : Spec.PortFlagAt
                 [Json.JStr (Js.str "server"); Json.JStr (Js.str "--port");
                  Json.JStr (Js.str "9000")] 1 9000).
  { split; [reflexivity|]. exists (Js.str "9000").
    split; [reflexivity|]. split; [vm_compute; reflexivity | lia]. }
  split; [exact Hne|]. split; [exact Hp|]. split; [|split; [exact Hf|]].
  - destruct (proj1 port_parsing_total_and_valid (Js.str " 8080 "))
      as (_ & _ & H).
    apply (H 8080 Hne Hp). lia.
  - destruct (proj2 port_parsing_total_and_valid
                (Some (Json.JArr [Json.JStr (Js.str "server");
                                  Json.JStr (Js.str "--port");
                                  Json.JStr (Js.str "9000")])))
      as (_ & _ & _ & H).
    apply (H _ 1%nat 9000 eq_refl Hf).
    intros j q Hj [Hc _]. destruct j as [|j]; [|lia].
    vm_compute in Hc. discriminate Hc.
Defined.

(** The answers "12abc", "80.9" and "1e3" to the port prompt are not
    numeric, and they are read as the ports 12, 80 and 1, not as 4747. *)
Lemma text_after_the_number_is_ignored :
  Cli.parsePortInput (Js.str "12abc") = 12
  /\ Cli.parsePortInput (Js.str "80.9") = 80
  /\ Cli.parsePortInput (Js.str "1e3") = 1.
Proof. repeat split; vm_compute; reflexivity. Defined.

(** The server started with [--api-key ag_xxx] answers GET /health, asked
    without any credential, with 200. *)
Lemma missing_credential_is_served :
  exists srv,
    Cli.http (Cli.serverCommand (P := Sample.plain)
                [Js.str "--api-key"; Js.str "ag_xxx"] None) = Some srv
    /\ Cli.storageKey (Cli.serverCommand (P := Sample.plain)
                         [Js.str "--api-key"; Js.str "ag_xxx"] None)
       = Some (Js.str "ag_xxx")
    /\ Http.headers Sample.health = []
    /\ Http.query Sample.health = []
    /\ Http.statusOf
         (fst (Router.listener srv 1%nat (Sample.at_ 1 "x") Sample.health
                               Model.initial)) = 200.
Proof.
  eexists. split; [reflexivity|]. repeat split; reflexivity.
Defined.

(** The same server: with and without a bearer credential GET /health gets
    the same answer, and it is not 401. *)
Lemma credential_at_health :
  Cli.http (Cli.serverCommand (P := Sample.plain)
              [Js.str "--api-key"; Js.str "ag_xxx"] None)
  = Some (Router.startHttpServer (P := Sample.plain) 4747)
  /\ Spec.sameButCredentials Sample.health Sample.healthWithKey
  /\ Router.serve (Router.startHttpServer (P := Sample.plain) 4747)
       1%nat (Sample.at_ 1 "x") (Router.Arrived Sample.health) Model.initial
     = Router.serve (Router.startHttpServer (P := Sample.plain) 4747)
         1%nat (Sample.at_ 1 "x") (Router.Arrived Sample.healthWithKey)
         Model.initial
  /\ Http.statusOf
       (fst (Router.handleRequest (P := Sample.plain) 1%nat (Sample.at_ 1 "x")
                                  Sample.health Model.initial)) <> 401.
Proof.
  assert (H : Cli.http (Cli.serverCommand (P := Sample.plain)
                          [Js.str "--api-key"; Js.str "ag_xxx"] None)
              = Some (Router.startHttpServer (P := Sample.plain) 4747))
    by reflexivity.
  assert (Hs : Spec.sameButCredentials Sample.health Sample.healthWithKey)
    by (repeat split; reflexivity).
  destruct (@credential_is_not_checked
              Sample.plain [Js.str "--api-key"; Js.str "ag_xxx"] None _ H)
    as (_ & _ & Hstatus & Hsame).
  split; [exact H|]. split; [exact Hs|]. split.
  - exact (Hsame 1%nat (Sample.at_ 1 "x") _ _ Model.initial Hs).
  - exact (Hstatus 1%nat (Sample.at_ 1 "x") (Router.Arrived Sample.health)
             Model.initial _ eq_refl).
Defined.

(** Scenario 3: PATCH [{status: "resolved"}] on the pending annotation A1 is
    answered 400 and changes nothing. *)
Lemma pending_to_resolved_is_rejected :
  StoreRead.getAnnotation (Js.str "A1") Sample.pendingA1 = Some Sample.a1
  /\ Store.legalTransition (Model.a_status Sample.a1) Model.Resolved = false
  /\ Http.statusOf
       (fst (Router.handleRequest
               (P := Sample.plain) 5%nat (Sample.at_ 14 "x")
               (Sample.patch "/annotations/A1" [("status", "resolved")]%string)
               Sample.pendingA1)) = 400
  /\ snd (Router.handleRequest
            (P := Sample.plain) 5%nat (Sample.at_ 14 "x")
            (Sample.patch "/annotations/A1" [("status", "resolved")]%string)
            Sample.pendingA1) = Sample.pendingA1.
Proof.
  assert (Ha : StoreRead.getAnnotation (Js.str "A1") Sample.pendingA1
               = Some Sample.a1) by (vm_compute; reflexivity).
  assert (Hne : Model.Resolved <> Model.a_status Sample.a1)
    by (simpl; discriminate).
  destruct (@status_changes_follow_lattice
              Sample.plain 5%nat (Sample.at_ 14 "x")
              (Sample.patch "/annotations/A1" [("status", "resolved")]%string)
              Sample.pendingA1 (Js.str "A1") Sample.a1
              [(Js.str "status", Json.JStr (Js.str "resolved"))] Model.Resolved
              eq_refl eq_refl eq_refl eq_refl Ha eq_refl Hne)
    as (_ & Hbad & _).
  split; [exact Ha|]. split; [reflexivity|]. exact (Hbad eq_refl).
Defined.

(** Scenario 4: after the events 1 to 4, a reconnection with
    [Last-Event-ID: 3] is sent event 4, and then event 5 when it is
    issued. *)
Lemma reconnect_after_3_gets_4_then_5 :
  StoreRead.getSession (Js.str "S1")
    (Router.run (P := Sample.plain) Sample.threeAnnotations Model.initial)
  = Some Sample.s1
  /\ Spec.unused 7%nat
       (Router.run (P := Sample.plain) Sample.threeAnnotations Model.initial)
  /\ Spec.untouched 7%nat Sample.oneMore
  /\ map Model.e_sequence
         (Router.framesOf 7%nat
            (Router.run (P := Sample.plain) Sample.oneMore
               (Router.step (P := Sample.plain)
                  (Router.Incoming 7%nat (Sample.at_ 15 "z") Sample.reconnect)
                  (Router.run (P := Sample.plain) Sample.threeAnnotations
                              Model.initial)))) = [4; 5].
Proof.
  assert (Hs : StoreRead.getSession (Js.str "S1")
                 (Router.run (P := Sample.plain) Sample.threeAnnotations
                             Model.initial) = Some Sample.s1)
    by (vm_compute; reflexivity).
  assert (Hu : Spec.unused 7%nat
                 (Router.run (P := Sample.plain) Sample.threeAnnotations
                             Model.initial))
    by (split; vm_compute; reflexivity).
  assert (Hp : Spec.untouched 7%nat Sample.oneMore) by reflexivity.
  destruct (@sse_replay_then_live
              Sample.plain Sample.threeAnnotations Sample.oneMore 7%nat
              (Sample.at_ 15 "z") Sample.reconnect (Js.str "S1")
              (Js.str "3") 3 Sample.s1
              eq_refl eq_refl eq_refl Hs eq_refl eq_refl Hu Hp)
    as (_ & _ & _ & H & _).
  split; [exact Hs|]. split; [exact Hu|]. split; [exact Hp|].
  rewrite H. vm_compute. reflexivity.
Defined.

(** Scenario 6: with sessions for localhost:3000 and localhost:3001, the
    stream of domain localhost:3001 is sent the event of the second session
    only. *)
Lemma domain_3001_gets_its_session_only :
  Http.domain Sample.watchDomain = Some (Js.str "localhost:3001")
  /\ Spec.unused 7%nat
       (Router.run (P := Sample.plain) Sample.twoHosts Model.initial)
  /\ Spec.untouched 7%nat Sample.feedbackOnBoth
  /\ map Model.e_sessionId
         (Router.framesOf 7%nat
            (Router.run (P := Sample.plain) Sample.feedbackOnBoth
               (Router.step (P := Sample.plain)
                  (Router.Incoming 7%nat (Sample.at_ 15 "z") Sample.watchDomain)
                  (Router.run (P := Sample.plain) Sample.twoHosts
                              Model.initial)))) = [Js.str "S2"].
Proof.
  assert (Hu : Spec.unused 7%nat
                 (Router.run (P := Sample.plain) Sample.twoHosts Model.initial))
    by (split; vm_compute; reflexivity).
  assert (Hp : Spec.untouched 7%nat Sample.feedbackOnBoth) by reflexivity.
  assert (Hne : Js.str "localhost:3001" <> []) by (vm_compute; discriminate).
  destruct (@domain_stream_filters_by_host
              Sample.plain 7%nat (Sample.at_ 15 "z") Sample.watchDomain
              (Router.run (P := Sample.plain) Sample.twoHosts Model.initial)
              eq_refl eq_refl) as [_ H].
  destruct (H (Js.str "localhost:3001") Sample.feedbackOnBoth eq_refl Hne Hu Hp)
    as (_ & _ & Hf & _).
  split; [reflexivity|]. split; [exact Hu|]. split; [exact Hp|].
  rewrite Hf. vm_compute. reflexivity.
Defined.

(** DELETE /annotations/A1 in the state with the pending annotation A1: the
    answer is 200 with the two-property body, and a second DELETE is
    answered 404. *)
Lemma delete_A1_twice :
  StoreRead.getAnnotation (Js.str "A1") Sample.pendingA1 = Some Sample.a1
  /\ Spec.neverIssues (Js.str "A1") Sample.oneMore
  /\ fst (Router.handleRequest
            (P := Sample.plain) 5%nat (Sample.at_ 14 "x")
            (Spec.delete (Js.str "/annotations/" ++ Js.str "A1"))
            Sample.pendingA1)
     = Http.Json 200 (Json.JObj [(Js.str "deleted", Json.JBool true);
                                  (Js.str "annotationId",
                                   Json.JStr (Js.str "A1"))])
  /\ Http.statusOf
       (fst (Router.handleRequest
               (P := Sample.plain) 6%nat (Sample.at_ 30 "y")
               (Spec.delete (Js.str "/annotations/" ++ Js.str "A1"))
               (Router.run (P := Sample.plain) Sample.oneMore
                  (snd (Router.handleRequest
                          (P := Sample.plain) 5%nat (Sample.at_ 14 "x")
                          (Spec.delete (Js.str "/annotations/" ++ Js.str "A1"))
                          Sample.pendingA1))))) = 404.
Proof.
  assert (Ha : StoreRead.getAnnotation (Js.str "A1") Sample.pendingA1
               = Some Sample.a1) by (vm_compute; reflexivity).
  assert (Hn : Spec.neverIssues (Js.str "A1") Sample.oneMore) by reflexivity.
  destruct (@delete_once_then_not_found
              Sample.plain 5%nat (Sample.at_ 14 "x") Sample.pendingA1
              (Js.str "A1") Sample.a1 eq_refl Ha) as (H1 & _ & _ & H4).
  split; [exact Ha|]. split; [exact Hn|]. split; [exact H1|].
  rewrite (H4 Sample.oneMore 6%nat (Sample.at_ 30 "y") Hn). reflexivity.
Defined.

(** The answer to the first DELETE of A1 is not the pre-delete snapshot: the
    stored annotation has the comment "fix me", the body of the answer is
    [{deleted: true, annotationId: "A1"}] and has no comment. *)
Lemma delete_answer_is_not_the_snapshot :
  StoreRead.getAnnotation (Js.str "A1") Sample.pendingA1 = Some Sample.a1
  /\ exists body,
       fst (Router.handleRequest
              (P := Sample.plain) 5%nat (Sample.at_ 14 "x")
              (Spec.delete (Js.str "/annotations/A1")) Sample.pendingA1)
       = Http.Json 200 (Json.JObj body)
       /\ Json.JObj body <> Model.annotationJson Sample.a1
       /\ Json.field (Js.str "comment") (Model.annotationFields Sample.a1)
          = Some (Json.JStr (Js.str "fix me"))
       /\ Json.field (Js.str "comment") body = None
       /\ map fst body = [Js.str "deleted"; Js.str "annotationId"].
Proof.
  split; [vm_compute; reflexivity|].
  eexists. split; [vm_compute; reflexivity|].
  split; [vm_compute; discriminate|]. repeat split; reflexivity.
Defined.

(** Scenario 5: resolve with the summary "fixed padding" on the acknowledged
    annotation A1 PATCHes, then POSTs the thread message; afterwards the
    annotation is resolved by the agent and its thread holds the agent's
    message "Resolved: fixed padding". *)
Lemma resolve_A1_with_summary :
  Mcp.schemaString
    (P := Sample.plain)
    (Sample.toolArgs [("annotationId", "A1"); ("summary", "fixed padding")]%string)
    "annotationId" = Ok (Js.str "A1")
  /\ Mcp.schemaOptString
       (P := Sample.plain)
       (Sample.toolArgs [("annotationId", "A1");
                         ("summary", "fixed padding")]%string)
       "summary" = Ok (Some (Js.str "fixed padding"))
  /\ map (fun call => (Mcp.c_method call, Mcp.c_path call))
         (snd (snd (Mcp.handleTool
                      (P := Sample.plain)
                      (Spec.logged (Broker.loopback (P := Sample.plain)
                                                    Sample.supply))
                      (Js.str "agentation_resolve")
                      (Sample.toolArgs [("annotationId", "A1");
                                        ("summary", "fixed padding")]%string)
                      (Sample.acknowledgedA1, []))))
     = [(Js.str "PATCH", Js.str "/annotations/A1");
        (Js.str "POST", Js.str "/annotations/A1/thread")]
  /\ exists a m,
       StoreRead.getAnnotation (Js.str "A1")
         (snd (Broker.callTool
                 (P := Sample.plain) Sample.supply (Js.str "agentation_resolve")
                 (Sample.toolArgs [("annotationId", "A1");
                                   ("summary", "fixed padding")]%string)
                 Sample.acknowledgedA1)) = Some a
       /\ Model.a_status a = Model.Resolved
       /\ Model.a_resolvedBy a = Some Model.Agent
       /\ Model.a_thread a = [m]
       /\ Model.m_role m = Model.Agent
       /\ Model.m_content m = Js.str "Resolved: fixed padding".
Proof.
  split; [reflexivity|]. split; [reflexivity|].
  split;
    [|eexists; eexists; split; [vm_compute; reflexivity|];
      repeat split; reflexivity].
  destruct (@resolve_tool_calls
              Sample.plain Model.World
              (Broker.loopback (P := Sample.plain) Sample.supply)
              Sample.acknowledgedA1
              (Sample.toolArgs [("annotationId", "A1");
                                ("summary", "fixed padding")]%string)
              (Js.str "A1") (Some (Js.str "fixed padding")) eq_refl eq_refl)
    as (H & _).
  rewrite (H (Js.str "fixed padding") eq_refl).
  - reflexivity.
  - vm_compute. discriminate.
  - vm_compute. reflexivity.
Defined.

(** Resolve with a summary that is the empty string: the summary is given,
    the annotation is patched to resolved by the agent, the result is a
    success, and no thread message is appended. *)
Lemma resolve_with_empty_summary_appends_nothing :
  Mcp.schemaOptString
    (P := Sample.plain)
    (Sample.toolArgs [("annotationId", "A1"); ("summary", "")]%string)
    "summary" = Ok (Some [])
  /\ exists t a,
       fst (Broker.callTool
              (P := Sample.plain) Sample.supply (Js.str "agentation_resolve")
              (Sample.toolArgs [("annotationId", "A1"); ("summary", "")]%string)
              Sample.acknowledgedA1) = Mcp.Returned t
       /\ Mcp.isError t = false
       /\ StoreRead.getAnnotation (Js.str "A1")
            (snd (Broker.callTool
                    (P := Sample.plain) Sample.supply
                    (Js.str "agentation_resolve")
                    (Sample.toolArgs [("annotationId", "A1");
                                      ("summary", "")]%string)
                    Sample.acknowledgedA1)) = Some a
       /\ Model.a_status a = Model.Resolved
       /\ Model.a_resolvedBy a = Some Model.Agent
       /\ Model.a_thread a = [].
Proof.
  split; [reflexivity|].
  eexists. eexists. split; [vm_compute; reflexivity|].
  split; [reflexivity|]. split; [vm_compute; reflexivity|].
  repeat split; reflexivity.
Defined.



(* ------------------------------------------------------------------------- *)
(** ** Properties: numbers printed and read back                             *)
(* ------------------------------------------------------------------------- *)

Lemma digits_step (c : N) (d acc : Z) (r : Js.jsstring) :
  Js.digit c = Some d ->
  Js.digits (Some acc) (c :: r) = Js.digits (Some (10 * acc + d)) r.
Proof. intros H. simpl. rewrite H. reflexivity. Qed.

Lemma digits_of_uint_acc (u : Decimal.uint) (acc : positive) :
  Js.digits (Some (Z.pos acc)) (Js.uint_codes u)
  = Some (Z.pos (Pos.of_uint_acc u acc)).
Proof.
  revert acc. induction u; intros acc; [reflexivity| ..];
    cbn [Js.uint_codes Pos.of_uint_acc];
    erewrite digits_step by reflexivity;
    rewrite <- IHu; f_equal; f_equal; lia.
Qed.

Lemma digits_of_uint (u : Decimal.uint) :
  Js.digits (Some 0) (Js.uint_codes u) = Some (Z.of_uint u).
Proof.
  induction u; [reflexivity| ..];
    cbn [Js.uint_codes]; erewrite digits_step by reflexivity;
    [exact IHu | ..];
    unfold Z.of_uint; cbn [Pos.of_uint Z.of_N];
    rewrite <- digits_of_uint_acc; reflexivity.
Qed.

Lemma digits_none (u : Decimal.uint) :
  u <> Decimal.Nil ->
  Js.digits None (Js.uint_codes u) = Js.digits (Some 0) (Js.uint_codes u).
Proof. destruct u; [congruence| ..]; reflexivity. Qed.

Lemma uint_codes_head (u : Decimal.uint) :
  u <> Decimal.Nil ->
  exists c r, Js.uint_codes u = c :: r /\ Js.isWhiteSpace c = false
              /\ c <> 45%N /\ c <> 43%N.
Proof.
  destruct u; [congruence| ..]; intros _; do 2 eexists;
    (split; [reflexivity|]); repeat split; discriminate.
Qed.

(** [parseInt(String(n), 10)] is [n], for every integer [n]. *)
Lemma parseInt_ofInt (z : Z) : Js.parseInt (Js.ofInt z) = Some z.
Proof.
  assert (Hpos : forall u, u <> Decimal.Nil ->
                           Js.parseInt (Js.uint_codes u) = Some (Z.of_uint u)).
  { intros u Hu. destruct (uint_codes_head Hu) as (c & r & E & Hw & H45 & H43).
    assert (Hd : Js.digits None (c :: r) = Some (Z.of_uint u))
      by (rewrite <- E, digits_none, digits_of_uint by exact Hu; reflexivity).
    unfold Js.parseInt. rewrite E. cbn [Js.trimStart]. rewrite Hw.
    destruct c as [|p]; [exact Hd|].
    repeat (destruct p as [p|p|]; try exact Hd); congruence. }
  assert (Hneg : forall u, u <> Decimal.Nil ->
                           Js.parseInt (45%N :: Js.uint_codes u)
                           = Some (- Z.of_uint u)).
  { intros u Hu. unfold Js.parseInt. simpl.
    rewrite digits_none, digits_of_uint by exact Hu. reflexivity. }
  rewrite <- (DecimalZ.of_to z) at 2. unfold Js.ofInt.
  destruct z as [|p|p]; simpl Z.to_int; cbn [Z.of_int].
  - reflexivity.
  - apply Hpos, DecimalPos.Unsigned.to_uint_nonnil.
  - apply Hneg, DecimalPos.Unsigned.to_uint_nonnil.
Qed.

Lemma ofInt_truthy (z : Z) : Js.truthy (Js.ofInt z) = true.
Proof.
  pose proof (parseInt_ofInt z) as H. destruct (Js.ofInt z); [discriminate H|].
  reflexivity.
Qed.

(* ------------------------------------------------------------------------- *)
(** ** Properties: the options of the [server] command                       *)
(* ------------------------------------------------------------------------- *)

Section ServerOptions.
Import Js Json Cli Cover.

Lemma argIs_In (args : list jsstring) (i : nat) (flag : string) :
  argIs args i flag = true -> In (str flag) args.
Proof.
  unfold argIs. destruct (nth_error args i) as [a|] eqn:E; [|discriminate].
  intros H. apply eqb_eq in H. subst a. eapply nth_error_In; eauto.
Qed.

Lemma valueAfter_In (args : list jsstring) (i : nat) (v : jsstring) :
  valueAfter args i = Some v -> v <> [] /\ In v args.
Proof.
  unfold valueAfter.
  destruct (nth_error args (i + 1)) as [a|] eqn:E; [|discriminate].
  destruct (Js.truthy a) eqn:T; [|discriminate]. intros [= <-]. split.
  - intros ->. discriminate T.
  - eapply nth_error_In; eauto.
Qed.

Lemma existsb_eqb_In (x : jsstring) (args : list jsstring) :
  existsb (fun a => eqb a x) args = true -> In x args.
Proof.
  intros H. apply existsb_exists in H. destruct H as (a & Ha & E).
  apply eqb_eq in E. subst a. exact Ha.
Qed.

Lemma optionTurn_keeps (args : list jsstring) (i : nat) (o : Options) :
  wellFormed args o -> wellFormed args (snd (optionTurn args i o)).
Proof.
  intros (Hport & Hmcp & Hurl & Hkey). unfold optionTurn.
  repeat match goal with
         | |- context [argIs ?a ?j ?f] =>
             let E := fresh "A" in
             destruct (argIs a j f) eqn:E; [apply argIs_In in E|]
         | |- context [valueAfter ?a ?j] =>
             let E := fresh "V" in
             destruct (valueAfter a j) eqn:E; [apply valueAfter_In in E|]
         | |- context [parseInt ?v] => destruct (parseInt v) eqn:?
         | |- context [(0 <? ?p) && (?p <? 65536)] =>
             destruct ((0 <? p) && (p <? 65536)) eqn:?
         | |- context [existsb ?f ?l] =>
             let E := fresh "X" in
             destruct (existsb f l) eqn:E; [apply existsb_eqb_In in E|]
         end;
    unfold wellFormed; cbn [port mcpOnly httpUrl apiKeyArg snd];
    try match goal with
        | H : (0 <? _) && (_ <? 65536) = true |- _ =>
            apply andb_true_iff in H; rewrite !Z.ltb_lt in H
        end;
    repeat split; intros;
    try match goal with
        | H : Some _ = Some _ |- _ => injection H as <-
        end;
    try lia; try tauto; try contradiction; auto;
    try (apply Hkey; assumption).
Qed.

Lemma optionLoop_keeps (args : list jsstring) (n i : nat) (o : Options) :
  wellFormed args o -> wellFormed args (optionLoop args i n o).
Proof.
  revert i o. induction n as [|n IH]; intros i o H; simpl; [exact H|].
  destruct (i <? List.length args)%nat; [|exact H].
  destruct (optionTurn args i o) as [i' o'] eqn:E. apply IH.
  change o' with (snd (i', o')). rewrite <- E. apply optionTurn_keeps, H.
Qed.

Lemma parseOptions_wellFormed (args : list jsstring) :
  wellFormed args (parseOptions args).
Proof.
  apply optionLoop_keeps. unfold wellFormed. simpl.
  repeat split; try lia; try discriminate.
Qed.

End ServerOptions.

(** X1. Whatever the arguments of the [server] command are, the port its
    option loop ends with lies in [1, 65535]; the HTTP server, when it is
    started, listens on that port; and it is started whenever
    ["--mcp-only"] is not among the arguments. *)
Theorem server_listens_on_a_valid_port
        {P : Platform} (args : list Js.jsstring) (envKey : option Js.jsstring) :
  1 <= Cli.port (Cli.parseOptions args) <= 65535
  /\ (forall srv, Cli.http (Cli.serverCommand args envKey) = Some srv ->
                  Router.listenPort srv = Cli.port (Cli.parseOptions args))
  /\ (~ In (Js.str "--mcp-only") args ->
      Cli.http (Cli.serverCommand args envKey)
      = Some (Router.startHttpServer (Cli.port (Cli.parseOptions args)))).
Proof.
  destruct (parseOptions_wellFormed args) as (Hport & Hmcp & _).
  split; [exact Hport|]. unfold Cli.serverCommand. simpl. split.
  - intros srv. destruct (Cli.mcpOnly _); [discriminate|].
    intros [= <-]. reflexivity.
  - intros Hno. destruct (Cli.mcpOnly _); [|reflexivity].
    elim Hno. apply Hmcp. reflexivity.
Qed.

(** X2. When ["--http-url"] is not among the arguments of the [server]
    command, the base URL handed to the tool dispatcher is
    [http://localhost:<port>] for the very port the option loop ends with,
    so the dispatcher talks to the HTTP server the command starts. *)
Theorem base_url_follows_the_port
        {P : Platform} (args : list Js.jsstring) (envKey : option Js.jsstring) :
  ~ In (Js.str "--http-url") args ->
  Cli.mcpBaseUrl (Cli.serverCommand args envKey)
  = Js.str "http://localhost:" ++ Js.ofInt (Cli.port (Cli.parseOptions args)).
Proof.
  intros H. destruct (parseOptions_wellFormed args) as (_ & _ & Hurl & _).
  exact (Hurl H).
Qed.

(** X3. The key the [server] command hands to the storage layer is never
    the empty string: it is a non-empty argument of the command line, or
    the value of the environment variable. *)
Theorem storage_key_is_never_empty
        {P : Platform} (args : list Js.jsstring) (envKey : option Js.jsstring)
        (k : Js.jsstring) :
  Cli.storageKey (Cli.serverCommand args envKey) = Some k ->
  k <> [] /\ (In k args \/ envKey = Some k).
Proof.
  destruct (parseOptions_wellFormed args) as (_ & _ & _ & Hkey).
  unfold Cli.serverCommand, Cli.apiKeyOf. simpl.
  destruct (Cli.apiKeyArg (Cli.parseOptions args)) as [k'|].
  - intros [= <-]. destruct (Hkey k' eq_refl). auto.
  - destruct envKey as [e|]; [|discriminate].
    destruct (Js.truthy e) eqn:T; [|discriminate]. intros [= <-]. split; auto.
    intros ->. discriminate T.
Qed.

Lemma ofInt_not_flag (p : Z) (flag : Js.jsstring) :
  0 < p -> Js.startsWith [45%N] flag = true ->
  Js.eqb (Js.ofInt p) flag = false.
Proof.
  intros Hp Hf. unfold Js.ofInt. destruct p as [|q|q]; try lia. simpl Z.to_int.
  destruct (uint_codes_head (DecimalPos.Unsigned.to_uint_nonnil q))
    as (c & r & E & _ & H45 & _).
  rewrite E. destruct flag as [|f flag]; [reflexivity|].
  cbn [Js.startsWith Js.eqb] in Hf |- *.
  rewrite andb_true_r in Hf. apply N.eqb_eq in Hf. subst f.
  apply N.eqb_neq in H45. rewrite H45. reflexivity.
Qed.

Lemma optionTurn_port_value (p : Z) :
  1 <= p <= 65535 ->
  Cli.optionTurn [Js.str "--port"; Js.ofInt p] 0
    {| Cli.port := 4747; Cli.mcpOnly := false;
       Cli.httpUrl := Js.str "http://localhost:4747";
       Cli.apiKeyArg := None |}
  = (1%nat, {| Cli.port := p; Cli.mcpOnly := false;
               Cli.httpUrl := Js.str "http://localhost:" ++ Js.ofInt p;
               Cli.apiKeyArg := None |}).
Proof.
  intros Hp.
  unfold Cli.optionTurn, Cli.argIs, Cli.valueAfter.
  cbn [nth_error Nat.add]. rewrite ofInt_truthy, parseInt_ofInt.
  replace ((0 <? p) && (p <? 65536)) with true
   by (symmetry; apply andb_true_iff; split; apply Z.ltb_lt; lia).
  change (Js.eqb (Js.str "--port") (Js.str "--port")) with true. cbv iota.
  repeat (cbn [nth_error existsb Nat.add];
          rewrite ?ofInt_not_flag by (lia || reflexivity)).
  reflexivity.
Qed.

(** X4. Started with ["--port", String(p)] for a port [p] of [1, 65535], as
    the setup wizard starts it for its connection test, the [server]
    command ends with port [p] and base URL [http://localhost:<p>], the
    address the wizard then probes. *)
Theorem server_started_by_the_wizard (p : Z) :
  1 <= p <= 65535 ->
  Cli.port (Cli.parseOptions [Js.str "--port"; Js.ofInt p]) = p
  /\ Cli.httpUrl (Cli.parseOptions [Js.str "--port"; Js.ofInt p])
     = Js.str "http://localhost:" ++ Js.ofInt p.
Proof.
  intros Hp. unfold Cli.parseOptions. cbn [List.length Cli.optionLoop].
  change (0 <? 2)%nat with true. cbv iota.
  rewrite (optionTurn_port_value Hp). cbn [Nat.ltb Nat.leb]. split; reflexivity.
Qed.

(* ------------------------------------------------------------------------- *)
(** ** Properties: the configuration the wizard writes                       *)
(* ------------------------------------------------------------------------- *)

Section ClaudeConfig.
Import Js Json Cli Setup.

Lemma field_setField_same (k : jsstring) (v : json)
      (o : list (jsstring * json)) :
  field k (setField k v o) = Some v.
Proof.
  induction o as [|[k' v'] o IH]; simpl.
  - rewrite eqb_refl. reflexivity.
  - destruct (eqb k' k) eqn:E; simpl; rewrite E; auto.
Qed.

Lemma field_setField_other (k k' : jsstring) (v : json)
      (o : list (jsstring * json)) :
  k' <> k -> field k' (setField k v o) = field k' o.
Proof.
  intros Hne. induction o as [|[k0 v0] o IH]; simpl.
  - destruct (eqb k k') eqn:E; [|reflexivity].
    apply eqb_eq in E. congruence.
  - destruct (eqb k0 k) eqn:E; simpl.
    + apply eqb_eq in E. subst k0.
      destruct (eqb k k') eqn:E'; [|reflexivity].
      apply eqb_eq in E'. congruence.
    + rewrite IH. reflexivity.
Qed.

Lemma setField_idem (k : jsstring) (v : json) (o : list (jsstring * json)) :
  setField k v (setField k v o) = setField k v o.
Proof.
  induction o as [|[k' v'] o IH]; simpl.
  - rewrite eqb_refl. reflexivity.
  - destruct (eqb k' k) eqn:E; simpl; rewrite E; [reflexivity|].
    rewrite IH. reflexivity.
Qed.



End ClaudeConfig.


Lemma writeClaudeConfig_keeps
      (o : list (Js.jsstring * Json.json)) (port : Z) :
  exists o',
    Setup.writeClaudeConfig (Setup.Holds (Json.JObj o)) port
    = Some (Json.JObj o')
    /\ (forall k, k <> Js.str "mcpServers" ->
                  Json.field k o' = Json.field k o)
    /\ (forall servers,
           Json.field (Js.str "mcpServers") o = Some (Json.JObj servers) ->
           exists servers',
             Json.field (Js.str "mcpServers") o' = Some (Json.JObj servers')
             /\ forall k, k <> Js.str "agentation" ->
                          Json.field k servers' = Json.field k servers)
    /\ Setup.writeClaudeConfig (Setup.Holds (Json.JObj o')) port
       = Some (Json.JObj o').
Proof.
  unfold Setup.writeClaudeConfig.
  destruct (Json.field (Js.str "mcpServers") o) as [v|] eqn:Ho.
  - destruct v as [| | | |l|servers];
      try (eexists; split; [reflexivity|]; split;
           [intros k Hk; apply field_setField_other; exact Hk|]; split;
           [intros servers; discriminate|];
           rewrite field_setField_same; cbn [Setup.setField];
           rewrite eqb_refl, setField_idem; reflexivity).
    + exists o. split; [reflexivity|]. split; [reflexivity|]. split.
      * intros servers; discriminate.
      * rewrite Ho. reflexivity.
    + eexists. split; [reflexivity|]. split;
        [intros k Hk; apply field_setField_other; exact Hk|]. split.
      * intros s [= <-]. eexists. split; [apply field_setField_same|].
        intros k Hk. apply field_setField_other. exact Hk.
      * rewrite field_setField_same, !setField_idem. reflexivity.
  - eexists. split; [reflexivity|]. split;
      [intros k Hk; apply field_setField_other; exact Hk|]. split.
    + intros servers; discriminate.
    + rewrite field_setField_same. cbn [Setup.setField].
      rewrite eqb_refl, setField_idem. reflexivity.
Qed.

Lemma exactNumbers_field (k : Js.jsstring) (v : Json.json)
      (o : list (Js.jsstring * Json.json)) :
  Cover.exactNumbers (Json.JObj o) = true ->
  Json.field k o = Some v -> Cover.exactNumbers v = true.
Proof.
  induction o as [|[k' v'] o IH]; [discriminate|]. cbn [Cover.exactNumbers
    forallb snd Json.field]. intros H. apply andb_true_iff in H.
  destruct H as [Hv Ho]. destruct (Js.eqb k' k).
  - intros [= <-]. exact Hv.
  - apply IH. exact Ho.
Qed.

Lemma exactNumbers_setField (k : Js.jsstring) (v : Json.json)
      (o : list (Js.jsstring * Json.json)) :
  Cover.exactNumbers v = true ->
  Cover.exactNumbers (Json.JObj o) = true ->
  Cover.exactNumbers (Json.JObj (Setup.setField k v o)) = true.
Proof.
  intros Hv. induction o as [|[k' v'] o IH]; cbn [Cover.exactNumbers
    Setup.setField forallb snd].
  - intros _. rewrite Hv. reflexivity.
  - intros H. apply andb_true_iff in H. destruct H as [Hv' Ho].
    destruct (Js.eqb k' k); cbn [forallb snd].
    + rewrite Hv. exact Ho.
    + rewrite Hv'. exact (IH Ho).
Qed.

Lemma exactNumbers_entry (port : Z) :
  Cover.exactNumbers (Setup.claudeEntry port) = true.
Proof.
  unfold Setup.claudeEntry, Setup.claudeArgs.
  destruct (port =? Cli.DEFAULT_PORT); reflexivity.
Qed.

(** The value [writeClaudeConfig] hands to [JSON.stringify] holds exact
    numbers when the value it read did. *)
Lemma writeClaudeConfig_exact
      (o o' : list (Js.jsstring * Json.json)) (port : Z) :
  Cover.exactNumbers (Json.JObj o) = true ->
  Setup.writeClaudeConfig (Setup.Holds (Json.JObj o)) port
  = Some (Json.JObj o') ->
  Cover.exactNumbers (Json.JObj o') = true.
Proof.
  intros Ho. unfold Setup.writeClaudeConfig.
  destruct (Json.field (Js.str "mcpServers") o) as [v|] eqn:E.
  - pose proof (@exactNumbers_field _ _ _ Ho E) as Hv.
    destruct v as [| | | |l|servers]; intros [= <-]; try exact Ho;
      apply exactNumbers_setField; try exact Ho;
      try (cbn [Cover.exactNumbers forallb snd];
           rewrite exactNumbers_entry; reflexivity).
    apply exactNumbers_setField; [apply exactNumbers_entry | exact Hv].
  - intros [= <-]. apply exactNumbers_setField; [|exact Ho].
    cbn [Cover.exactNumbers forallb snd]. rewrite exactNumbers_entry.
    reflexivity.
Qed.

(** X6. [writeClaudeConfig] touches nothing but its own entry.  On a file
    that holds an object whose numbers are integers of size at most 2^53
    (the numbers that [JSON.parse] and [JSON.stringify] carry unchanged),
    the value written has such numbers only, so the file reads back as the
    value written; in it every other property of the configuration and
    every other entry of an [mcpServers] object is as it was, and writing
    the same port a second time changes nothing. *)
Theorem wizard_keeps_the_other_entries
        (o : list (Js.jsstring * Json.json)) (port : Z) :
  Cover.exactNumbers (Json.JObj o) = true ->
  exists o',
    Setup.writeClaudeConfig (Setup.Holds (Json.JObj o)) port
    = Some (Json.JObj o')
    /\ Cover.exactNumbers (Json.JObj o') = true
    /\ (forall k, k <> Js.str "mcpServers" ->
                  Json.field k o' = Json.field k o)
    /\ (forall servers,
           Json.field (Js.str "mcpServers") o = Some (Json.JObj servers) ->
           exists servers',
             Json.field (Js.str "mcpServers") o' = Some (Json.JObj servers')
             /\ forall k, k <> Js.str "agentation" ->
                          Json.field k servers' = Json.field k servers)
    /\ Setup.writeClaudeConfig (Setup.Holds (Json.JObj o')) port
       = Some (Json.JObj o').
Proof.
  intros Ho.
  destruct (writeClaudeConfig_keeps o port) as (o' & Hw & Hk & Hs & Hi).
  exists o'. split; [exact Hw|]. split; [|auto].
  exact (@writeClaudeConfig_exact _ _ _ Ho Hw).
Qed.

Section CodexConfig.
Import Js Json Cli Setup.

Lemma startsWith_app (n r : jsstring) : startsWith n (n ++ r) = true.
Proof.
  induction n as [|c n IH]; [reflexivity|]. simpl.
  rewrite N.eqb_refl, IH. reflexivity.
Qed.

Lemma startsWith_more (n a b : jsstring) :
  startsWith n a = true -> startsWith n (a ++ b) = true.
Proof.
  revert a. induction n as [|c n IH]; intros a H; [reflexivity|].
  destruct a as [|x a]; [discriminate H|]. simpl in H |- *.
  apply andb_true_iff in H. destruct H as [H1 H2].
  rewrite H1, (IH _ H2). reflexivity.
Qed.

Lemma includes_here (n r : jsstring) : includes n (n ++ r) = true.
Proof.
  destruct (n ++ r) eqn:E; simpl; rewrite <- E, startsWith_app; reflexivity.
Qed.

Lemma includes_left (n a b : jsstring) :
  includes n a = true -> includes n (a ++ b) = true.
Proof.
  induction a as [|x a IH]; intros H.
  - simpl in H. rewrite orb_false_r in H.
    destruct n; [|discriminate H]. destruct b; reflexivity.
  - cbn [includes] in H. apply orb_true_iff in H.
    change ((x :: a) ++ b) with (x :: (a ++ b)). cbn [includes].
    apply orb_true_iff. destruct H as [H|H].
    + left. apply (startsWith_more _ _ b H).
    + right. apply IH, H.
Qed.

Lemma includes_right (n a b : jsstring) :
  includes n b = true -> includes n (a ++ b) = true.
Proof.
  intros H. induction a as [|x a IH]; [exact H|].
  change ((x :: a) ++ b) with (x :: (a ++ b)). cbn [includes].
  rewrite IH. apply orb_true_r.
Qed.

Lemma join_holds (sep x : jsstring) (l1 l2 : list jsstring) :
  exists a b, join sep (l1 ++ x :: l2) = a ++ x ++ b.
Proof.
  induction l1 as [|y l1 (a & b & IH)].
  - exists []. destruct l2 as [|z l2].
    + exists []. simpl. rewrite app_nil_r. reflexivity.
    + eexists. reflexivity.
  - exists (y ++ sep ++ a), b.
    change ((y :: l1) ++ x :: l2) with (y :: (l1 ++ x :: l2)).
    cbn [join]. destruct (l1 ++ x :: l2) eqn:E.
    + destruct l1; discriminate E.
    + rewrite IH, <- !app_assoc. reflexivity.
Qed.

Lemma written_config_has_header (existing : option jsstring) (port : Z) :
  includes sectionHeader (writeCodexConfig existing port) = true.
Proof.
  unfold writeCodexConfig, buildCodexAgentationBlock.
  destruct existing as [content|]; [|reflexivity].
  destruct (findIndex _ _) as [start|].
  - set (l := firstn start _ ++ _ ++ fromNextTable _).
    assert (E : exists a b, join nl l = a ++ sectionHeader ++ b)
      by exact (join_holds nl sectionHeader (firstn start _)
                  (_ :: _ :: _ :: fromNextTable _)).
    destruct E as (a & b & E). rewrite E.
    assert (H : includes sectionHeader (a ++ sectionHeader ++ b) = true)
      by apply includes_right, includes_here.
    destruct (endsWith _ _); [exact H|]. apply includes_left, H.
  - rewrite !app_assoc. apply includes_right. reflexivity.
Qed.

Lemma trimStart_suffix (x : jsstring) : exists a, x = a ++ trimStart x.
Proof.
  induction x as [|c x (a & IH)]; [exists []; reflexivity|]. simpl.
  destruct (isWhiteSpace c); [|exists []; reflexivity].
  exists (c :: a). simpl. rewrite <- IH. reflexivity.
Qed.

Lemma trim_inside (x : jsstring) : exists a b, x = a ++ trim x ++ b.
Proof.
  destruct (trimStart_suffix x) as (a & Ha).
  destruct (trimStart_suffix (rev (trimStart x))) as (b & Hb).
  exists a, (rev b). unfold trim, trimEnd. rewrite <- rev_app_distr, <- Hb.
  rewrite rev_involutive. exact Ha.
Qed.

Lemma splitLines_inside (n : nat) (s cur line : jsstring) :
  (List.length s <= n)%nat ->
  In line (splitLines cur s) -> exists a b, rev cur ++ s = a ++ line ++ b.
Proof.
  revert s cur. induction n as [|n IH]; intros s cur Hn H.
  - destruct s; [|simpl in Hn; lia]. simpl in H. destruct H as [<- | []].
    exists [], []. rewrite !app_nil_r. reflexivity.
  - destruct s as [|c s].
    { simpl in H. destruct H as [<- | []].
      exists [], []. rewrite !app_nil_r. reflexivity. }
    assert (Hgo : In line (splitLines (c :: cur) s) ->
                  exists a b, rev cur ++ c :: s = a ++ line ++ b).
    { intros H'. destruct (IH s (c :: cur)) as (a & b & E);
        [simpl in Hn; lia | exact H' |].
      exists a, b. rewrite <- E. simpl. rewrite <- app_assoc. reflexivity. }
    assert (Hcut : forall m r, c :: s = m ++ r -> (List.length r <= n)%nat ->
                   In line (rev cur :: splitLines [] r) ->
                   exists a b, rev cur ++ c :: s = a ++ line ++ b).
    { intros m r Hm Hr [<- | H'].
      - exists [], (c :: s). reflexivity.
      - destruct (IH r [] Hr H') as (a & b & E). simpl in E.
        exists (rev cur ++ m ++ a), b. rewrite Hm, E, <- !app_assoc.
        reflexivity. }
    cbn [splitLines] in H. destruct (c =? 10)%N.
    + apply (Hcut [c] s); [reflexivity | simpl in Hn; lia | exact H].
    + destruct s as [|d r]; [apply Hgo, H|].
      destruct ((c =? 13)%N && (d =? 10)%N); [|apply Hgo, H].
      apply (Hcut [c; d] r); [reflexivity | simpl in Hn; lia | exact H].
Qed.

Lemma findIndex_found {A} (f : A -> bool) (l : list A) (i : nat) :
  findIndex f l = Some i -> exists x, In x l /\ f x = true.
Proof.
  revert i. induction l as [|x l IH]; intros i H; [discriminate H|].
  simpl in H. destruct (f x) eqn:E.
  - exists x. split; [left; reflexivity | exact E].
  - destruct (findIndex f l) as [j|]; [|discriminate H].
    destruct (IH j eq_refl) as (y & Hy & Ey). exists y. split; [right|]; auto.
Qed.

(** A configuration that does not contain the header has no header line. *)
Lemma no_header_line (content : jsstring) :
  includes sectionHeader content = false ->
  findIndex (fun line => eqb (trim line) sectionHeader)
            (splitLines [] content) = None.
Proof.
  intros Hno. destruct (findIndex _ _) as [i|] eqn:E; [|reflexivity].
  destruct (@findIndex_found _ _ _ _ E) as (line & Hin & Ht).
  apply eqb_eq in Ht.
  destruct (@splitLines_inside _ _ _ _ (le_n _) Hin) as (a & b & Ec).
  destruct (trim_inside line) as (a' & b' & El). rewrite Ht in El.
  simpl in Ec. rewrite Ec, El, <- !app_assoc in Hno.
  rewrite includes_right in Hno; [discriminate Hno|].
  apply includes_right, includes_here.
Qed.

Lemma startsWith_before_newline (h a rest : jsstring) :
  forallb (fun c => negb (c =? 10)%N) h = true ->
  startsWith h (a ++ 10%N :: rest) = true -> startsWith h a = true.
Proof.
  revert a. induction h as [|x h IH]; intros a Hh H; [reflexivity|].
  simpl in Hh. apply andb_true_iff in Hh. destruct Hh as [Hx Hh].
  destruct a as [|y a]; simpl in H |- *.
  - apply andb_true_iff in H. destruct H as [H _]. rewrite H in Hx.
    discriminate Hx.
  - apply andb_true_iff in H. destruct H as [H1 H2].
    rewrite H1, (IH a Hh H2). reflexivity.
Qed.

Lemma startsWith_prefix (h k s : jsstring) :
  startsWith (h ++ k) s = true -> startsWith h s = true.
Proof.
  revert s. induction h as [|x h IH]; intros s H; [reflexivity|].
  destruct s as [|y s]; [discriminate H|]. simpl in H |- *.
  apply andb_true_iff in H. destruct H as [H1 H2].
  rewrite H1, (IH s H2). reflexivity.
Qed.

(** No match of the header starts in a text that does not contain it and
    is followed by a line end. *)
Lemma no_match_before (content u t rest : jsstring) :
  includes sectionHeader content = false ->
  content = u ++ t ->
  startsWith (sectionHeader ++ nl) (t ++ 10%N :: rest) = false.
Proof.
  intros Hno ->. destruct (startsWith _ _) eqn:E; [|reflexivity].
  apply startsWith_prefix, startsWith_before_newline in E; [|reflexivity].
  rewrite includes_right in Hno; [discriminate Hno|].
  destruct t; simpl; simpl in E; rewrite E; reflexivity.
Qed.

Lemma sectionMatch_skip (content rest : jsstring) (ls : bool) :
  includes sectionHeader content = false ->
  sectionMatch ls (content ++ 10%N :: rest) = sectionMatch true rest.
Proof.
  intros Hno.
  assert (H : forall u t ls, content = u ++ t ->
              sectionMatch ls (t ++ 10%N :: rest) = sectionMatch true rest).
  { intros u t. revert u. induction t as [|c t IH]; intros u ls' E.
    - cbn [app sectionMatch]. 
      replace (startsWith (sectionHeader ++ nl) (10%N :: rest)) with false
        by reflexivity.
      rewrite andb_false_r. reflexivity.
    - change ((c :: t) ++ 10%N :: rest) with (c :: (t ++ 10%N :: rest)).
      cbn [sectionMatch].
      change (c :: (t ++ 10%N :: rest)) with ((c :: t) ++ 10%N :: rest).
      rewrite (@no_match_before content u (c :: t) rest Hno E), andb_false_r.
      apply (IH (u ++ [c])). rewrite <- app_assoc. exact E. }
  apply (H [] content ls). reflexivity.
Qed.

End CodexConfig.

(** X7. After the wizard has written the Codex configuration, the doctor
    always finds the server configured: whatever the file held before, the
    text [writeCodexConfig] leaves contains the section header the doctor
    looks for. *)
Theorem doctor_finds_the_codex_section
        (existing : option Js.jsstring) (port : Z) :
  Setup.codexDoctor (Some (Setup.writeCodexConfig existing port))
  = Setup.Configured
      (Setup.getCodexAgentationPort (Setup.writeCodexConfig existing port)).
Proof.
  unfold Setup.codexDoctor. rewrite written_config_has_header. reflexivity.
Qed.

(** X8. For a Codex configuration written where there was no file, or
    where the file did not contain the section header, the doctor probes the
    default port 4747 whatever port the wizard was given: under the [m] flag
    the section that [getCodexAgentationPort] cuts out ends at the first
    line end, so it holds the [command] line alone and the ["--port"] of the
    [args] line is never read. *)
Theorem codex_doctor_probes_the_default_port
        (existing : option Js.jsstring) (port : Z) :
  (forall content, existing = Some content ->
                   Js.includes Setup.sectionHeader content = false) ->
  Setup.sectionMatch true (Setup.writeCodexConfig existing port)
  = Some (Js.str "command = " ++ Setup.quoted (Js.str "npx"))
  /\ Setup.probedPort
       (Setup.codexDoctor (Some (Setup.writeCodexConfig existing port)))
     = Cli.DEFAULT_PORT.
Proof.
  intros Hno.
  assert (H : Setup.sectionMatch true (Setup.writeCodexConfig existing port)
              = Some (Js.str "command = " ++ Setup.quoted (Js.str "npx"))).
  { destruct existing as [content|]; [|reflexivity].
    specialize (Hno content eq_refl). unfold Setup.writeCodexConfig.
    rewrite (@no_header_line content Hno).
    destruct (Setup.endsWith content Setup.nl).
    - change (content ++ [] ++ Setup.nl ++ ?b) with (content ++ 10%N :: b).
      rewrite (@sectionMatch_skip content _ true Hno). reflexivity.
    - change (content ++ Setup.nl ++ Setup.nl ++ ?b)
        with (content ++ 10%N :: 10%N :: b).
      rewrite (@sectionMatch_skip content _ true Hno). reflexivity. }
  split; [exact H|].
  unfold Setup.codexDoctor. rewrite written_config_has_header.
  unfold Setup.probedPort, Setup.getCodexAgentationPort. rewrite H.
  reflexivity.
Qed.

(* ------------------------------------------------------------------------- *)
(** ** Properties: the route table                                           *)
(* ------------------------------------------------------------------------- *)

Section RouteTable.
Import Js Json Model Http Router Spec Cover.

Lemma matchIn_sound (rs : list Route) (m path : jsstring) (h : Handler)
      (ps : Params) :
  matchIn rs m path = Some (h, ps) ->
  exists r groups,
    In r rs /\ r_method r = m
    /\ matchPattern (r_pattern r) path = Some groups
    /\ h = r_handler r /\ ps = combine (r_paramNames r) groups.
Proof.
  induction rs as [|r rs IH]; simpl; [discriminate|].
  destruct (eqb (r_method r) m) eqn:Em; simpl.
  - destruct (matchPattern (r_pattern r) path) as [groups|] eqn:Ep.
    + intros [= <- <-]. exists r, groups. apply eqb_eq in Em. auto 6.
    + intros H. destruct (IH H) as (r' & g & Hin & Hrest).
      exists r', g. auto.
  - intros H. destruct (IH H) as (r' & g & Hin & Hrest). exists r', g. auto.
Qed.

Lemma splitSlash_cons (s cur : jsstring) :
  exists f l, splitSlash cur s = f :: l.
Proof.
  revert cur. induction s as [|c s IH]; intros cur; simpl; [eauto|].
  destruct (c =? 47)%N; eauto.
Qed.

Lemma forallb_reversed {A} (f : A -> bool) (l : list A) :
  forallb f (rev l) = forallb f l.
Proof.
  induction l as [|x l IH]; [reflexivity|]. simpl.
  rewrite forallb_app, IH. simpl. rewrite andb_true_r. apply andb_comm.
Qed.

Lemma splitSlash_parts (s cur first : jsstring) (segs : list jsstring) :
  forallb (fun c => negb (c =? 47)%N) cur = true ->
  splitSlash cur s = first :: segs ->
  rev cur ++ s = first ++ flat_map (fun seg => 47%N :: seg) segs
  /\ Forall (fun seg => forallb (fun c => negb (c =? 47)%N) seg = true)
            (first :: segs).
Proof.
  revert cur first segs. induction s as [|c s IH]; intros cur first segs Hc H.
  - simpl in H. injection H as <- <-. simpl. rewrite app_nil_r.
    split; [reflexivity|]. constructor; [|constructor].
    rewrite forallb_reversed. exact Hc.
  - simpl in H. destruct (c =? 47)%N eqn:E.
    + injection H as <- <-. apply N.eqb_eq in E. subst c.
      destruct (splitSlash_cons s []) as (f & l & Es).
      destruct (IH [] f l eq_refl Es) as [Hs Hl]. simpl in Hs.
      rewrite Es, Hs. split; [reflexivity|]. constructor; [|exact Hl].
      rewrite forallb_reversed. exact Hc.
    + destruct (IH (c :: cur) first segs) as [Hs Hl]; [|exact H|].
      * simpl. rewrite E, Hc. reflexivity.
      * split; [|exact Hl]. rewrite <- Hs. simpl. rewrite <- app_assoc.
        reflexivity.
Qed.

(** What a matching pattern tells about the path. *)
Lemma matchPattern_parts (p : list Piece) (path : jsstring)
      (groups : list jsstring) :
  matchPattern p path = Some groups ->
  exists segs,
    matchPieces p segs = Some groups
    /\ path = flat_map (fun seg => 47%N :: seg) segs
    /\ Forall (fun seg => forallb (fun c => negb (c =? 47)%N) seg = true) segs.
Proof.
  unfold matchPattern. destruct (splitSlash [] path) as [|f segs] eqn:E;
    [discriminate|].
  destruct f; [|discriminate]. intros H. exists segs.
  destruct (@splitSlash_parts path [] [] segs eq_refl E) as [Hs Hl].
  split; [exact H|]. split; [exact Hs|]. inversion Hl; assumption.
Qed.

Ltac pieces H :=
  repeat (match type of H with
          | context [match ?l with [] => _ | _ :: _ => _ end] => destruct l
          | context [if eqb ?a ?b then _ else _] =>
              let E := fresh "E" in
              destruct (eqb a b) eqn:E; [apply eqb_eq in E|]
          | context [if Js.truthy ?a then _ else _] =>
              let T := fresh "T" in destruct (Js.truthy a) eqn:T
          end; simpl in H; try discriminate H).

Lemma routed_shape (r : Route) (path : jsstring) (groups : list jsstring) :
  In r routes ->
  matchPattern (r_pattern r) path = Some groups ->
  exists id,
    isSegment id = true
    /\ path = pathOf (r_pattern r) id
    /\ combine (r_paramNames r) groups = paramsOf r id.
Proof.
  intros Hin Hm. destruct (matchPattern_parts _ _ Hm) as (segs & Hp & -> & Hl).
  clear Hm. simpl in Hin.
  repeat (destruct Hin as [<- | Hin]);
    try contradiction; simpl in Hp; pieces Hp;
    injection Hp as <-; subst;
    repeat match goal with
           | H : Forall _ (_ :: _) |- _ => inversion H; clear H; subst
           end;
    unfold pathOf, paramsOf, isSegment; simpl; rewrite ?app_nil_r;
    first [ exists (str "x"); repeat split; reflexivity
          | eexists; split;
            [apply andb_true_iff; split; eassumption
            | simpl; rewrite ?app_nil_r; split; reflexivity] ].
Qed.

Lemma table_route (r : Route) (id : jsstring) :
  In r routes ->
  isSegment id = true ->
  matchRoute (r_method r) (pathOf (r_pattern r) id)
  = Some (r_handler r, paramsOf r id).
Proof.
  intros Hin H. apply isSegment_parts in H. destruct H as [Ht Hs].
  simpl in Hin.
  repeat (destruct Hin as [<- | Hin]); try contradiction;
    unfold matchRoute, routes, pathOf, paramsOf; simpl;
    unfold matchPattern; simpl; rewrite ?app_nil_r;
    rewrite ?(split_tail [] _ Hs), ?(splitSlash_segment [] _ _ Hs); simpl;
    rewrite ?app_nil_r, ?rev_involutive, ?Ht; simpl;
    rewrite ?Ht; reflexivity.
Qed.

End RouteTable.

(** X9. The route table, read as a relation.  A method and a path are
    routed exactly when some route of the table has that method and the
    path is its pattern with a non-empty, slash-free segment in the place of
    the group; the handler is that route's, and the parameters it gets are
    that segment under the route's parameter names.  In particular no route
    shadows another: the order of the table does not matter. *)
Theorem routes_are_those_of_the_table
        (m path : Js.jsstring) (h : Router.Handler) (ps : Router.Params) :
  Router.matchRoute m path = Some (h, ps)
  <-> exists r id,
        In r Router.routes /\ Spec.isSegment id = true
        /\ m = Router.r_method r
        /\ path = Cover.pathOf (Router.r_pattern r) id
        /\ h = Router.r_handler r /\ ps = Cover.paramsOf r id.
Proof.
  split.
  - intros H. destruct (matchIn_sound _ _ _ H) as (r & g & Hin & Hm & Hp & -> & ->).
    destruct (@routed_shape r path g Hin Hp) as (id & Hseg & Hpath & Hps).
    exists r, id. rewrite Hps. auto 8.
  - intros (r & id & Hin & Hseg & -> & -> & -> & ->).
    apply table_route; assumption.
Qed.

(* ------------------------------------------------------------------------- *)
(** ** Properties: what a request can change                                 *)
(* ------------------------------------------------------------------------- *)

Section Answers.
Context {P : Platform}.
Import Js Json Model StoreRead Http Router Spec Cover.

Ltac inner :=
  match goal with
  | |- context [match ?x with _ => _ end] =>
      lazymatch x with
      | context [match _ with _ => _ end] => fail
      | _ => destruct x eqn:?
      end
  end.

Ltac chain H :=
  repeat match type of H with
         | context [rbind ?r _] => destruct r; simpl in H; try discriminate H
         end.

Lemma addAnnotation_none (id : jsstring) (b : json) (env : Env)
      (w w' : World) :
  Store.addAnnotation id b env w = Ok (None, w') -> w' = w.
Proof.
  unfold Store.addAnnotation. destruct (getSession id w).
  - destruct b; try discriminate. intros H. chain H.
  - intros [= <-]. reflexivity.
Qed.

Lemma addThreadMessage_none (id : jsstring) (role content : option json)
      (env : Env) (w w' : World) :
  Store.addThreadMessage id role content env w = Ok (None, w') -> w' = w.
Proof.
  unfold Store.addThreadMessage. destruct (getAnnotation id w).
  - intros H. chain H.
    match type of H with
    | context [match ?x with _ => _ end] => destruct x; discriminate H
    end.
  - intros [= <-]. reflexivity.
Qed.

Lemma deleteAnnotation_none (id : jsstring) (env : Env) (w w' : World) :
  Store.deleteAnnotation id env w = (None, w') -> w' = w.
Proof.
  unfold Store.deleteAnnotation. destruct (getAnnotation id w).
  - discriminate.
  - intros [= <-]. reflexivity.
Qed.

Lemma runHandler_error (h : Handler) (c : ConnId) (env : Env) (req : Request)
      (params : Params) (w : World) (r : Response) (w' : World) :
  runHandler h c env req params w = Ok (r, w') ->
  400 <= statusOf r -> w' = w.
Proof.
  unfold runHandler. intros [= H]. revert H.
  destruct h;
    unfold globalSseHandler, getAllPendingHandler, listSessionsHandler,
      createSessionHandler, getSessionHandler, sseHandler, getPendingHandler,
      addAnnotationHandler, updateAnnotationHandler, getAnnotationHandler,
      deleteAnnotationHandler, addThreadHandler, catch400, rbind, parseBody,
      get;
    repeat inner; intros [= <- <-]; simpl; intros Hs; try reflexivity;
    try lia;
    match goal with
    | H : Store.addAnnotation _ _ _ _ = Ok (None, _) |- _ =>
        apply addAnnotation_none in H
    | H : Store.addThreadMessage _ _ _ _ _ = Ok (None, _) |- _ =>
        apply addThreadMessage_none in H
    | H : Store.deleteAnnotation _ _ _ = (None, _) |- _ =>
        apply deleteAnnotation_none in H
    end; assumption.
Qed.

Lemma handleRequest_error (c : ConnId) (env : Env) (req : Request)
      (w : World) :
  400 <= statusOf (fst (handleRequest c env req w)) ->
  snd (handleRequest c env req w) = w.
Proof.
  unfold handleRequest.
  destruct (eqb _ (str "OPTIONS")); [reflexivity|].
  destruct (_ && _); [reflexivity|].
  destruct (matchRoute _ _) as [[h params]|]; [|reflexivity].
  destruct (runHandler h c env req params w) as [[r w']|msg] eqn:E;
    [|reflexivity].
  simpl. intros H. exact (runHandler_error E H).
Qed.

(** The handlers behind GET routes. *)
Lemma get_routes (m path : jsstring) (h : Handler) (ps : Params) :
  m <> str "POST" -> m <> str "PATCH" -> m <> str "DELETE" ->
  matchRoute m path = Some (h, ps) ->
  In h [GlobalSse; GetAllPending; ListSessions; GetSession; SessionSse;
        GetPending; GetAnnotation].
Proof.
  intros H1 H2 H3 H.
  destruct (@matchIn_sound _ _ _ _ _ H) as (r & g & Hin & Hm & _ & -> & _).
  simpl in Hin.
  repeat (destruct Hin as [<- | Hin]); try contradiction; simpl in *;
    try tauto; congruence.
Qed.

Lemma sameStore_of_wire (w w' : World) : sameButWire w w' -> sameStore w w'.
Proof. intros (H1 & H2 & H3 & H4 & _ & _ & H7). repeat split; assumption. Qed.

Lemma handleRequest_read (c : ConnId) (env : Env) (req : Request)
      (w : World) :
  method req <> str "POST" -> method req <> str "PATCH" ->
  method req <> str "DELETE" ->
  sameStore w (snd (handleRequest c env req w)).
Proof.
  intros H1 H2 H3. unfold handleRequest.
  set (m := if Js.truthy (method req) then method req else str "GET").
  assert (Hm : m <> str "POST" /\ m <> str "PATCH" /\ m <> str "DELETE").
  { unfold m. destruct (Js.truthy (method req)); repeat split;
      try assumption; discriminate. }
  destruct Hm as (M1 & M2 & M3).
  destruct (eqb m (str "OPTIONS")); [repeat split|].
  destruct (_ && _); [repeat split|].
  destruct (matchRoute m (pathname req)) as [[h params]|] eqn:E;
    [|repeat split].
  pose proof (@get_routes m (pathname req) h params M1 M2 M3 E) as Hh. simpl in Hh.
  repeat (destruct Hh as [<- | Hh]); try contradiction; simpl;
    unfold globalSseHandler, getAllPendingHandler, listSessionsHandler,
      getSessionHandler, sseHandler, getPendingHandler, getAnnotationHandler;
    repeat inner; simpl; try (repeat split; reflexivity).
  destruct (replay_same c (paramId params) req
              (Sse.write c (Comment (str "connected")) (trackConnection c w)))
    as (R1 & R2 & R3 & R4 & _ & _ & R7).
  unfold sameStore. unfold EventBus.subscribe, EventBus.setSubscribers.
  cbn [sessions annotations eventLog sequence emitted].
  rewrite R1, R2, R3, R4, R7. repeat split.
Qed.

End Answers.

(** X10. An answer with status 400 or above comes with no change at all:
    whenever the listener answers a request with an error (a rejected body,
    a missing field, a refused patch, an unknown session, annotation or
    route), the state it leaves is the state it found, with no event issued
    and nothing written to any stream. *)
Theorem error_answers_change_nothing
        {P : Platform} (c : Model.ConnId) (env : Model.Env)
        (req : Http.Request) (w : Model.World) :
  400 <= Http.statusOf (fst (Router.handleRequest c env req w)) ->
  snd (Router.handleRequest c env req w) = w.
Proof. apply handleRequest_error. Qed.

(** X11. Only POST, PATCH and DELETE requests reach the store: a request
    with any other method (GET, also when it opens a stream, OPTIONS, or a
    method the table does not know) leaves the sessions, the annotations,
    the event log and the sequence counter as they were and issues no
    event. *)
Theorem only_writes_reach_the_store
        {P : Platform} (c : Model.ConnId) (env : Model.Env)
        (req : Http.Request) (w : Model.World) :
  Http.method req <> Js.str "POST" ->
  Http.method req <> Js.str "PATCH" ->
  Http.method req <> Js.str "DELETE" ->
  Cover.sameStore w (snd (Router.handleRequest c env req w)).
Proof. apply handleRequest_read. Qed.

(* ------------------------------------------------------------------------- *)
(** ** Properties: request bodies                                            *)
(* ------------------------------------------------------------------------- *)

Section Bodies.
Context {P : Platform}.
Import Js Json Model StoreRead Http Router Spec Cover.

(** A request with the method and the path of a route is given to the
    handler of that route. *)
Lemma handle_route (c : ConnId) (env : Env) (req : Request) (w : World)
      (r : Route) (id : jsstring) :
  In r routes -> isSegment id = true ->
  method req = r_method r ->
  pathname req = pathOf (r_pattern r) id ->
  Ok (handleRequest c env req w)
  = runHandler (r_handler r) c env req (paramsOf r id) w.
Proof.
  intros Hin Hseg Hm Hp. pose proof (@table_route r id Hin Hseg) as T.
  assert (Ht : Js.truthy (r_method r) = true
               /\ eqb (r_method r) (str "OPTIONS") = false
               /\ eqb (pathOf (r_pattern r) id) (str "/health") = false).
  { simpl in Hin.
    repeat (destruct Hin as [<- | Hin]); try contradiction;
      repeat split; reflexivity. }
  destruct Ht as (Ht & Ho & Hh).
  unfold handleRequest. rewrite Hm, Hp, Ht. cbv beta iota zeta.
  rewrite Ho, Hh, T. reflexivity.
Qed.

Lemma handle_method (c : ConnId) (env : Env) (req : Request) (w : World)
      (m : jsstring) :
  method req = m -> m <> [] -> m <> str "OPTIONS" -> m <> str "GET" ->
  handleRequest c env req w
  = match matchRoute m (pathname req) with
    | None => (sendError 404 (str "Not found"), w)
    | Some (h, params) =>
        match runHandler h c env req params w with
        | Ok done => done
        | Throw _ => (sendError 500 (str "Internal server error"), w)
        end
    end.
Proof.
  intros Hm Hne Ho Hg. unfold handleRequest. rewrite Hm.
  destruct m as [|x m]; [congruence|]. cbn [Js.truthy]. cbv beta iota zeta.
  apply eqb_neq in Ho, Hg. rewrite Ho, Hg, andb_false_r. reflexivity.
Qed.

End Bodies.

(** X12. A POST or PATCH request whose body is not JSON is answered 400
    "Invalid JSON" on every route of its method, before anything is looked
    up (so also when the session or the annotation of the path does not
    exist), and changes nothing; off the table it is answered 404 like any
    other request. *)
Theorem unparsable_body_is_rejected
        {P : Platform} (c : Model.ConnId) (env : Model.Env)
        (req : Http.Request) (w : Model.World) :
  Http.body req = Http.Unparsable ->
  Http.method req = Js.str "POST" \/ Http.method req = Js.str "PATCH" ->
  Router.handleRequest c env req w
  = (match Router.matchRoute (Http.method req) (Http.pathname req) with
     | Some _ => Http.sendError 400 (Js.str "Invalid JSON")
     | None => Http.sendError 404 (Js.str "Not found")
     end, w).
Proof.
  intros Hb Hm.
  assert (E : Router.handleRequest c env req w
              = match Router.matchRoute (Http.method req) (Http.pathname req)
                with
                | None => (Http.sendError 404 (Js.str "Not found"), w)
                | Some (h, params) =>
                    match Router.runHandler h c env req params w with
                    | Ok done => done
                    | Throw _ =>
                        (Http.sendError 500 (Js.str "Internal server error"),
                         w)
                    end
                end)
    by (destruct Hm as [Hm | Hm]; apply handle_method;
        rewrite ?Hm; try reflexivity; discriminate).
  rewrite E.
  destruct (Router.matchRoute _ _) as [[h params]|] eqn:Er; [|reflexivity].
  destruct (@matchIn_sound _ _ _ _ _ Er) as (r & g & Hin & Hr & _ & -> & _).
  simpl in Hin.
  repeat (destruct Hin as [<- | Hin]); try contradiction;
    simpl in Hr; try (rewrite <- Hr in Hm; destruct Hm; discriminate);
    simpl;
    unfold Http.createSessionHandler, Http.addAnnotationHandler,
      Http.updateAnnotationHandler, Http.addThreadHandler, Http.parseBody;
    rewrite Hb; reflexivity.
Qed.

(** X13. Required fields are checked before the store is asked.  A POST
    whose body is a JSON object (an absent body counts as the empty object)
    is answered 400 and changes nothing when [url] is missing or falsy
    (new session), when one of [comment], [element] and [elementPath] is
    (new annotation), or when one of [role] and [content] is (new thread
    message), whether or not the session or the annotation of the path
    exists. *)
Theorem missing_fields_are_rejected_first
        {P : Platform} (c : Model.ConnId) (env : Model.Env)
        (req : Http.Request) (w : Model.World)
        (o : list (Js.jsstring * Json.json)) (id : Js.jsstring) :
  Http.method req = Js.str "POST" ->
  Http.parseBody req = Ok (Json.JObj o) ->
  Spec.isSegment id = true ->
  (Http.pathname req = Js.str "/sessions" ->
   Json.truthy (Json.field (Js.str "url") o) = false ->
   Router.handleRequest c env req w
   = (Http.sendError 400 (Js.str "url is required"), w))
  /\ (Http.pathname req = Js.str "/sessions/" ++ id ++ Js.str "/annotations" ->
      Json.truthy (Json.field (Js.str "comment") o)
      && Json.truthy (Json.field (Js.str "element") o)
      && Json.truthy (Json.field (Js.str "elementPath") o) = false ->
      Router.handleRequest c env req w
      = (Http.sendError 400
           (Js.str "comment, element, and elementPath are required"), w))
  /\ (Http.pathname req = Js.str "/annotations/" ++ id ++ Js.str "/thread" ->
      Json.truthy (Json.field (Js.str "role") o)
      && Json.truthy (Json.field (Js.str "content") o) = false ->
      Router.handleRequest c env req w
      = (Http.sendError 400 (Js.str "role and content are required"), w)).
Proof.
  intros Hm Hb Hseg.
  assert (Hgo : forall r,
             In r Router.routes -> Router.r_method r = Js.str "POST" ->
             Http.pathname req = Cover.pathOf (Router.r_pattern r) id ->
             Ok (Router.handleRequest c env req w)
             = Router.runHandler (Router.r_handler r) c env req
                 (Cover.paramsOf r id) w).
  { intros r Hin Hr Hp. apply handle_route; try assumption. congruence. }
  split; [|split].
  - intros Hp Hf.
    assert (E := Hgo (Router.route "POST" [Router.Lit "sessions"]
                        Router.CreateSession [])
                     ltac:(simpl; auto 20) eq_refl Hp).
    injection E as ->. unfold Http.createSessionHandler. rewrite Hb.
    simpl. rewrite Hf. reflexivity.
  - intros Hp Hf.
    assert (E := Hgo (Router.route "POST"
                        [Router.Lit "sessions"; Router.Capture;
                         Router.Lit "annotations"]
                        Router.AddAnnotation ["id"%string])
                     ltac:(simpl; auto 20) eq_refl Hp).
    injection E as ->. unfold Http.addAnnotationHandler. rewrite Hb.
    simpl.
    destruct (Json.truthy (Json.field (Js.str "comment") o));
      destruct (Json.truthy (Json.field (Js.str "element") o));
      destruct (Json.truthy (Json.field (Js.str "elementPath") o));
      try discriminate Hf; reflexivity.
  - intros Hp Hf.
    assert (E := Hgo (Router.route "POST"
                        [Router.Lit "annotations"; Router.Capture;
                         Router.Lit "thread"]
                        Router.AddThread ["id"%string])
                     ltac:(simpl; auto 20) eq_refl Hp).
    injection E as ->. unfold Http.addThreadHandler. rewrite Hb.
    simpl.
    destruct (Json.truthy (Json.field (Js.str "role") o));
      destruct (Json.truthy (Json.field (Js.str "content") o));
      try discriminate Hf; reflexivity.
Qed.

(* ------------------------------------------------------------------------- *)
(** ** Properties: the end of a stream                                       *)
(* ------------------------------------------------------------------------- *)

Section Cleanup.
Context {P : Platform}.
Import Js Json Model StoreRead Http Router Spec Cover.

Lemma written_write (c c' : ConnId) (k : Chunk) (w : World) :
  written c (Sse.write c' k w)
  = written c w ++ if Nat.eqb c' c then [k] else [].
Proof.
  unfold written, Sse.write. simpl. rewrite filter_app, map_app. simpl.
  destruct (Nat.eqb c' c); reflexivity.
Qed.

Lemma written_runSink (c : ConnId) (k : Sink) (e : SAFEvent) (w : World) :
  Nat.eqb (sinkConn k) c = false ->
  written c (Sse.runSink k e w) = written c w.
Proof.
  intros H. destruct (runSink_frame k e w) as [-> | ->]; [reflexivity|].
  rewrite written_write, H, app_nil_r. reflexivity.
Qed.

Lemma written_deliver (c : ConnId) (e : SAFEvent) (subs : list Subscriber)
      (w : World) :
  filter (fun s => Nat.eqb (sinkConn (sub_sink s)) c) subs = [] ->
  written c (EventBus.deliver e subs w) = written c w.
Proof.
  revert w. induction subs as [|s subs IH]; intros w H; [reflexivity|].
  simpl in H. destruct (Nat.eqb (sinkConn (sub_sink s)) c) eqn:E;
    [discriminate H|].
  simpl. rewrite (IH _ H). destruct (EventBus.inScope s e); [|reflexivity].
  apply written_runSink, E.
Qed.

Lemma written_sendAll (c c' : ConnId) (evs : list SAFEvent) (w : World) :
  Nat.eqb c' c = false -> written c (sendAll c' evs w) = written c w.
Proof.
  intros H. revert w. induction evs as [|e evs IH]; intros w; [reflexivity|].
  simpl. rewrite IH. unfold Sse.sendSSEEvent.
  rewrite written_write, H, app_nil_r. reflexivity.
Qed.

Lemma written_replay (c c' : ConnId) (sid : jsstring) (req : Request)
      (w : World) :
  Nat.eqb c' c = false -> written c (replay c' sid req w) = written c w.
Proof.
  intros H. unfold replay. destruct (lastEventId req) as [h|]; [|reflexivity].
  destruct (Js.truthy h); [|reflexivity].
  destruct (parseInt h); [|reflexivity]. apply written_sendAll, H.
Qed.

Lemma emit_bus (ty : EventType) (sid : jsstring) (p : Payload) (t : Z)
      (w : World) :
  subscribers (EventBus.emit ty sid p t w) = subscribers w
  /\ sseConnections (EventBus.emit ty sid p t w) = sseConnections w.
Proof.
  destruct (emit_spec ty sid p t w) as (e & _ & _ & _ & _ & _ & _ & _ & _ & _
                                        & Hs & Hc & _).
  auto.
Qed.

Lemma effect_bus (c : ConnId) (env : Env) (w w' : World) :
  Effect c env w w' ->
  (subscribers w' = subscribers w /\ sseConnections w' = sseConnections w
   /\ forall c', filter (fun s => Nat.eqb (sinkConn (sub_sink s)) c')
                        (subscribers w) = [] ->
                 written c' w' = written c' w)
  \/ (exists s, sinkConn (sub_sink s) = c
                /\ subscribers w' = subscribers w ++ [s]
                /\ sseConnections w' = sseConnections w ++ [c]
                /\ forall c', Nat.eqb c c' = false ->
                              written c' w' = written c' w).
Proof.
  intros [ | ty sid p ss aa _ | sid req | d ].
  - left. auto.
  - left. destruct (emit_bus ty sid p (now env) (Store.setStore ss aa w))
      as [Hs Hc].
    split; [exact Hs|]. split; [exact Hc|]. intros c' H.
    unfold EventBus.emit. rewrite written_deliver by exact H. reflexivity.
  - right. eexists. split; [|split; [|split]].
    2:{ unfold EventBus.subscribe, EventBus.setSubscribers.
        cbn [subscribers].
        destruct (replay_same c sid req
                    (Sse.write c (Comment (str "connected"))
                               (trackConnection c w)))
          as (_ & _ & _ & _ & R5 & _). rewrite R5. reflexivity. }
    + reflexivity.
    + unfold EventBus.subscribe, EventBus.setSubscribers.
      cbn [sseConnections].
      destruct (replay_same c sid req
                  (Sse.write c (Comment (str "connected"))
                             (trackConnection c w)))
        as (_ & _ & _ & _ & _ & R6 & _). rewrite R6. reflexivity.
    + intros c' H. unfold EventBus.subscribe, EventBus.setSubscribers, written.
      cbn [wire]. fold (written c' (replay c sid req
                    (Sse.write c (Comment (str "connected"))
                               (trackConnection c w)))).
      rewrite written_replay, written_write, H, app_nil_r by exact H.
      reflexivity.
  - right. eexists. split; [|split; [|split]].
    2:{ reflexivity. }
    + reflexivity.
    + reflexivity.
    + intros c' H. unfold EventBus.subscribe, EventBus.setSubscribers, written.
      cbn [wire].
      fold (written c' (Sse.write c (Comment (str "connected to domain " ++ d))
                                  (trackConnection c w))).
      rewrite written_write, H, app_nil_r. reflexivity.
Qed.

Lemma isOpen_app (c : ConnId) (w w' : World) (c' : ConnId) :
  sseConnections w' = sseConnections w ++ [c'] ->
  isOpen c w' = isOpen c w || Nat.eqb c c'.
Proof.
  intros H. unfold isOpen. rewrite H, existsb_app. simpl.
  rewrite orb_false_r. reflexivity.
Qed.

Lemma step_tracked (a : Action) (w : World) :
  tracked w -> tracked (step a w).
Proof.
  intros Hw. destruct a as [c env req | c | c | cutoff]; simpl.
  - destruct (effect_bus (handleRequest_effect c env req w))
      as [(Hs & Hc & _) | (s & Hconn & Hs & Hc & _)];
      intros x Hx; rewrite Hs in Hx; unfold isOpen; rewrite Hc.
    + apply Hw, Hx.
    + rewrite existsb_app. apply in_app_or in Hx. destruct Hx as [Hx | Hx].
      * apply Hw in Hx. apply orb_true_iff. left. exact Hx.
      * destruct Hx as [<- | []]. rewrite Hconn. simpl.
        rewrite Nat.eqb_refl. apply orb_true_r.
  - destruct (isOpen c w); exact Hw.
  - destruct (isOpen c w); [|exact Hw]. intros x Hx.
    unfold forgetConnection, EventBus.unsubscribe, EventBus.setSubscribers
      in Hx |- *.
    cbn [subscribers] in Hx. apply filter_In in Hx. destruct Hx as [Hx Hne].
    unfold isOpen. cbn [sseConnections]. apply existsb_exists.
    apply Hw in Hx. unfold isOpen in Hx. apply existsb_exists in Hx.
    destruct Hx as (y & Hy & E). apply Nat.eqb_eq in E. subst y.
    exists (sinkConn (sub_sink x)). split; [|apply Nat.eqb_refl].
    apply filter_In. split; [exact Hy | exact Hne].
  - exact Hw.
Qed.

Lemma run_tracked (acts : list Action) (w : World) :
  tracked w -> tracked (run acts w).
Proof.
  revert w. induction acts as [|a acts IH]; intros w H; [exact H|].
  simpl. apply IH, step_tracked, H.
Qed.

Lemma step_closed (a : Action) (c : ConnId) (w : World) :
  touches c a = false -> closed c w ->
  closed c (step a w) /\ written c (step a w) = written c w.
Proof.
  intros Ht [Hs Ho]. unfold closed, subsOf in *.
  destruct a as [c' env req | c' | c' | cutoff]; simpl in Ht |- *.
  - destruct (effect_bus (handleRequest_effect c' env req w))
      as [(Es & Ec & Ew) | (s & Hconn & Es & Ec & Ew)].
    + unfold isOpen. rewrite Es, Ec. auto.
    + rewrite Es, filter_app, Hs. simpl. rewrite Hconn, Ht.
      rewrite (@isOpen_app c w _ c' Ec), Ho, Nat.eqb_sym, Ht.
      auto.
  - destruct (isOpen c' w) eqn:E; [|auto]. rewrite written_write.
    destruct (Nat.eqb c' c) eqn:Ec.
    + apply Nat.eqb_eq in Ec. subst c'. congruence.
    + rewrite app_nil_r. auto.
  - destruct (isOpen c' w); [|auto]. split; [|reflexivity].
    unfold forgetConnection, EventBus.unsubscribe, EventBus.setSubscribers,
      isOpen. cbn [subscribers sseConnections]. split.
    + induction (subscribers w) as [|x l IH]; [reflexivity|].
      simpl in Hs |- *.
      destruct (Nat.eqb (sinkConn (sub_sink x)) c) eqn:E;
        [discriminate Hs|].
      destruct (negb _); simpl; rewrite ?E; auto.
    + unfold isOpen in Ho.
      induction (sseConnections w) as [|x l IH]; [reflexivity|].
      simpl in Ho |- *. apply orb_false_iff in Ho. destruct Ho as [H1 H2].
      destruct (negb _); simpl; rewrite ?H1; auto.
  - auto.
Qed.

Lemma run_closed (post : list Action) (c : ConnId) (w : World) :
  untouched c post -> closed c w ->
  closed c (run post w) /\ written c (run post w) = written c w.
Proof.
  revert w. induction post as [|a post IH]; intros w Hu Hc; [auto|].
  unfold untouched in Hu. simpl in Hu. apply andb_true_iff in Hu.
  destruct Hu as [Ha Hu]. apply negb_true_iff in Ha.
  destruct (step_closed _ Ha Hc) as [Hc' Hw]. simpl.
  destruct (IH (step a w) Hu Hc') as [Hc'' Hw']. rewrite Hw', Hw. auto.
Qed.

Lemma disconnect_closes (c : ConnId) (w : World) :
  tracked w ->
  closed c (step (Disconnect c) w)
  /\ written c (step (Disconnect c) w) = written c w.
Proof.
  intros Hw. simpl. destruct (isOpen c w) eqn:E.
  - split; [|reflexivity]. unfold closed, subsOf, forgetConnection,
      EventBus.unsubscribe, EventBus.setSubscribers, isOpen.
    cbn [subscribers sseConnections]. split.
    + induction (subscribers w) as [|x l IH]; [reflexivity|]. simpl.
      destruct (Nat.eqb (sinkConn (sub_sink x)) c) eqn:Ex; simpl;
        rewrite ?Ex; exact IH.
    + induction (sseConnections w) as [|x l IH]; [reflexivity|]. simpl.
      destruct (Nat.eqb x c) eqn:Ex; simpl; [exact IH|].
      rewrite Nat.eqb_sym, Ex. exact IH.
  - split; [|reflexivity]. split; [|exact E]. unfold subsOf.
    destruct (filter _ _) as [|s l] eqn:F; [reflexivity|].
    assert (Hs : In s (filter (fun s => Nat.eqb (sinkConn (sub_sink s)) c)
                              (subscribers w)))
      by (rewrite F; left; reflexivity).
    apply filter_In in Hs. destruct Hs as [Hs Hc].
    apply Nat.eqb_eq in Hc. apply Hw in Hs. congruence.
Qed.

End Cleanup.

(** X14. Once a stream has ended, the server writes nothing more to it.
    In any state the process can reach, after the "close" of response [c]
    its subscription is gone and [sseConnections] no longer holds it, and
    whatever happens next (requests on other responses, mutations and their
    events, timers, also the 30 s timer of [c] itself, other disconnects,
    retention) not one chunk, neither an event frame nor a ping, is added
    to what was written to [c], and no subscription for [c] comes back. *)
Theorem nothing_is_written_after_close
        {P : Platform} (pre post : list Router.Action) (c : Model.ConnId) :
  Spec.untouched c post ->
  let w := Router.run pre Model.initial in
  let w' := Router.run post (Router.step (Router.Disconnect c) w) in
  Cover.written c w' = Cover.written c w
  /\ Spec.subsOf c w' = []
  /\ Router.isOpen c w' = false.
Proof.
  intros Hu w w'.
  assert (Hw : Cover.tracked w)
    by (apply run_tracked; intros s []).
  destruct (@disconnect_closes P c w Hw) as [Hc Hd].
  destruct (@run_closed P post c _ Hu Hc) as [[Hs Ho] Hr].
  unfold w'. rewrite Hr, Hd. auto.
Qed.

(* ------------------------------------------------------------------------- *)
(** ** Properties: the Last-Event-ID header                                  *)
(* ------------------------------------------------------------------------- *)

(** X15. The id a frame carries is the id a reconnection can present.
    [sendSSEEvent] writes the sequence number of an event as the [id] line of
    its frame; when a client opens the stream of an existing session with
    that text as Last-Event-ID, the handler reads the very number back and
    replays exactly the logged events of the session that come after it. *)
Theorem reconnect_with_the_id_of_a_frame
        {P : Platform} (c : Model.ConnId) (env : Model.Env)
        (req : Http.Request) (sid : Js.jsstring) (s : Model.Session)
        (last : Model.SAFEvent) (w : Model.World) :
  Http.method req = Js.str "GET" ->
  Http.pathname req = Js.str "/sessions/" ++ sid ++ Js.str "/events" ->
  Spec.isSegment sid = true ->
  StoreRead.getSession sid w = Some s ->
  Http.lastEventId req = Some (Js.ofInt (Model.e_sequence last)) ->
  (exists a b, Sse.render (Model.Frame last)
               = a ++ Js.str "id: " ++ Js.ofInt (Model.e_sequence last)
                   ++ 10%N :: b)
  /\ fst (Router.handleRequest c env req w) = Http.EventStream
  /\ Router.framesOf c (snd (Router.handleRequest c env req w))
     = Router.framesOf c w
       ++ filter (fun e => Js.eqb (Model.e_sessionId e) sid
                           && (Model.e_sequence last <? Model.e_sequence e))
                 (Model.eventLog w).
Proof.
  intros Hm Hp Hseg Hs Hh. split.
  - exists (Js.str "event: " ++ Model.eventTypeName (Model.e_type last)
            ++ [10%N]).
    eexists. unfold Sse.render. rewrite <- !app_assoc. reflexivity.
  - rewrite (@handle_session_events P c env req w sid Hm Hp Hseg).
    destruct (@sse_opened c sid _ _ req w s Hs Hh
                (parseInt_ofInt (Model.e_sequence last)))
      as (H1 & _ & _ & H4).
    split; [exact H1 | exact H4].
Qed.

(** X16. A Last-Event-ID that [parseInt] cannot read (the empty string,
    text that does not start with a number) is not an error: the stream of
    an existing session is opened, the first chunk is the "connected"
    comment, nothing is replayed and no event is issued; the subscription is
    registered as for a first connection. *)
Theorem last_event_id_without_a_number
        {P : Platform} (c : Model.ConnId) (env : Model.Env)
        (req : Http.Request) (sid : Js.jsstring) (s : Model.Session)
        (w : Model.World) :
  Http.method req = Js.str "GET" ->
  Http.pathname req = Js.str "/sessions/" ++ sid ++ Js.str "/events" ->
  Spec.isSegment sid = true ->
  StoreRead.getSession sid w = Some s ->
  (forall h, Http.lastEventId req = Some h -> Js.parseInt h = None) ->
  let w' := snd (Router.handleRequest c env req w) in
  fst (Router.handleRequest c env req w) = Http.EventStream
  /\ Cover.written c w'
     = Cover.written c w ++ [Model.Comment (Js.str "connected")]
  /\ Router.framesOf c w' = Router.framesOf c w
  /\ Model.emitted w' = Model.emitted w
  /\ Spec.subsOf c w'
     = Spec.subsOf c w
       ++ [{| Model.sub_scope := Some sid;
              Model.sub_sink := Model.ToSession c |}].
Proof.
  intros Hm Hp Hseg Hs Hh w'. unfold w'.
  rewrite (@handle_session_events P c env req w sid Hm Hp Hseg).
  unfold Http.sseHandler, StoreRead.getSessionWithAnnotations. rewrite Hs.
  assert (Hr : forall w0, Http.replay c sid req w0 = w0).
  { intros w0. unfold Http.replay.
    destruct (Http.lastEventId req) as [h|]; [|reflexivity].
    rewrite (Hh h eq_refl). destruct (Js.truthy h); reflexivity. }
  rewrite Hr. cbn [fst snd]. split; [reflexivity|].
  unfold Cover.written, Router.framesOf, Spec.subsOf. simpl.
  rewrite !filter_app, !flat_map_app, map_app. simpl.
  rewrite Nat.eqb_refl, !app_nil_r. auto.
Qed.

(* ------------------------------------------------------------------------- *)
(** ** Properties: the tools and the calls they make                         *)
(* ------------------------------------------------------------------------- *)

(** X17. The dismiss tool first PATCHes the annotation with
    [{status: "dismissed", resolvedBy: "agent"}] and, when that call
    succeeds, always POSTs the thread message with role agent and content
    "Dismissed: <reason>", also when the reason is the empty string; when
    the PATCH fails it is the only call. *)
Theorem dismiss_tool_calls
        {P : Platform} (B : Type)
        (fetch : Mcp.HttpCall -> B -> Mcp.HttpReply * B) (b : B)
        (args : option Json.json) (id reason : Js.jsstring) :
  Mcp.schemaString args "annotationId" = Ok id ->
  Mcp.schemaString args "reason" = Ok reason ->
  let patchCall :=
    {| Mcp.c_method := Js.str "PATCH";
       Mcp.c_path := Js.str "/annotations/" ++ id;
       Mcp.c_body :=
         Some (Json.JObj [(Js.str "status", Json.JStr (Js.str "dismissed"));
                          (Js.str "resolvedBy", Json.JStr (Js.str "agent"))]) |} in
  let postCall :=
    {| Mcp.c_method := Js.str "POST";
       Mcp.c_path := Js.str "/annotations/" ++ id ++ Js.str "/thread";
       Mcp.c_body :=
         Some (Json.JObj [(Js.str "role", Json.JStr (Js.str "agent"));
                          (Js.str "content",
                           Json.JStr (Js.str "Dismissed: " ++ reason))]) |} in
  Cover.callsOf fetch (Js.str "agentation_dismiss") args b
  = patchCall :: if Spec.replyOk (fst (fetch patchCall b))
                 then [postCall] else [].
Proof.
  intros Hid Hreason patchCall postCall.
  unfold Cover.callsOf, Mcp.callTool, Mcp.handleTool. simpl.
  unfold Mcp.catch, Mcp.bind, Mcp.lift. rewrite Hid, Hreason. simpl.
  set (m1 := Mcp.httpPatch _ _ _ _).
  destruct (request_logged fetch patchCall b []) as (o1 & E1 & Hok1 & Hbad1).
  assert (Hm1 : m1 = (o1, (snd (fetch patchCall b), [patchCall])))
    by exact E1.
  rewrite Hm1. clear Hm1 E1 m1. unfold Mcp.notFoundOr.
  destruct (Spec.replyOk (fst (fetch patchCall b))) eqn:Hok.
  - destruct (Hok1 eq_refl) as [d ->].
    set (m2 := Mcp.httpPost _ _ _ _).
    destruct (request_logged fetch postCall (snd (fetch patchCall b))
                             [patchCall]) as (o2 & E2 & _).
    assert (Hm2 : m2 = (o2, (snd (fetch postCall (snd (fetch patchCall b))),
                             [patchCall; postCall])))
      by exact E2.
    rewrite Hm2. destruct o2; simpl; try reflexivity.
    destruct (Js.includes _ _); reflexivity.
  - destruct (Hbad1 eq_refl) as [-> | [m ->]]; simpl;
      try destruct (Js.includes _ _); reflexivity.
Qed.

(** X18. The arguments of a tool are checked against its schema before
    anything is sent: for every tool of the catalog and every property the
    catalog marks as required, a call whose arguments do not bind that
    property to a string makes no HTTP call and returns the error result
    that carries the message of the schema. *)
Theorem arguments_are_checked_before_any_call
        {P : Platform} (B : Type)
        (fetch : Mcp.HttpCall -> B -> Mcp.HttpReply * B) (b : B)
        (t : Mcp.Tool) (k : Js.jsstring) (args : option Json.json) :
  In t Mcp.TOOLS ->
  In k (Mcp.t_required t) ->
  (forall o s, args = Some (Json.JObj o) ->
               Json.field k o <> Some (Json.JStr s)) ->
  Mcp.callTool (Spec.logged fetch) (Mcp.t_name t) args (b, [])
  = (Mcp.Returned (Mcp.error (zodMessage args)), (b, [])).
Proof.
  intros Ht Hk Hno. simpl in Ht.
  repeat (destruct Ht as [<- | Ht]); try contradiction; simpl in Hk;
    repeat (destruct Hk as [<- | Hk]); try contradiction;
    unfold Mcp.callTool, Mcp.handleTool; simpl;
    unfold Mcp.catch, Mcp.bind, Mcp.lift, Mcp.schemaString;
    (destruct args as [[| | | | |o]|]; try reflexivity);
    specialize (Hno o);
    repeat match goal with
           | |- context [Json.field ?key o] =>
               let E := fresh "E" in
               destruct (Json.field key o) as [[| |? |? |? |?]|] eqn:E;
               simpl; try reflexivity
           end;
    exfalso; eapply Hno; eauto.
Qed.

Lemma allStrings_field (keys : list Js.jsstring)
      (o : list (Js.jsstring * Json.json)) (k : Js.jsstring) :
  Cover.allStrings keys o = true -> In k keys ->
  exists s, Json.field k o = Some (Json.JStr s).
Proof.
  unfold Cover.allStrings. rewrite forallb_forall. intros H Hk.
  specialize (H k Hk). destruct (Json.field k o) as [[| | |s| |]|];
    try discriminate H. eauto.
Qed.

Ltac logged fetch call form s l :=
  let o := fresh "o" in
  let E := fresh "E" in
  destruct (request_logged fetch call s l) as (o & E & _);
  change (form = (o, (snd (fetch call s), l ++ [call]))) in E;
  rewrite E; clear E; destruct o.

Ltac logged_call fetch :=
  match goal with
  | |- context [Mcp.httpGet (Spec.logged fetch) ?p (?s, ?l)] =>
      logged fetch
             {| Mcp.c_method := Js.str "GET"; Mcp.c_path := p;
                Mcp.c_body := None |}
             (Mcp.httpGet (Spec.logged fetch) p (s, l)) s l
  | |- context [Mcp.httpPatch (Spec.logged fetch) ?p ?j (?s, ?l)] =>
      logged fetch
             {| Mcp.c_method := Js.str "PATCH"; Mcp.c_path := p;
                Mcp.c_body := Some j |}
             (Mcp.httpPatch (Spec.logged fetch) p j (s, l)) s l
  | |- context [Mcp.httpPost (Spec.logged fetch) ?p ?j (?s, ?l)] =>
      logged fetch
             {| Mcp.c_method := Js.str "POST"; Mcp.c_path := p;
                Mcp.c_body := Some j |}
             (Mcp.httpPost (Spec.logged fetch) p j (s, l)) s l
  end.

Ltac innermost :=
  match goal with
  | |- context [match ?x with _ => _ end] =>
      lazymatch x with
      | context [match _ with _ => _ end] => fail
      | _ => destruct x
      end
  end.

(** X19. Every tool of the catalog is implemented: called with string
    arguments for its properties, each of the eight tools that tools/list
    announces sends at least one request to the HTTP server, whatever the
    server answers. *)
Theorem catalog_tools_reach_the_server
        {P : Platform} (B : Type)
        (fetch : Mcp.HttpCall -> B -> Mcp.HttpReply * B) (b : B)
        (t : Mcp.Tool) (o : list (Js.jsstring * Json.json)) :
  In t Mcp.TOOLS ->
  Cover.allStrings (Mcp.t_properties t) o = true ->
  Cover.callsOf fetch (Mcp.t_name t) (Some (Json.JObj o)) b <> [].
Proof.
  intros Ht Hs. simpl in Ht.
  repeat (destruct Ht as [<- | Ht]); try contradiction;
    unfold Cover.callsOf, Mcp.callTool, Mcp.handleTool; simpl;
    unfold Mcp.catch, Mcp.bind, Mcp.lift, Mcp.schemaString,
      Mcp.schemaOptString;
    repeat match goal with
           | |- context [Json.field ?key o] =>
               let s := fresh "s" in
               let E := fresh "E" in
               destruct (@allStrings_field _ o key Hs) as (s & E);
               [simpl; auto|]; rewrite E; clear E
           end; simpl;
    repeat first [ logged_call fetch; cbv beta iota
                 | progress unfold Mcp.notFoundOr, Mcp.ret, Mcp.throw
                 | innermost; cbv beta iota ];
    simpl; discriminate.
Qed.

Section Spliced.
Context {P : Platform}.
Import Js Json Model StoreRead Http Router Spec Cover.

Lemma loopback_empty_message (supply : World -> ConnId * Env)
      (id : jsstring) (w : World) :
  isSegment id = true ->
  urlPathname (Mcp.threadPath id) = Mcp.threadPath id ->
  Broker.loopback supply
    {| Mcp.c_method := str "POST"; Mcp.c_path := Mcp.threadPath id;
       Mcp.c_body := Some (Mcp.agentMessage []) |} w
  = (Mcp.Replied 400
       (JObj [(str "error", JStr (str "role and content are required"))]),
     w).
Proof.
  intros Hseg Hurl. unfold Broker.loopback.
  destruct (supply w) as [c env].
  rewrite (@handle_thread P c env _ w id) by auto. reflexivity.
Qed.

Lemma loopback_pending (supply : World -> ConnId * Env)
      (sid : jsstring) (w : World) :
  isSegment sid = true ->
  urlPathname (str "/sessions/" ++ sid ++ str "/pending")
  = str "/sessions/" ++ sid ++ str "/pending" ->
  Broker.loopback supply
    {| Mcp.c_method := str "GET";
       Mcp.c_path := str "/sessions/" ++ sid ++ str "/pending";
       Mcp.c_body := None |} w
  = (Mcp.Replied 200 (pendingJson (getPendingAnnotations sid w)), w).
Proof.
  intros Hseg Hurl. unfold Broker.loopback.
  destruct (supply w) as [c env].
  rewrite (@handle_session_pending P c env _ w sid) by auto. reflexivity.
Qed.

Lemma loopback_events (supply : World -> ConnId * Env)
      (sid : jsstring) (s : Session) (w : World) :
  isSegment sid = true ->
  urlPathname (str "/sessions/" ++ sid ++ str "/events")
  = str "/sessions/" ++ sid ++ str "/events" ->
  getSession sid w = Some s ->
  Broker.loopback supply
    {| Mcp.c_method := str "GET";
       Mcp.c_path := str "/sessions/" ++ sid ++ str "/events";
       Mcp.c_body := None |} w
  = (Mcp.Streaming,
     EventBus.subscribe (Some sid) (ToSession (fst (supply w)))
       (Sse.write (fst (supply w)) (Comment (str "connected"))
          (trackConnection (fst (supply w)) w))).
Proof.
  intros Hseg Hurl Hs. unfold Broker.loopback.
  destruct (supply w) as [c env].
  rewrite (@handle_session_events P c env _ w sid) by auto.
  unfold sseHandler, getSessionWithAnnotations. rewrite Hs. reflexivity.
Qed.

End Spliced.

(** X20. The reply tool with the empty string as message never appends a
    thread message: the server refuses the POST with 400 "role and content
    are required" whether or not the annotation exists, the tool returns an
    error result, and the state is unchanged.  The text of the result is
    the HTTP error, unless that text happens to contain "404", in which case
    it reads "Annotation not found: <id>". *)
Theorem reply_with_an_empty_message
        {P : Platform} (supply : Model.World -> Model.ConnId * Model.Env)
        (w : Model.World) (id : Js.jsstring) (args : option Json.json) :
  Spec.isSegment id = true ->
  urlPathname (Mcp.threadPath id) = Mcp.threadPath id ->
  Mcp.schemaString args "annotationId" = Ok id ->
  Mcp.schemaString args "message" = Ok [] ->
  let refusal :=
    Mcp.httpError 400
      (stringify (Spec.errorBody "role and content are required")) in
  Broker.callTool supply (Js.str "agentation_reply") args w
  = (Mcp.Returned
       (Mcp.error (if Js.includes (Js.str "404") refusal
                   then Js.str "Annotation not found: " ++ id
                   else refusal)), w).
Proof.
  intros Hseg Hurl Hid Hmsg. cbv zeta.
  unfold Broker.callTool, Mcp.callTool, Mcp.handleTool. simpl.
  unfold Mcp.catch, Mcp.bind, Mcp.lift. rewrite Hid, Hmsg. simpl.
  unfold Mcp.httpPost, Mcp.request.
  rewrite (@loopback_empty_message P supply id w Hseg Hurl). simpl.
  unfold Mcp.notFoundOr. simpl.
  destruct (Js.includes _ _); reflexivity.
Qed.

(** X21. The session id of get_session is spliced into the request path as
    it comes.  An id of the form "<sid>/pending" is answered by the pending
    route: the tool succeeds with the pending list of <sid>, also when no
    such session exists.  An id of the form "<sid>/events" for an existing
    session opens the event stream of <sid>: the call never returns, and the
    subscription it made stays registered in the server. *)
Theorem session_id_is_spliced_into_the_path
        {P : Platform} (supply : Model.World -> Model.ConnId * Model.Env)
        (w : Model.World) (sid : Js.jsstring) (args : option Json.json) :
  Spec.isSegment sid = true ->
  (Mcp.schemaString args "sessionId" = Ok (sid ++ Js.str "/pending") ->
   urlPathname (Js.str "/sessions/" ++ sid ++ Js.str "/pending")
   = Js.str "/sessions/" ++ sid ++ Js.str "/pending" ->
   Broker.callTool supply (Js.str "agentation_get_session") args w
   = (Mcp.Returned
        (Mcp.success
           (Http.pendingJson (StoreRead.getPendingAnnotations sid w))), w))
  /\ (forall s,
         Mcp.schemaString args "sessionId" = Ok (sid ++ Js.str "/events") ->
         urlPathname (Js.str "/sessions/" ++ sid ++ Js.str "/events")
         = Js.str "/sessions/" ++ sid ++ Js.str "/events" ->
         StoreRead.getSession sid w = Some s ->
         let c := fst (supply w) in
         let w' :=
           snd (Broker.callTool supply (Js.str "agentation_get_session")
                                args w) in
         fst (Broker.callTool supply (Js.str "agentation_get_session") args w)
         = Mcp.Hung
         /\ Spec.subsOf c w'
            = Spec.subsOf c w
              ++ [{| Model.sub_scope := Some sid;
                     Model.sub_sink := Model.ToSession c |}]
         /\ Router.isOpen c w' = true).
Proof.
  intros Hseg. split.
  - intros Hid Hurl.
    pose proof (@loopback_pending P supply sid w Hseg Hurl) as E.
    unfold Broker.callTool, Mcp.callTool, Mcp.handleTool. simpl.
    unfold Mcp.catch, Mcp.bind, Mcp.lift. rewrite Hid. simpl.
    unfold Mcp.httpGet, Mcp.request. simpl in E |- *. rewrite E.
    reflexivity.
  - intros s Hid Hurl Hs c w'. unfold w', c.
    pose proof (@loopback_events P supply sid s w Hseg Hurl Hs) as E.
    unfold Broker.callTool, Mcp.callTool, Mcp.handleTool. simpl.
    unfold Mcp.catch, Mcp.bind, Mcp.lift. rewrite Hid. simpl.
    unfold Mcp.httpGet, Mcp.request. simpl in E |- *. rewrite E. simpl.
    split; [reflexivity|]. unfold Spec.subsOf, Router.isOpen. simpl.
    rewrite filter_app, existsb_app. simpl. rewrite Nat.eqb_refl.
    split; [reflexivity | apply orb_true_r].
Qed.

(* ------------------------------------------------------------------------- *)
(** ** Properties: the three readers of a port                               *)
(* ------------------------------------------------------------------------- *)

Section PortReaders.
Import Js Json Cli.

Lemma whitespace_is_no_digit (c : N) :
  isWhiteSpace c = true -> digit c = None.
Proof.
  unfold isWhiteSpace, digit. intros H.
  destruct ((48 <=? c)%N && (c <=? 57)%N) eqn:E; [|reflexivity].
  apply andb_true_iff in E. destruct E as [E1 E2].
  apply N.leb_le in E1, E2.
  repeat (apply orb_true_iff in H; destruct H as [H|H]);
    repeat match goal with
           | H : _ && _ = true |- _ =>
               apply andb_true_iff in H; destruct H
           | H : (_ <=? _)%N = true |- _ => apply N.leb_le in H
           | H : (_ =? _)%N = true |- _ => apply N.eqb_eq in H
           end; lia.
Qed.

Lemma digits_trailing (t ws : jsstring) (acc : option Z) :
  forallb isWhiteSpace ws = true -> digits acc (t ++ ws) = digits acc t.
Proof.
  intros Hws. revert acc. induction t as [|c t IH]; intros acc.
  - destruct ws as [|c ws]; [reflexivity|]. simpl in Hws |- *.
    apply andb_true_iff in Hws. destruct Hws as [Hc _].
    rewrite (whitespace_is_no_digit _ Hc). reflexivity.
  - simpl. destruct (digit c); [apply IH | reflexivity].
Qed.

Lemma trimStart_skips (x : jsstring) :
  exists a, x = a ++ trimStart x /\ forallb isWhiteSpace a = true.
Proof.
  induction x as [|c x (a & IH & Ha)]; [exists []; auto|]. simpl.
  destruct (isWhiteSpace c) eqn:E; [|exists []; auto].
  exists (c :: a). simpl. rewrite <- IH, E, Ha. auto.
Qed.

Lemma trimEnd_drops (t : jsstring) :
  exists ws, t = trimEnd t ++ ws /\ forallb isWhiteSpace ws = true.
Proof.
  destruct (trimStart_skips (rev t)) as (a & Ha & Hw).
  exists (rev a). unfold trimEnd. rewrite <- rev_app_distr, <- Ha.
  rewrite rev_involutive, forallb_reversed. auto.
Qed.

(** The trimmed text starts as the text without its leading white space
    does. *)
Lemma trim_head (s : jsstring) :
  trimStart s = []
  \/ exists c u ws,
       isWhiteSpace c = false /\ trim s = c :: u
       /\ trimStart s = c :: u ++ ws /\ forallb isWhiteSpace ws = true.
Proof.
  unfold trim. destruct (trimStart s) as [|c t] eqn:E; [left; reflexivity|].
  right. assert (Hc : isWhiteSpace c = false).
  { clear -E. induction s as [|x s IH]; [discriminate E|]. simpl in E.
    destruct (isWhiteSpace x) eqn:Ex; [apply IH, E|]. congruence. }
  destruct (trimEnd_drops (c :: t)) as (ws & Ht & Hw).
  destruct (trimEnd (c :: t)) as [|c' u] eqn:Eu.
  - simpl in Ht. subst ws. simpl in Hw. rewrite Hc in Hw. discriminate Hw.
  - injection Ht as <- ->. exists c, u, ws. auto.
Qed.

Lemma parseInt_trim (s : jsstring) : parseInt (trim s) = parseInt s.
Proof.
  destruct (trim_head s) as [E | (c & u & ws & Hc & Et & Es & Hw)].
  - unfold parseInt, trim. rewrite E. reflexivity.
  - unfold parseInt. rewrite Es, Et. cbn [trimStart]. rewrite Hc.
    destruct c as [|p];
      [exact (eq_sym (@digits_trailing (_ :: u) ws None Hw))|].
    repeat (destruct p as [p|p|];
            try exact (eq_sym (@digits_trailing (_ :: u) ws None Hw)));
      cbn [app]; rewrite (@digits_trailing u ws None Hw); reflexivity.
Qed.

Lemma trim_truthy (s : jsstring) (p : Z) :
  parseInt s = Some p -> Js.truthy (trim s) = true.
Proof.
  rewrite <- parseInt_trim. apply parseInt_truthy.
Qed.

(** The value the readers share. *)
Lemma parsePortInput_parseInt (s : jsstring) :
  parsePortInput s
  = match parseInt s with
    | Some p => if (0 <? p) && (p <? 65536) then p else DEFAULT_PORT
    | None => DEFAULT_PORT
    end.
Proof.
  unfold parsePortInput. rewrite parseInt_trim.
  destruct (parseInt s) as [p|] eqn:E; [|reflexivity].
  rewrite (trim_truthy _ E). simpl.
  destruct (p <? 1) eqn:E1, (65535 <? p) eqn:E2, (0 <? p) eqn:E3,
           (p <? 65536) eqn:E4; simpl; try reflexivity;
    rewrite ?Z.ltb_lt, ?Z.ltb_ge in *; lia.
Qed.

End PortReaders.

(** X22. The three places that read a port from text agree on every text:
    the prompt of the wizard ([parsePortInput]), the doctor's reading of an
    argument array that holds ["--port", s], and the option loop of the
    [server] command started with those two arguments all end with the same
    port, the number [parseInt] reads when it lies in [1, 65535] and 4747
    otherwise. *)
Theorem port_readers_agree (s : Js.jsstring) :
  Cli.parsePortFromArgArray
    (Some (Json.JArr [Json.JStr (Js.str "--port"); Json.JStr s]))
  = Cli.parsePortInput s
  /\ Cli.port (Cli.parseOptions [Js.str "--port"; s]) = Cli.parsePortInput s.
Proof.
  rewrite parsePortInput_parseInt. split.
  - unfold Cli.parsePortFromArgArray. cbn [List.length Cli.portLoop].
    unfold Cli.portAt. cbn [nth_error Nat.add].
    change (Js.eqb (Js.str "--port") (Js.str "--port")) with true. cbv iota.
    destruct (Js.parseInt s) as [p|]; [|reflexivity].
    destruct ((0 <? p) && (p <? 65536)); reflexivity.
  - destruct s as [|c r]; [reflexivity|].
    unfold Cli.parseOptions. cbn [List.length Cli.optionLoop].
    change (0 <? 2)%nat with true. cbv iota.
    unfold Cli.optionTurn, Cli.argIs, Cli.valueAfter.
    cbn [nth_error Nat.add Js.truthy].
    change (Js.eqb (Js.str "--port") (Js.str "--port")) with true. cbv iota.
    destruct (Js.parseInt (c :: r)) as [p|];
      [destruct ((0 <? p) && (p <? 65536))|];
      repeat first
        [ progress cbn [nth_error Nat.add Js.truthy]
        | match goal with
          | |- context [Js.eqb (c :: r) ?f] => destruct (Js.eqb (c :: r) f)
          end
        | progress cbv beta iota zeta ];
      reflexivity.
Qed.

(* ------------------------------------------------------------------------- *)
(** ** Properties: what the pending tools pass on                            *)
(* ------------------------------------------------------------------------- *)

Section Summaries.
Context {P : Platform}.
Import Js Json.

Lemma pick_keys (names : list string) (j r : json) :
  Mcp.pick names j = Ok r ->
  exists o, r = JObj o /\ forall k v, In (k, v) o -> In k (map str names).
Proof.
  destruct j; simpl; try discriminate;
    try (intros [= <-]; exists []; split; [reflexivity | intros k v []]).
  intros [= <-]. eexists. split; [reflexivity|]. intros k v H.
  apply in_flat_map in H. destruct H as (n & Hn & H).
  destruct (field (str n) fields); simpl in H; [|contradiction].
  destruct H as [[= <- <-] | []]. apply in_map, Hn.
Qed.

Lemma traverse_all (f : json -> Result json) (Q : json -> Prop)
      (l ys : list json) :
  (forall x y, f x = Ok y -> Q y) ->
  Mcp.traverse f l = Ok ys -> Forall Q ys.
Proof.
  intros Hf. revert ys. induction l as [|x l IH]; intros ys; simpl.
  - intros [= <-]. constructor.
  - destruct (f x) as [y|] eqn:E; simpl; [|discriminate].
    destruct (Mcp.traverse f l) as [ys'|]; simpl; [|discriminate].
    intros [= <-]. constructor; [apply (Hf x), E | apply IH; reflexivity].
Qed.

Lemma pendingResult_shape (response : json) (r : Mcp.ToolResult) :
  Mcp.pendingResult response = Ok r ->
  exists count summaries,
    r = Mcp.success (JObj (count ++ [(str "annotations", JArr summaries)]))
    /\ Forall (fun y => exists o,
                   y = JObj o
                   /\ forall k v, In (k, v) o ->
                        In k (map str ["id"; "comment"; "element";
                                       "elementPath"; "url"; "intent";
                                       "severity"; "timestamp"; "nearbyText";
                                       "reactComponents"]%string))
              summaries.
Proof.
  unfold Mcp.pendingResult. destruct response; try discriminate.
  unfold Mcp.mapArray.
  destruct (field (str "annotations") fields) as [[| | | |l|]|];
    try discriminate.
  simpl. destruct (Mcp.traverse Mcp.annotationSummary l) as [ys|] eqn:E;
    simpl; [|discriminate].
  intros [= <-]. exists (prop "count" (field (str "count") fields)), ys.
  split; [reflexivity|].
  refine (@traverse_all Mcp.annotationSummary _ l ys _ E).
  intros x y. apply pick_keys.
Qed.

End Summaries.

(** X23. The two pending tools pass on a fixed selection of each
    annotation.  Whatever the HTTP server answers, when get_pending or
    get_all_pending returns a result that is not an error, the result is the
    text of [{count, annotations}] in which every annotation is an object
    with no other keys than id, comment, element, elementPath, url, intent,
    severity, timestamp, nearbyText and reactComponents: the session id, the
    status and the thread of an annotation never reach the agent through
    these tools. *)
Theorem pending_tools_return_summaries_only
        {P : Platform} (B : Type)
        (fetch : Mcp.HttpCall -> B -> Mcp.HttpReply * B) (b b' : B)
        (name : Js.jsstring) (args : option Json.json)
        (r : Mcp.ToolResult) :
  name = Js.str "agentation_get_pending"
  \/ name = Js.str "agentation_get_all_pending" ->
  Mcp.callTool fetch name args b = (Mcp.Returned r, b') ->
  Mcp.isError r = false ->
  exists count summaries,
    r = Mcp.success
          (Json.JObj (count ++ [(Js.str "annotations", Json.JArr summaries)]))
    /\ Forall (fun y => exists o,
                   y = Json.JObj o
                   /\ forall k v, In (k, v) o ->
                        In k (map Js.str
                                  ["id"; "comment"; "element"; "elementPath";
                                   "url"; "intent"; "severity"; "timestamp";
                                   "nearbyText"; "reactComponents"]%string))
              summaries.
Proof.
  intros Hname Hcall Hok.
  assert (Hres : exists response, Mcp.pendingResult response = Ok r).
  { revert Hcall. unfold Mcp.callTool, Mcp.handleTool.
    destruct Hname as [-> | ->]; simpl;
      unfold Mcp.catch, Mcp.bind, Mcp.lift, Mcp.httpGet, Mcp.request;
      try (destruct (Mcp.schemaString args "sessionId") as [sid|msg]; simpl;
           [|intros [= <- _]; discriminate Hok]);
      match goal with
      | |- context [fetch ?call b] =>
          destruct (fetch call b) as [[status data|status|] b1]
      end;
      try destruct (Mcp.isOk status); simpl;
      try (intros [= <- _]; discriminate Hok); try discriminate;
      (destruct (Mcp.pendingResult data) as [r0|msg] eqn:E; simpl;
       [intros [= <- _]; exists data; exact E
       |intros [= <- _]; discriminate Hok]). }
  destruct Hres as (response & Hres). exact (@pendingResult_shape P response r Hres).
Qed.

(* ------------------------------------------------------------------------- *)
(** ** Properties: the port the doctor reads from a Codex section            *)
(* ------------------------------------------------------------------------- *)

Section CodexArgsFirst.
Import Js Json Cli Setup.

Lemma sectionText_digits (u : Decimal.uint) (rest : jsstring) :
  sectionText false (uint_codes u ++ rest)
  = uint_codes u ++ sectionText false rest.
Proof.
  induction u; [reflexivity| ..]; simpl;
    match goal with
    | |- context [isLineTerminator ?c] =>
        change (isLineTerminator c) with false
    end; rewrite IHu; reflexivity.
Qed.

Lemma digitRun_digits (u : Decimal.uint) (rest : jsstring) :
  digitRun (uint_codes u ++ 34%N :: rest) = (uint_codes u, 34%N :: rest).
Proof. induction u; simpl; rewrite ?IHu; reflexivity. Qed.

Lemma args_line_is_read (u : Decimal.uint) (n : Z) :
  u <> Decimal.Nil ->
  parseInt (uint_codes u) = Some n ->
  getCodexAgentationPort
    (join nl
       [ sectionHeader;
         str "args = "
         ++ (str "[" ++ quoted (str "-y") ++ str ", "
             ++ quoted (str "agentation-mcp") ++ str ", "
             ++ quoted (str "server") ++ str ", "
             ++ quoted (str "--port") ++ str ", "
             ++ quoted (uint_codes u) ++ str "]");
         str "command = " ++ quoted (str "npx");
         [] ])
  = n.
Proof.
  intros Hu Hn. unfold getCodexAgentationPort.
  unfold quoted, join. cbn [app]. rewrite <- !app_assoc. cbn.
  rewrite <- app_assoc. cbn [app]. rewrite sectionText_digits.
  match goal with
  | |- context [sectionText false (34%N :: ?t)] =>
      change (sectionText false (34%N :: t)) with [34%N; 93%N]
  end.
  rewrite digitRun_digits.
  destruct (uint_codes_head Hu) as (c & r & E & _).
  rewrite E. cbn. rewrite <- E, Hn. reflexivity.
Qed.

(** X24. A section whose [args] line comes directly under the header (the
    two lines of the block the wizard writes, in the other order) is read
    back in full: for every integer port from 0 to 2^53, the integers that
    [parseInt] reads without rounding, the doctor's reader returns that
    port, whether or not it lies in the range of ports. *)
Theorem args_line_first_is_read (port : Z) :
  0 <= port <= 9007199254740992 ->
  getCodexAgentationPort
    (join nl
       [ sectionHeader;
         str "args = " ++ codexArgs port;
         str "command = " ++ quoted (str "npx");
         [] ])
  = port.
Proof.
  intros [Hp _]. unfold codexArgs.
  destruct (port =? DEFAULT_PORT) eqn:Ed.
  - apply Z.eqb_eq in Ed. subst port. vm_compute. reflexivity.
  - pose proof (parseInt_ofInt port) as Hn. unfold ofInt in Hn |- *.
    destruct port as [|p|p]; [| |lia].
    + exact (@args_line_is_read (Decimal.D0 Decimal.Nil) 0
               ltac:(discriminate) Hn).
    + exact (@args_line_is_read (Pos.to_uint p) (Z.pos p)
               (@DecimalPos.Unsigned.to_uint_nonnil p) Hn).
Qed.

End CodexArgsFirst.

(* ------------------------------------------------------------------------- *)
(** ** Properties: running the wizard again on a Codex configuration         *)
(* ------------------------------------------------------------------------- *)

Section CodexRewrite.
Import Js Cli Setup Cover.

Lemma join_cons (x : jsstring) (l : list jsstring) :
  l <> [] -> join nl (x :: l) = x ++ nl ++ join nl l.
Proof. destruct l; [congruence | reflexivity]. Qed.

Lemma join_app (a b : list jsstring) :
  a <> [] -> b <> [] -> join nl (a ++ b) = join nl a ++ nl ++ join nl b.
Proof.
  intros Ha Hb. induction a as [|x a IH]; [congruence|].
  destruct a as [|y a].
  - simpl app at 1. rewrite join_cons by exact Hb. reflexivity.
  - change ((x :: y :: a) ++ b) with (x :: ((y :: a) ++ b)).
    rewrite join_cons by discriminate. rewrite IH by discriminate.
    rewrite (@join_cons x (y :: a)) by discriminate.
    rewrite <- !app_assoc. reflexivity.
Qed.

Lemma join_blank (a : list jsstring) :
  a <> [] -> join nl (a ++ [[]]) = join nl a ++ nl.
Proof.
  intros Ha. rewrite join_app by (exact Ha || discriminate).
  cbn [join]. rewrite app_nil_r. reflexivity.
Qed.

Lemma splitLines_plain (x cur : jsstring) :
  plainLine x -> splitLines cur x = [rev cur ++ x].
Proof.
  revert cur. induction x as [|c x IH]; intros cur [H10 H13].
  - simpl. rewrite app_nil_r. reflexivity.
  - assert (E10 : (c =? 10)%N = false)
      by (apply N.eqb_neq; intros ->; apply H10; left; reflexivity).
    assert (E13 : (c =? 13)%N = false)
      by (apply N.eqb_neq; intros ->; apply H13; left; reflexivity).
    assert (Hx : plainLine x)
      by (split; intros H; [apply H10 | apply H13]; right; exact H).
    cbn [splitLines]. rewrite E10, E13. cbn [andb].
    assert (E : splitLines (c :: cur) x = [rev cur ++ c :: x]).
    { rewrite (IH (c :: cur) Hx). simpl. rewrite <- app_assoc. reflexivity. }
    destruct x; exact E.
Qed.

Lemma splitLines_line (x cur rest : jsstring) :
  plainLine x ->
  splitLines cur (x ++ 10%N :: rest) = (rev cur ++ x) :: splitLines [] rest.
Proof.
  revert cur. induction x as [|c x IH]; intros cur [H10 H13].
  - simpl. rewrite app_nil_r. reflexivity.
  - assert (E10 : (c =? 10)%N = false)
      by (apply N.eqb_neq; intros ->; apply H10; left; reflexivity).
    assert (E13 : (c =? 13)%N = false)
      by (apply N.eqb_neq; intros ->; apply H13; left; reflexivity).
    assert (Hx : plainLine x)
      by (split; intros H; [apply H10 | apply H13]; right; exact H).
    change ((c :: x) ++ 10%N :: rest) with (c :: (x ++ 10%N :: rest)).
    cbn [splitLines]. rewrite E10, E13. cbn [andb].
    assert (E : splitLines (c :: cur) (x ++ 10%N :: rest)
                = (rev cur ++ c :: x) :: splitLines [] rest).
    { rewrite (IH (c :: cur) Hx). simpl. rewrite <- app_assoc. reflexivity. }
    destruct (x ++ 10%N :: rest); exact E.
Qed.

(** Splitting undoes joining, for lines without line ends. *)
Lemma split_join (l : list jsstring) :
  l <> [] -> Forall plainLine l -> splitLines [] (join nl l) = l.
Proof.
  induction l as [|x l IH]; [congruence|]. intros _ H.
  inversion H as [|? ? Hx Hl]; subst. destruct l as [|y l].
  - simpl. apply (@splitLines_plain x [] Hx).
  - rewrite join_cons by discriminate.
    change (nl ++ join nl (y :: l)) with (10%N :: join nl (y :: l)).
    rewrite (@splitLines_line x [] _ Hx). simpl rev. simpl app.
    rewrite IH by (discriminate || exact Hl). reflexivity.
Qed.

(** Joining undoes splitting, for a text without carriage returns; the
    lines are then without line ends. *)
Lemma join_split (s cur : jsstring) :
  ~ In 13%N s -> plainLine cur ->
  join nl (splitLines cur s) = rev cur ++ s
  /\ Forall plainLine (splitLines cur s)
  /\ splitLines cur s <> [].
Proof.
  revert cur. induction s as [|c s IH]; intros cur H13 Hcur.
  - simpl. rewrite app_nil_r. split; [reflexivity|]. split; [|discriminate].
    constructor; [|constructor]. destruct Hcur as [A B].
    split; intros H; apply in_rev in H; auto.
  - assert (Hs : ~ In 13%N s) by (intros H; apply H13; right; exact H).
    assert (E13 : (c =? 13)%N = false)
      by (apply N.eqb_neq; intros ->; apply H13; left; reflexivity).
    cbn [splitLines]. rewrite E13. cbn [andb].
    destruct (c =? 10)%N eqn:E10.
    + apply N.eqb_eq in E10. subst c.
      destruct (IH [] Hs) as (J & F & N);
        [split; intros []|].
      split; [|split; [|discriminate]].
      * rewrite join_cons by exact N. rewrite J. reflexivity.
      * constructor; [|exact F]. destruct Hcur as [A B].
        split; intros H; apply in_rev in H; auto.
    + assert (Hc : plainLine (c :: cur)).
      { destruct Hcur as [A B]. apply N.eqb_neq in E10, E13.
        split; intros [H|H]; auto. }
      destruct (IH (c :: cur) Hs Hc) as (J & F & N).
      assert (G : join nl (splitLines (c :: cur) s) = rev cur ++ c :: s
                  /\ Forall plainLine (splitLines (c :: cur) s)
                  /\ splitLines (c :: cur) s <> []).
      { split; [|split; assumption]. rewrite J. simpl.
        rewrite <- app_assoc. reflexivity. }
      destruct s; exact G.
Qed.

Lemma endsWith_newline (s : jsstring) : endsWith (s ++ nl) nl = true.
Proof. unfold endsWith, nl. rewrite rev_app_distr. reflexivity. Qed.

Lemma endsWith_text (s x : jsstring) :
  plainLine x -> x <> [] -> endsWith (s ++ x) nl = false.
Proof.
  intros [H10 _] Hx. destruct (exists_last Hx) as (x' & c & ->).
  unfold endsWith, nl. rewrite !rev_app_distr.
  cbn [rev app startsWith]. destruct (N.eqb_spec 10 c) as [<-|]; [|reflexivity].
  exfalso. apply H10. apply in_or_app. right. left. reflexivity.
Qed.

(** Whether joined lines end with a line feed is told by the last line. *)
Lemma endsWith_join (l : list jsstring) (x : jsstring) :
  l <> [] -> plainLine x ->
  endsWith (join nl (l ++ [x])) nl = negb (truthy x).
Proof.
  intros Hl Hx. destruct x as [|c x].
  - rewrite join_blank by exact Hl. apply endsWith_newline.
  - rewrite join_app by (exact Hl || discriminate). rewrite app_assoc.
    apply endsWith_text; [exact Hx | discriminate].
Qed.

Lemma findIndex_split {A} (f : A -> bool) (l : list A) (i : nat) :
  findIndex f l = Some i ->
  exists x, f x = true /\ l = firstn i l ++ x :: skipn (S i) l
            /\ findIndex f (firstn i l) = None
            /\ List.length (firstn i l) = i.
Proof.
  revert i. induction l as [|y l IH]; intros i H; [discriminate H|].
  simpl in H. destruct (f y) eqn:E.
  - injection H as <-. exists y. auto.
  - destruct (findIndex f l) as [j|]; [|discriminate H].
    injection H as <-. destruct (IH j eq_refl) as (x & Hx & El & Hn & Hlen).
    exists x. split; [exact Hx|]. cbn [firstn skipn app findIndex List.length].
    rewrite E, Hn, Hlen. repeat split. cbn [skipn] in El. rewrite <- El.
    reflexivity.
Qed.

Lemma findIndex_app {A} (f : A -> bool) (a b : list A) (x : A) :
  findIndex f a = None -> f x = true ->
  findIndex f (a ++ x :: b) = Some (List.length a).
Proof.
  intros Ha Hx. induction a as [|y a IH]; simpl.
  - rewrite Hx. reflexivity.
  - simpl in Ha. destruct (f y); [discriminate Ha|].
    destruct (findIndex f a); [discriminate Ha|]. rewrite IH; reflexivity.
Qed.

Lemma findIndex_none_app {A} (f : A -> bool) (a b : list A) :
  findIndex f a = None -> findIndex f b = None ->
  findIndex f (a ++ b) = None.
Proof.
  intros Ha Hb. induction a as [|y a IH]; [exact Hb|]. simpl in Ha |- *.
  destruct (f y); [discriminate Ha|].
  destruct (findIndex f a); [discriminate Ha|]. rewrite IH; reflexivity.
Qed.

Lemma fromNextTable_cases (l : list jsstring) :
  fromNextTable l = []
  \/ exists h t, fromNextTable l = h :: t /\ isTableHeader (trim h) = true.
Proof.
  induction l as [|x l IH]; [left; reflexivity|]. simpl.
  destruct (isTableHeader (trim x)) eqn:E; [|exact IH].
  right. exists x, l. auto.
Qed.

Lemma fromNextTable_all (Q : jsstring -> Prop) (l : list jsstring) :
  Forall Q l -> Forall Q (fromNextTable l).
Proof.
  induction 1 as [|x l Hx Hl IH]; [constructor|]. simpl.
  destruct (isTableHeader (trim x)); [constructor; assumption | exact IH].
Qed.

Lemma uint_codes_plain (u : Decimal.uint) : plainLine (uint_codes u).
Proof.
  induction u as [|u [A B]|u [A B]|u [A B]|u [A B]|u [A B]|u [A B]
                  |u [A B]|u [A B]|u [A B]|u [A B]].
  1: split; intros [].
  all: split; (intros [H|H]; [discriminate H | auto]).
Qed.

Lemma plainLine_app (a b : jsstring) :
  plainLine a -> plainLine b -> plainLine (a ++ b).
Proof.
  intros [A1 A2] [B1 B2]. split; intros H; apply in_app_or in H; tauto.
Qed.

Lemma ofInt_plain (z : Z) : plainLine (ofInt z).
Proof.
  unfold ofInt. destruct (Z.to_int z) as [u|u].
  - apply uint_codes_plain.
  - apply (@plainLine_app [45%N] (uint_codes u));
      [|apply uint_codes_plain].
    split; intros [H|[]]; discriminate H.
Qed.

Lemma block_plain (port : Z) :
  Forall plainLine (buildCodexAgentationBlock port).
Proof.
  assert (C : forall s, forallb (fun c => negb (c =? 10)%N
                                          && negb (c =? 13)%N) s = true ->
                        plainLine s).
  { intros s H. rewrite forallb_forall in H.
    split; intros Hin; apply H in Hin; discriminate Hin. }
  assert (Hq : forall s, plainLine s -> plainLine (quoted s)).
  { intros s Hs. apply (@plainLine_app [34%N] (s ++ [34%N]));
      [apply C; reflexivity|].
    apply plainLine_app; [exact Hs | apply C; reflexivity]. }
  assert (Ha : plainLine (codexArgs port)).
  { unfold codexArgs. destruct (port =? DEFAULT_PORT); [apply C; reflexivity|].
    repeat first [ apply C; reflexivity | apply ofInt_plain | apply Hq
                 | apply plainLine_app ]. }
  unfold buildCodexAgentationBlock.
  constructor; [apply C; reflexivity|].
  constructor; [apply C; reflexivity|].
  constructor; [apply plainLine_app; [apply C; reflexivity | exact Ha]|].
  constructor; [apply C; reflexivity | constructor].
Qed.

Lemma block_lines (port : Z) :
  exists args,
    buildCodexAgentationBlock port
    = [sectionHeader; str "command = " ++ quoted (str "npx"); args; []]
    /\ isTableHeader (trim args) = false.
Proof.
  eexists. split; [reflexivity|].
  destruct (trim_head (str "args = " ++ codexArgs port))
    as [E | (c & u & ws & Hc & Et & Es & Hw)]; [discriminate E|].
  rewrite Et. injection Es as <- _. reflexivity.
Qed.

Lemma firstn_length_app {A} (a b : list A) :
  firstn (List.length a) (a ++ b) = a.
Proof. induction a as [|x a IH]; simpl; [destruct b|rewrite IH]; reflexivity. Qed.

Lemma skipn_length_app {A} (a b : list A) (x : A) :
  skipn (S (List.length a)) (a ++ x :: b) = b.
Proof. induction a as [|y a IH]; [reflexivity | exact IH]. Qed.

(** Whether the merged text ends with a line feed does not depend on the
    port of the block. *)
Lemma endsWith_block (before after : list jsstring) (p q : Z) :
  Forall plainLine after ->
  endsWith (join nl (before ++ buildCodexAgentationBlock p ++ after)) nl
  = endsWith (join nl (before ++ buildCodexAgentationBlock q ++ after)) nl.
Proof.
  intros Ha.
  destruct (block_lines p) as (ap & -> & _).
  destruct (block_lines q) as (aq & -> & _).
  set (c := str "command = " ++ quoted (str "npx")).
  destruct after as [|a after].
  - change (before ++ [sectionHeader; c; ap; []] ++ [])
      with (before ++ [sectionHeader; c; ap] ++ [[]]).
    change (before ++ [sectionHeader; c; aq; []] ++ [])
      with (before ++ [sectionHeader; c; aq] ++ [[]]).
    rewrite !app_assoc.
    rewrite !endsWith_join;
      try (split; intros []); try reflexivity;
      intros E; apply app_eq_nil in E; destruct E as [_ E]; discriminate E.
  - destruct (@exists_last _ (a :: after)) as (l & x & E); [discriminate|].
    rewrite E in Ha |- *. apply Forall_app in Ha. destruct Ha as [_ Hx].
    inversion Hx as [|? ? Hx' _]; subst.
    rewrite !app_assoc.
    rewrite !endsWith_join; try exact Hx'; try reflexivity;
      intros E'; apply app_eq_nil in E'; destruct E' as [E' _];
      apply app_eq_nil in E'; destruct E' as [_ E']; discriminate E'.
Qed.

(** Writing into a text that already holds the block, with the tables
    that follow it, replaces the block and nothing else. *)
Lemma rewrite_block (before after : list jsstring) (p q : Z) :
  findIndex (fun line => eqb (trim line) sectionHeader) before = None ->
  Forall plainLine before -> Forall plainLine after ->
  (after = []
   \/ exists h t, after = h :: t /\ isTableHeader (trim h) = true) ->
  endsWith (join nl (before ++ buildCodexAgentationBlock p ++ after)) nl
  = true ->
  writeCodexConfig
    (Some (join nl (before ++ buildCodexAgentationBlock p ++ after))) q
  = join nl (before ++ buildCodexAgentationBlock q ++ after).
Proof.
  intros Hn Hb Ha Hh He. rewrite (@endsWith_block before after p q Ha) in He.
  unfold writeCodexConfig. cbv zeta. rewrite split_join.
  2: { destruct (block_lines p) as (ap & -> & _). intros E.
       apply app_eq_nil in E. destruct E as [_ E]. discriminate E. }
  2: { apply Forall_app. split; [exact Hb|]. apply Forall_app.
       split; [apply block_plain | exact Ha]. }
  destruct (block_lines p) as (ap & -> & Hap).
  cbn [app].
  rewrite (@findIndex_app _ (fun line => eqb (trim line) sectionHeader)
             before _ sectionHeader Hn eq_refl).
  rewrite firstn_length_app, skipn_length_app.
  cbn [fromNextTable]. rewrite Hap.
  change (isTableHeader (trim (str "command = " ++ quoted (str "npx"))))
    with false.
  change (isTableHeader (trim [])) with false. cbv iota.
  replace (fromNextTable after) with after; [rewrite He; reflexivity|].
  destruct Hh as [-> | (h & t & -> & Hh)]; [reflexivity|].
  simpl. rewrite Hh. reflexivity.
Qed.

Lemma endsWith_block_last (before : list jsstring) (p : Z) :
  endsWith (join nl (before ++ buildCodexAgentationBlock p ++ [])) nl = true.
Proof.
  destruct (block_lines p) as (ap & -> & _).
  set (c := str "command = " ++ quoted (str "npx")).
  change (before ++ [sectionHeader; c; ap; []] ++ [])
    with (before ++ [sectionHeader; c; ap] ++ [[]]).
  rewrite app_assoc, endsWith_join; [reflexivity| |split; intros []].
  intros E. apply app_eq_nil in E. destruct E as [_ E]. discriminate E.
Qed.

(** What the wizard leaves in a file without carriage returns: the lines
    before the section, the block, and the tables after it. *)
Lemma written_shape (content : jsstring) (p : Z) :
  ~ In 13%N content ->
  exists before after,
    findIndex (fun line => eqb (trim line) sectionHeader) before = None
    /\ Forall plainLine before /\ Forall plainLine after
    /\ (after = []
        \/ exists h t, after = h :: t /\ isTableHeader (trim h) = true)
    /\ endsWith (join nl (before ++ buildCodexAgentationBlock p ++ after)) nl
       = true
    /\ forall r, writeCodexConfig (Some content) r
                 = join nl (before ++ buildCodexAgentationBlock r ++ after).
Proof.
  intros Hcr.
  destruct (@join_split content [] Hcr) as (J & F & N);
    [split; intros []|].
  simpl in J. unfold writeCodexConfig. cbv zeta.
  set (hdr := fun line => eqb (trim line) sectionHeader).
  set (L := splitLines [] content) in *.
  assert (Hblock : forall r, buildCodexAgentationBlock r <> [])
    by (intros r; destruct (block_lines r) as (a & -> & _); discriminate).
  destruct (findIndex hdr L) as [i|] eqn:E.
  - destruct (findIndex_split _ _ E) as (x & Hx & El & Hn & Hlen).
    set (B := firstn i L) in *. set (R := skipn (S i) L) in *.
    rewrite El in F. apply Forall_app in F. destruct F as [FB FR].
    apply Forall_inv_tail in FR.
    pose proof (fromNextTable_all FR) as FA.
    destruct (endsWith (join nl (B ++ buildCodexAgentationBlock p
                                   ++ fromNextTable R)) nl) eqn:Ee.
    + exists B, (fromNextTable R).
      repeat split; try assumption; [apply fromNextTable_cases|].
      intros r. rewrite (@endsWith_block B _ r p FA), Ee. reflexivity.
    + destruct (fromNextTable_cases R) as [E0 | (h & t & E0 & Hh)].
      { rewrite E0, endsWith_block_last in Ee. discriminate Ee. }
      exists B, (fromNextTable R ++ [[]]).
      assert (Hne : forall r, B ++ buildCodexAgentationBlock r
                              ++ fromNextTable R <> []).
      { intros r H. apply app_eq_nil in H. destruct H as [_ H].
        apply app_eq_nil in H. destruct H as [H _]. exact (Hblock r H). }
      repeat split; try assumption.
      * apply Forall_app. split; [exact FA|].
        constructor; [split; intros [] | constructor].
      * right. rewrite E0. exists h, (t ++ [[]]). auto.
      * rewrite !app_assoc, join_blank; [apply endsWith_newline|].
        rewrite <- app_assoc. apply Hne.
      * intros r. rewrite (@endsWith_block B _ r p FA), Ee.
        rewrite <- join_blank by apply Hne.
        rewrite <- !app_assoc. reflexivity.
  - destruct (endsWith content nl) eqn:Ee.
    + exists L, []. repeat split; try assumption;
        [constructor | left; reflexivity | apply endsWith_block_last |].
      intros r. rewrite app_nil_r, join_app by (exact N || apply Hblock).
      rewrite J. reflexivity.
    + exists (L ++ [[]]), [].
      repeat split;
        [ apply findIndex_none_app; [exact E | reflexivity]
        | apply Forall_app; split; [exact F|];
          constructor; [split; intros [] | constructor]
        | constructor | left; reflexivity | apply endsWith_block_last |].
      intros r. rewrite app_nil_r, <- app_assoc.
      rewrite join_app by (exact N || discriminate).
      change ([[]] ++ buildCodexAgentationBlock r)
        with ([] :: buildCodexAgentationBlock r).
      rewrite J. apply (f_equal (app content)), (f_equal (app nl)).
      symmetry. exact (@join_cons [] (buildCodexAgentationBlock r) (Hblock r)).
Qed.

(** X25. The last run of the wizard wins: on a Codex configuration without
    carriage returns (or on no file at all), running the wizard for port
    [p] and then for port [q] leaves the text that running it for [q]
    alone leaves; with [p = q], a second run changes nothing. *)
Theorem last_run_of_the_wizard_wins (existing : option jsstring) (p q : Z) :
  (forall content, existing = Some content -> ~ In 13%N content) ->
  writeCodexConfig (Some (writeCodexConfig existing p)) q
  = writeCodexConfig existing q.
Proof.
  intros Hcr. destruct existing as [content|].
  - destruct (@written_shape content p (Hcr content eq_refl))
      as (B & A & Hn & FB & FA & Hh & He & Hw).
    rewrite !Hw. apply rewrite_block; assumption.
  - pose proof (@rewrite_block [] [] p q eq_refl (Forall_nil _)
                  (Forall_nil _) (or_introl eq_refl)
                  (@endsWith_block_last [] p)) as H.
    cbn [app] in H. rewrite !app_nil_r in H. exact H.
Qed.

End CodexRewrite.

(* ------------------------------------------------------------------------- *)
(** ** Properties: running the wizard again on a Claude Code configuration   *)
(* ------------------------------------------------------------------------- *)

Section ClaudeRewrite.
Import Js Json Cli Setup.

Lemma setField_overwrite (k : jsstring) (v v' : json)
      (o : list (jsstring * json)) :
  setField k v' (setField k v o) = setField k v' o.
Proof.
  induction o as [|[k0 v0] o IH]; simpl.
  - rewrite eqb_refl. reflexivity.
  - destruct (eqb k0 k) eqn:E; simpl; rewrite E; [reflexivity|].
    rewrite IH. reflexivity.
Qed.

(** X26. The last run of the wizard wins for Claude Code too: when a run
    for port [p] writes the configuration [j], a run for port [q] on [j]
    leaves what a run for [q] alone would have left; with [p = q], a second
    run changes nothing. *)
Theorem last_claude_run_wins (file : ConfigFile) (p q : Z) (j : json) :
  writeClaudeConfig file p = Some j ->
  writeClaudeConfig (Holds j) q = writeClaudeConfig file q.
Proof.
  unfold writeClaudeConfig. cbv zeta.
  set (config := match file with Holds j0 => j0 | _ => JObj [] end).
  destruct config as [| | | |items|o]; try discriminate.
  - intros [= <-]. reflexivity.
  - destruct (field (str "mcpServers") o) as [[| | | |items|servers]|] eqn:E;
      intros [= <-]; rewrite ?field_setField_same, ?E,
                       ?setField_overwrite; try reflexivity;
      simpl; rewrite ?eqb_refl; reflexivity.
Qed.

End ClaudeRewrite.

(* ------------------------------------------------------------------------- *)
(** ** The further properties at concrete inputs                             *)
(* ------------------------------------------------------------------------- *)

(** [server --port 8080]: the HTTP server is started on port 8080. *)
Lemma server_on_port_8080 :
  ~ In (Js.str "--mcp-only") Case.port8080
  /\ Cli.http (Cli.serverCommand (P := Sample.plain) Case.port8080 None)
     = Some (Router.startHttpServer (P := Sample.plain) 8080).
Proof.
  assert (Hno : ~ In (Js.str "--mcp-only") Case.port8080)
    by (intros [H|[H|[]]]; discriminate H).
  split; [exact Hno|].
  destruct (@server_listens_on_a_valid_port Sample.plain Case.port8080 None)
    as (_ & _ & H).
  exact (H Hno).
Defined.

(** [server --port 8080]: the dispatcher is pointed at port 8080. *)
Lemma base_url_for_port_8080 :
  ~ In (Js.str "--http-url") Case.port8080
  /\ Cli.mcpBaseUrl (Cli.serverCommand (P := Sample.plain) Case.port8080 None)
     = Js.str "http://localhost:8080".
Proof.
  assert (Hno : ~ In (Js.str "--http-url") Case.port8080)
    by (intros [H|[H|[]]]; discriminate H).
  split; [exact Hno|].
  exact (@base_url_follows_the_port Sample.plain Case.port8080 None Hno).
Defined.

(** [server --api-key ag_xxx]: the key that reaches the storage layer. *)
Lemma storage_key_from_the_flag :
  Cli.storageKey
    (Cli.serverCommand (P := Sample.plain)
       [Js.str "--api-key"; Js.str "ag_xxx"] (Some []))
  = Some (Js.str "ag_xxx")
  /\ Js.str "ag_xxx" <> [].
Proof.
  split; [reflexivity|].
  exact (proj1 (@storage_key_is_never_empty Sample.plain
                  [Js.str "--api-key"; Js.str "ag_xxx"] (Some [])
                  (Js.str "ag_xxx") eq_refl)).
Defined.

(** The wizard's server for port 9000. *)
Lemma wizard_server_on_port_9000 :
  1 <= 9000 <= 65535
  /\ Cli.port (Cli.parseOptions [Js.str "--port"; Js.str "9000"]) = 9000.
Proof.
  assert (H : 1 <= 9000 <= 65535) by lia.
  split; [exact H|].
  exact (proj1 (@server_started_by_the_wizard 9000 H)).
Defined.


(** The setting and the other server of that configuration are kept. *)
Lemma wizard_keeps_theme_and_other_server :
  Cover.exactNumbers (Json.JObj Case.claudeConfig) = true
  /\ exists o',
    Setup.writeClaudeConfig (Setup.Holds (Json.JObj Case.claudeConfig)) 8080
    = Some (Json.JObj o')
    /\ Json.field (Js.str "theme") o' = Some (Json.JStr (Js.str "dark"))
    /\ exists servers',
         Json.field (Js.str "mcpServers") o' = Some (Json.JObj servers')
         /\ Json.field (Js.str "other") servers'
            = Some (Json.JObj [(Js.str "command", Json.JStr (Js.str "node"))]).
Proof.
  split; [reflexivity|].
  destruct (@wizard_keeps_the_other_entries Case.claudeConfig 8080 eq_refl)
    as (o' & H1 & _ & H2 & H3 & _).
  exists o'. split; [exact H1|]. split.
  - rewrite H2 by discriminate. reflexivity.
  - destruct (H3 _ eq_refl) as (servers' & Hs & Hk).
    exists servers'. split; [exact Hs|].
    rewrite Hk by discriminate. reflexivity.
Defined.

(** The wizard adds port 8080 to a Codex configuration without the
    section; the doctor probes 4747. *)
Lemma codex_doctor_misses_8080 :
  Js.includes Setup.sectionHeader Case.codexConfig = false
  /\ Setup.probedPort
       (Setup.codexDoctor
          (Some (Setup.writeCodexConfig (Some Case.codexConfig) 8080)))
     = 4747.
Proof.
  split; [reflexivity|].
  refine (proj2 (@codex_doctor_probes_the_default_port
                   (Some Case.codexConfig) 8080 _)).
  intros content [= <-]. reflexivity.
Defined.

(** GET /sessions/S1/pending is the pending route with id S1. *)
Lemma pending_of_S1_is_routed :
  Router.matchRoute (Js.str "GET") (Js.str "/sessions/S1/pending")
  = Some (Router.GetPending, [(Js.str "id", Js.str "S1")])
  /\ exists r id,
       In r Router.routes /\ Spec.isSegment id = true
       /\ Js.str "GET" = Router.r_method r
       /\ Js.str "/sessions/S1/pending"
          = Cover.pathOf (Router.r_pattern r) id
       /\ Router.GetPending = Router.r_handler r
       /\ [(Js.str "id", Js.str "S1")] = Cover.paramsOf r id.
Proof.
  split; [reflexivity|].
  exact (proj1 (@routes_are_those_of_the_table
                  (Js.str "GET") (Js.str "/sessions/S1/pending")
                  Router.GetPending [(Js.str "id", Js.str "S1")]) eq_refl).
Defined.

(** DELETE /annotations/A9, which does not exist, is answered 404 and
    leaves the state as it was. *)
Lemma delete_of_missing_A9_changes_nothing :
  Http.statusOf
    (fst (Router.handleRequest (P := Sample.plain) 5%nat (Sample.at_ 14 "x")
            (Spec.delete (Js.str "/annotations/A9")) Sample.pendingA1))
  = 404
  /\ snd (Router.handleRequest (P := Sample.plain) 5%nat (Sample.at_ 14 "x")
            (Spec.delete (Js.str "/annotations/A9")) Sample.pendingA1)
     = Sample.pendingA1.
Proof.
  assert (H : Http.statusOf
                (fst (Router.handleRequest (P := Sample.plain) 5%nat
                        (Sample.at_ 14 "x")
                        (Spec.delete (Js.str "/annotations/A9"))
                        Sample.pendingA1)) = 404)
    by (vm_compute; reflexivity).
  split; [exact H|].
  apply (@error_answers_change_nothing Sample.plain). rewrite H. lia.
Defined.

(** Opening the stream of S1 is a GET: the store is as it was. *)
Lemma opening_a_stream_leaves_the_store :
  Http.method Sample.reconnect <> Js.str "POST"
  /\ Cover.sameStore
       (Router.run (P := Sample.plain) Sample.threeAnnotations Model.initial)
       (snd (Router.handleRequest (P := Sample.plain) 7%nat
               (Sample.at_ 14 "x") Sample.reconnect
               (Router.run (P := Sample.plain) Sample.threeAnnotations
                           Model.initial))).
Proof.
  split; [discriminate|].
  apply (@only_writes_reach_the_store Sample.plain); discriminate.
Defined.

(** POST /sessions with a body that is not JSON. *)
Lemma post_that_is_not_json :
  Http.body Case.notJson = Http.Unparsable
  /\ Router.handleRequest (P := Sample.plain) 5%nat (Sample.at_ 14 "x")
       Case.notJson Sample.pendingA1
     = (Http.sendError 400 (Js.str "Invalid JSON"), Sample.pendingA1).
Proof.
  split; [reflexivity|].
  exact (@unparsable_body_is_rejected Sample.plain 5%nat (Sample.at_ 14 "x")
           Case.notJson Sample.pendingA1 eq_refl (or_introl eq_refl)).
Defined.

(** POST /sessions/nope/annotations without a body: 400 for the missing
    fields, although the session does not exist either. *)
Lemma empty_post_for_a_missing_session :
  StoreRead.getSession (Js.str "nope") Sample.pendingA1 = None
  /\ Router.handleRequest (P := Sample.plain) 5%nat (Sample.at_ 14 "x")
       Case.emptyPost Sample.pendingA1
     = (Http.sendError 400
          (Js.str "comment, element, and elementPath are required"),
        Sample.pendingA1).
Proof.
  split; [vm_compute; reflexivity|].
  destruct (@missing_fields_are_rejected_first Sample.plain 5%nat
              (Sample.at_ 14 "x") Case.emptyPost Sample.pendingA1 []
              (Js.str "nope") eq_refl eq_refl eq_refl) as (_ & H & _).
  exact (H eq_refl eq_refl).
Defined.

(** The stream of S1 on response 7 is closed; a ping of its timer, a fourth
    annotation and a retention sweep later, response 7 has received what it
    had received when it closed. *)
Lemma nothing_more_on_response_7 :
  Spec.untouched 7%nat Sample.oneMore
  /\ Cover.written 7%nat
       (Router.run (P := Sample.plain) Sample.oneMore
          (Router.step (P := Sample.plain) (Router.Disconnect 7%nat)
             (Router.run (P := Sample.plain) Case.streamOpened
                         Model.initial)))
     = Cover.written 7%nat
         (Router.run (P := Sample.plain) Case.streamOpened Model.initial).
Proof.
  split; [reflexivity|].
  exact (proj1 (@nothing_is_written_after_close Sample.plain
                  Case.streamOpened Sample.oneMore 7%nat eq_refl)).
Defined.

(** Reconnecting with the id of frame 3 replays event 4. *)
Lemma reconnect_with_id_3 :
  Http.lastEventId Sample.reconnect
  = Some (Js.ofInt (Model.e_sequence Case.third))
  /\ map Model.e_sequence
         (Router.framesOf 7%nat
            (snd (Router.handleRequest (P := Sample.plain) 7%nat
                    (Sample.at_ 14 "x") Sample.reconnect
                    (Router.run (P := Sample.plain) Sample.threeAnnotations
                                Model.initial))))
     = [4].
Proof.
  split; [reflexivity|].
  destruct (@reconnect_with_the_id_of_a_frame Sample.plain 7%nat
              (Sample.at_ 14 "x") Sample.reconnect (Js.str "S1") Sample.s1
              Case.third
              (Router.run (P := Sample.plain) Sample.threeAnnotations
                          Model.initial)
              eq_refl eq_refl eq_refl eq_refl eq_refl) as (_ & _ & H).
  rewrite H. vm_compute. reflexivity.
Defined.

(** Last-Event-ID: abc opens the stream and replays nothing. *)
Lemma header_abc_replays_nothing :
  Js.parseInt (Js.str "abc") = None
  /\ Router.framesOf 7%nat
       (snd (Router.handleRequest (P := Sample.plain) 7%nat
               (Sample.at_ 14 "x") Case.garbledHeader
               (Router.run (P := Sample.plain) Sample.threeAnnotations
                           Model.initial)))
     = [].
Proof.
  split; [reflexivity|].
  destruct (@last_event_id_without_a_number Sample.plain 7%nat
              (Sample.at_ 14 "x") Case.garbledHeader (Js.str "S1") Sample.s1
              (Router.run (P := Sample.plain) Sample.threeAnnotations
                          Model.initial)
              eq_refl eq_refl eq_refl eq_refl) as (_ & _ & H & _).
  - intros h [= <-]. reflexivity.
  - rewrite H. reflexivity.
Defined.

(** Dismissing A1 with the empty reason: the PATCH, then the POST of
    "Dismissed: ". *)
Lemma dismiss_A1_with_empty_reason :
  Cover.callsOf (P := Sample.plain)
    (Broker.loopback (P := Sample.plain) Sample.supply)
    (Js.str "agentation_dismiss")
    (Sample.toolArgs [("annotationId", "A1"); ("reason", "")]%string)
    Sample.pendingA1
  = [ {| Mcp.c_method := Js.str "PATCH";
         Mcp.c_path := Js.str "/annotations/A1";
         Mcp.c_body := Some (Mcp.statusPatch "dismissed") |};
      {| Mcp.c_method := Js.str "POST";
         Mcp.c_path := Js.str "/annotations/A1/thread";
         Mcp.c_body := Some (Mcp.agentMessage (Js.str "Dismissed: ")) |} ].
Proof.
  rewrite (@dismiss_tool_calls Sample.plain Model.World
             (Broker.loopback (P := Sample.plain) Sample.supply)
             Sample.pendingA1
             (Sample.toolArgs [("annotationId", "A1"); ("reason", "")]%string)
             (Js.str "A1") [] eq_refl eq_refl).
  vm_compute. reflexivity.
Defined.

(** dismiss without a reason: no call, the error of the schema. *)
Lemma dismiss_without_reason :
  In (Js.str "reason")
     (Mcp.t_required
        (Mcp.tool "agentation_dismiss" ["annotationId"; "reason"]%string
                  ["annotationId"; "reason"]%string))
  /\ Mcp.callTool (P := Sample.plain)
       (Spec.logged (Broker.loopback (P := Sample.plain) Sample.supply))
       (Js.str "agentation_dismiss")
       (Sample.toolArgs [("annotationId", "A1")]%string)
       (Sample.pendingA1, [])
     = (Mcp.Returned (Mcp.error (Js.str "Invalid arguments")),
        (Sample.pendingA1, [])).
Proof.
  split; [simpl; auto|].
  apply (@arguments_are_checked_before_any_call Sample.plain Model.World
           (Broker.loopback (P := Sample.plain) Sample.supply)
           Sample.pendingA1
           (Mcp.tool "agentation_dismiss" ["annotationId"; "reason"]%string
                     ["annotationId"; "reason"]%string)
           (Js.str "reason")).
  - simpl. auto 10.
  - simpl. auto.
  - intros o s [= <-]. discriminate.
Defined.

(** resolve with both of its properties reaches the server. *)
Lemma resolve_reaches_the_server :
  Cover.callsOf (P := Sample.plain)
    (Broker.loopback (P := Sample.plain) Sample.supply)
    (Js.str "agentation_resolve")
    (Sample.toolArgs [("annotationId", "A1"); ("summary", "done")]%string)
    Sample.pendingA1
  <> [].
Proof.
  apply (@catalog_tools_reach_the_server Sample.plain Model.World
           (Broker.loopback (P := Sample.plain) Sample.supply)
           Sample.pendingA1
           (Mcp.tool "agentation_resolve" ["annotationId"; "summary"]%string
                     ["annotationId"]%string)).
  - simpl. auto 10.
  - reflexivity.
Defined.

(** reply to A1, which exists, with the empty message. *)
Lemma reply_to_A1_with_nothing :
  StoreRead.getAnnotation (Js.str "A1") Sample.pendingA1 = Some Sample.a1
  /\ Broker.callTool (P := Sample.plain) Sample.supply
       (Js.str "agentation_reply")
       (Sample.toolArgs [("annotationId", "A1"); ("message", "")]%string)
       Sample.pendingA1
     = (Mcp.Returned
          (Mcp.error
             (Mcp.httpError 400
                (stringify (Platform := Sample.plain)
                   (Spec.errorBody "role and content are required")))),
        Sample.pendingA1).
Proof.
  split; [vm_compute; reflexivity|].
  exact (@reply_with_an_empty_message Sample.plain Sample.supply
           Sample.pendingA1 (Js.str "A1")
           (Sample.toolArgs [("annotationId", "A1"); ("message", "")]%string)
           eq_refl eq_refl eq_refl eq_refl).
Defined.

(** get_session for "nope/pending": the pending list of a session that
    does not exist. *)
Lemma get_session_of_nope_pending :
  StoreRead.getSession (Js.str "nope") Sample.pendingA1 = None
  /\ Broker.callTool (P := Sample.plain) Sample.supply
       (Js.str "agentation_get_session")
       (Sample.toolArgs [("sessionId", "nope/pending")]%string)
       Sample.pendingA1
     = (Mcp.Returned
          (Mcp.success (P := Sample.plain)
             (Json.JObj [(Js.str "count", Json.JNum 0);
                         (Js.str "annotations", Json.JArr [])])),
        Sample.pendingA1).
Proof.
  split; [vm_compute; reflexivity|].
  exact (proj1 (@session_id_is_spliced_into_the_path Sample.plain
                  Sample.supply Sample.pendingA1 (Js.str "nope")
                  (Sample.toolArgs [("sessionId", "nope/pending")]%string)
                  eq_refl) eq_refl eq_refl).
Defined.

(** get_all_pending on the store that holds A1 returns summaries only. *)
Lemma all_pending_of_A1_are_summaries :
  exists r,
    Mcp.callTool (P := Sample.plain)
      (Broker.loopback (P := Sample.plain) Sample.supply)
      (Js.str "agentation_get_all_pending") None Sample.pendingA1
    = (Mcp.Returned r, Sample.pendingA1)
    /\ Mcp.isError r = false
    /\ exists count summaries,
         r = Mcp.success (P := Sample.plain)
               (Json.JObj
                  (count ++ [(Js.str "annotations", Json.JArr summaries)]))
         /\ Forall (fun y => exists o,
                        y = Json.JObj o
                        /\ forall k v, In (k, v) o ->
                             In k (map Js.str
                                       ["id"; "comment"; "element";
                                        "elementPath"; "url"; "intent";
                                        "severity"; "timestamp";
                                        "nearbyText";
                                        "reactComponents"]%string))
                   summaries.
Proof.
  eexists. split; [vm_compute; reflexivity|]. split; [reflexivity|].
  apply (@pending_tools_return_summaries_only Sample.plain Model.World
           (Broker.loopback (P := Sample.plain) Sample.supply)
           Sample.pendingA1 Sample.pendingA1
           (Js.str "agentation_get_all_pending") None);
    [right; reflexivity | vm_compute; reflexivity | reflexivity].
Defined.

(** A section with the args line first and port 70000 is read as 70000. *)
Lemma args_first_with_port_70000 :
  0 <= 70000 <= 9007199254740992
  /\ Setup.getCodexAgentationPort
       (Setup.join Setup.nl
          [ Setup.sectionHeader;
            Js.str "args = " ++ Setup.codexArgs 70000;
            Js.str "command = " ++ Setup.quoted (Js.str "npx");
            [] ])
     = 70000.
Proof.
  split; [lia|]. apply (@args_line_first_is_read 70000). lia.
Defined.

(** The wizard run for 8080 and then for 4747 on a configuration without
    the section leaves what a run for 4747 leaves. *)
Lemma wizard_for_8080_then_4747 :
  ~ In 13%N Case.codexConfig
  /\ Setup.writeCodexConfig
       (Some (Setup.writeCodexConfig (Some Case.codexConfig) 8080)) 4747
     = Setup.writeCodexConfig (Some Case.codexConfig) 4747.
Proof.
  assert (H : ~ In 13%N Case.codexConfig)
    by (vm_compute; intuition discriminate).
  split; [exact H|].
  apply (@last_run_of_the_wizard_wins (Some Case.codexConfig) 8080 4747).
  intros content [= <-]. exact H.
Defined.


(** The wizard run for 8080 and then for 4747 on the configuration with a
    setting and another server leaves what a run for 4747 leaves. *)
Lemma claude_wizard_for_8080_then_4747 :
  exists j,
    Setup.writeClaudeConfig (Setup.Holds (Json.JObj Case.claudeConfig)) 8080
    = Some j
    /\ Setup.writeClaudeConfig (Setup.Holds j) 4747
       = Setup.writeClaudeConfig (Setup.Holds (Json.JObj Case.claudeConfig))
           4747.
Proof.
  eexists. split; [reflexivity|].
  apply (@last_claude_run_wins (Setup.Holds (Json.JObj Case.claudeConfig))
           8080 4747).
  reflexivity.
Defined.
